(** * The SDL front-end of FreeRDP: client/SDL/sdl_freerdp.c

    A shallow embedding of the exit-code table, the start-up handshake, the
    frame gate, the command channel, the frame compositor and the client
    thread of [sdl_freerdp.c]; the properties its specification states about
    them (Part II), and further properties the code shows (Part III).

    Conventions.
    - [DWORD], [UINT32], [int] and [INT32] values are integers ([Z]); where the
      C code computes on [int]s the two's-complement wrap-around is written
      out ([wrap_int32]).
    - A [HANDLE] or an [SDL_Window*] is [None] for [NULL] and [Some i] for the
      i-th object of the kernel (respectively of the toolkit).
    - Code that may wait for ever ([WaitForMultipleObjects] with [INFINITE])
      returns an [outcome]: [Blocked] when no handle is signaled in the state
      the wait is evaluated in, [Returned] otherwise.  A blocked thread
      resumes by evaluating the same wait in a later state. *)

From stdpp Require Import base numbers list strings.

Local Open Scope Z_scope.

(** ** Part I: definitions *)

(** *** Exit codes *)

Definition DWORD := Z.

(** [enum SDL_EXIT_CODE]. *)
Inductive SDL_EXIT_CODE :=
  (* section 0-15: protocol-independent codes *)
  | SDL_EXIT_SUCCESS
  | SDL_EXIT_DISCONNECT
  | SDL_EXIT_LOGOFF
  | SDL_EXIT_IDLE_TIMEOUT
  | SDL_EXIT_LOGON_TIMEOUT
  | SDL_EXIT_CONN_REPLACED
  | SDL_EXIT_OUT_OF_MEMORY
  | SDL_EXIT_CONN_DENIED
  | SDL_EXIT_CONN_DENIED_FIPS
  | SDL_EXIT_USER_PRIVILEGES
  | SDL_EXIT_FRESH_CREDENTIALS_REQUIRED
  | SDL_EXIT_DISCONNECT_BY_USER
  (* section 16-31: license error set *)
  | SDL_EXIT_LICENSE_INTERNAL
  | SDL_EXIT_LICENSE_NO_LICENSE_SERVER
  | SDL_EXIT_LICENSE_NO_LICENSE
  | SDL_EXIT_LICENSE_BAD_CLIENT_MSG
  | SDL_EXIT_LICENSE_HWID_DOESNT_MATCH
  | SDL_EXIT_LICENSE_BAD_CLIENT
  | SDL_EXIT_LICENSE_CANT_FINISH_PROTOCOL
  | SDL_EXIT_LICENSE_CLIENT_ENDED_PROTOCOL
  | SDL_EXIT_LICENSE_BAD_CLIENT_ENCRYPTION
  | SDL_EXIT_LICENSE_CANT_UPGRADE
  | SDL_EXIT_LICENSE_NO_REMOTE_CONNECTIONS
  (* section 32-127: RDP protocol error set *)
  | SDL_EXIT_RDP
  (* section 128-254: xfreerdp specific exit codes *)
  | SDL_EXIT_PARSE_ARGUMENTS
  | SDL_EXIT_MEMORY
  | SDL_EXIT_PROTOCOL
  | SDL_EXIT_CONN_FAILED
  | SDL_EXIT_AUTH_FAILURE
  | SDL_EXIT_NEGO_FAILURE
  | SDL_EXIT_LOGON_FAILURE
  | SDL_EXIT_ACCOUNT_LOCKED_OUT
  | SDL_EXIT_PRE_CONNECT_FAILED
  | SDL_EXIT_CONNECT_UNDEFINED
  | SDL_EXIT_POST_CONNECT_FAILED
  | SDL_EXIT_DNS_ERROR
  | SDL_EXIT_DNS_NAME_NOT_FOUND
  | SDL_EXIT_CONNECT_FAILED
  | SDL_EXIT_MCS_CONNECT_INITIAL_ERROR
  | SDL_EXIT_TLS_CONNECT_FAILED
  | SDL_EXIT_INSUFFICIENT_PRIVILEGES
  | SDL_EXIT_CONNECT_CANCELLED
  | SDL_EXIT_CONNECT_TRANSPORT_FAILED
  | SDL_EXIT_CONNECT_PASSWORD_EXPIRED
  | SDL_EXIT_CONNECT_PASSWORD_MUST_CHANGE
  | SDL_EXIT_CONNECT_KDC_UNREACHABLE
  | SDL_EXIT_CONNECT_ACCOUNT_DISABLED
  | SDL_EXIT_CONNECT_PASSWORD_CERTAINLY_EXPIRED
  | SDL_EXIT_CONNECT_CLIENT_REVOKED
  | SDL_EXIT_CONNECT_WRONG_PASSWORD
  | SDL_EXIT_CONNECT_ACCESS_DENIED
  | SDL_EXIT_CONNECT_ACCOUNT_RESTRICTION
  | SDL_EXIT_CONNECT_ACCOUNT_EXPIRED
  | SDL_EXIT_CONNECT_LOGON_TYPE_NOT_GRANTED
  | SDL_EXIT_CONNECT_NO_OR_MISSING_CREDENTIALS
  | SDL_EXIT_UNKNOWN.

(** The value the enumeration gives each enumerator. *)
Definition exit_code_value (y : SDL_EXIT_CODE) : Z :=
  match y with
  | SDL_EXIT_SUCCESS => 0
  | SDL_EXIT_DISCONNECT => 1
  | SDL_EXIT_LOGOFF => 2
  | SDL_EXIT_IDLE_TIMEOUT => 3
  | SDL_EXIT_LOGON_TIMEOUT => 4
  | SDL_EXIT_CONN_REPLACED => 5
  | SDL_EXIT_OUT_OF_MEMORY => 6
  | SDL_EXIT_CONN_DENIED => 7
  | SDL_EXIT_CONN_DENIED_FIPS => 8
  | SDL_EXIT_USER_PRIVILEGES => 9
  | SDL_EXIT_FRESH_CREDENTIALS_REQUIRED => 10
  | SDL_EXIT_DISCONNECT_BY_USER => 11
  | SDL_EXIT_LICENSE_INTERNAL => 16
  | SDL_EXIT_LICENSE_NO_LICENSE_SERVER => 17
  | SDL_EXIT_LICENSE_NO_LICENSE => 18
  | SDL_EXIT_LICENSE_BAD_CLIENT_MSG => 19
  | SDL_EXIT_LICENSE_HWID_DOESNT_MATCH => 20
  | SDL_EXIT_LICENSE_BAD_CLIENT => 21
  | SDL_EXIT_LICENSE_CANT_FINISH_PROTOCOL => 22
  | SDL_EXIT_LICENSE_CLIENT_ENDED_PROTOCOL => 23
  | SDL_EXIT_LICENSE_BAD_CLIENT_ENCRYPTION => 24
  | SDL_EXIT_LICENSE_CANT_UPGRADE => 25
  | SDL_EXIT_LICENSE_NO_REMOTE_CONNECTIONS => 26
  | SDL_EXIT_RDP => 32
  | SDL_EXIT_PARSE_ARGUMENTS => 128
  | SDL_EXIT_MEMORY => 129
  | SDL_EXIT_PROTOCOL => 130
  | SDL_EXIT_CONN_FAILED => 131
  | SDL_EXIT_AUTH_FAILURE => 132
  | SDL_EXIT_NEGO_FAILURE => 133
  | SDL_EXIT_LOGON_FAILURE => 134
  | SDL_EXIT_ACCOUNT_LOCKED_OUT => 135
  | SDL_EXIT_PRE_CONNECT_FAILED => 136
  | SDL_EXIT_CONNECT_UNDEFINED => 137
  | SDL_EXIT_POST_CONNECT_FAILED => 138
  | SDL_EXIT_DNS_ERROR => 139
  | SDL_EXIT_DNS_NAME_NOT_FOUND => 140
  | SDL_EXIT_CONNECT_FAILED => 141
  | SDL_EXIT_MCS_CONNECT_INITIAL_ERROR => 142
  | SDL_EXIT_TLS_CONNECT_FAILED => 143
  | SDL_EXIT_INSUFFICIENT_PRIVILEGES => 144
  | SDL_EXIT_CONNECT_CANCELLED => 145
  | SDL_EXIT_CONNECT_TRANSPORT_FAILED => 147
  | SDL_EXIT_CONNECT_PASSWORD_EXPIRED => 148
  | SDL_EXIT_CONNECT_PASSWORD_MUST_CHANGE => 149
  | SDL_EXIT_CONNECT_KDC_UNREACHABLE => 150
  | SDL_EXIT_CONNECT_ACCOUNT_DISABLED => 151
  | SDL_EXIT_CONNECT_PASSWORD_CERTAINLY_EXPIRED => 152
  | SDL_EXIT_CONNECT_CLIENT_REVOKED => 153
  | SDL_EXIT_CONNECT_WRONG_PASSWORD => 154
  | SDL_EXIT_CONNECT_ACCESS_DENIED => 155
  | SDL_EXIT_CONNECT_ACCOUNT_RESTRICTION => 156
  | SDL_EXIT_CONNECT_ACCOUNT_EXPIRED => 157
  | SDL_EXIT_CONNECT_LOGON_TYPE_NOT_GRANTED => 158
  | SDL_EXIT_CONNECT_NO_OR_MISSING_CREDENTIALS => 159
  | SDL_EXIT_UNKNOWN => 255
  end.

(** The spelling of each enumerator: what [#y] expands to in [ENTRY]. *)
Definition exit_code_name (y : SDL_EXIT_CODE) : string :=
  match y with
  | SDL_EXIT_SUCCESS => "SDL_EXIT_SUCCESS"
  | SDL_EXIT_DISCONNECT => "SDL_EXIT_DISCONNECT"
  | SDL_EXIT_LOGOFF => "SDL_EXIT_LOGOFF"
  | SDL_EXIT_IDLE_TIMEOUT => "SDL_EXIT_IDLE_TIMEOUT"
  | SDL_EXIT_LOGON_TIMEOUT => "SDL_EXIT_LOGON_TIMEOUT"
  | SDL_EXIT_CONN_REPLACED => "SDL_EXIT_CONN_REPLACED"
  | SDL_EXIT_OUT_OF_MEMORY => "SDL_EXIT_OUT_OF_MEMORY"
  | SDL_EXIT_CONN_DENIED => "SDL_EXIT_CONN_DENIED"
  | SDL_EXIT_CONN_DENIED_FIPS => "SDL_EXIT_CONN_DENIED_FIPS"
  | SDL_EXIT_USER_PRIVILEGES => "SDL_EXIT_USER_PRIVILEGES"
  | SDL_EXIT_FRESH_CREDENTIALS_REQUIRED => "SDL_EXIT_FRESH_CREDENTIALS_REQUIRED"
  | SDL_EXIT_DISCONNECT_BY_USER => "SDL_EXIT_DISCONNECT_BY_USER"
  | SDL_EXIT_LICENSE_INTERNAL => "SDL_EXIT_LICENSE_INTERNAL"
  | SDL_EXIT_LICENSE_NO_LICENSE_SERVER => "SDL_EXIT_LICENSE_NO_LICENSE_SERVER"
  | SDL_EXIT_LICENSE_NO_LICENSE => "SDL_EXIT_LICENSE_NO_LICENSE"
  | SDL_EXIT_LICENSE_BAD_CLIENT_MSG => "SDL_EXIT_LICENSE_BAD_CLIENT_MSG"
  | SDL_EXIT_LICENSE_HWID_DOESNT_MATCH => "SDL_EXIT_LICENSE_HWID_DOESNT_MATCH"
  | SDL_EXIT_LICENSE_BAD_CLIENT => "SDL_EXIT_LICENSE_BAD_CLIENT"
  | SDL_EXIT_LICENSE_CANT_FINISH_PROTOCOL => "SDL_EXIT_LICENSE_CANT_FINISH_PROTOCOL"
  | SDL_EXIT_LICENSE_CLIENT_ENDED_PROTOCOL => "SDL_EXIT_LICENSE_CLIENT_ENDED_PROTOCOL"
  | SDL_EXIT_LICENSE_BAD_CLIENT_ENCRYPTION => "SDL_EXIT_LICENSE_BAD_CLIENT_ENCRYPTION"
  | SDL_EXIT_LICENSE_CANT_UPGRADE => "SDL_EXIT_LICENSE_CANT_UPGRADE"
  | SDL_EXIT_LICENSE_NO_REMOTE_CONNECTIONS => "SDL_EXIT_LICENSE_NO_REMOTE_CONNECTIONS"
  | SDL_EXIT_RDP => "SDL_EXIT_RDP"
  | SDL_EXIT_PARSE_ARGUMENTS => "SDL_EXIT_PARSE_ARGUMENTS"
  | SDL_EXIT_MEMORY => "SDL_EXIT_MEMORY"
  | SDL_EXIT_PROTOCOL => "SDL_EXIT_PROTOCOL"
  | SDL_EXIT_CONN_FAILED => "SDL_EXIT_CONN_FAILED"
  | SDL_EXIT_AUTH_FAILURE => "SDL_EXIT_AUTH_FAILURE"
  | SDL_EXIT_NEGO_FAILURE => "SDL_EXIT_NEGO_FAILURE"
  | SDL_EXIT_LOGON_FAILURE => "SDL_EXIT_LOGON_FAILURE"
  | SDL_EXIT_ACCOUNT_LOCKED_OUT => "SDL_EXIT_ACCOUNT_LOCKED_OUT"
  | SDL_EXIT_PRE_CONNECT_FAILED => "SDL_EXIT_PRE_CONNECT_FAILED"
  | SDL_EXIT_CONNECT_UNDEFINED => "SDL_EXIT_CONNECT_UNDEFINED"
  | SDL_EXIT_POST_CONNECT_FAILED => "SDL_EXIT_POST_CONNECT_FAILED"
  | SDL_EXIT_DNS_ERROR => "SDL_EXIT_DNS_ERROR"
  | SDL_EXIT_DNS_NAME_NOT_FOUND => "SDL_EXIT_DNS_NAME_NOT_FOUND"
  | SDL_EXIT_CONNECT_FAILED => "SDL_EXIT_CONNECT_FAILED"
  | SDL_EXIT_MCS_CONNECT_INITIAL_ERROR => "SDL_EXIT_MCS_CONNECT_INITIAL_ERROR"
  | SDL_EXIT_TLS_CONNECT_FAILED => "SDL_EXIT_TLS_CONNECT_FAILED"
  | SDL_EXIT_INSUFFICIENT_PRIVILEGES => "SDL_EXIT_INSUFFICIENT_PRIVILEGES"
  | SDL_EXIT_CONNECT_CANCELLED => "SDL_EXIT_CONNECT_CANCELLED"
  | SDL_EXIT_CONNECT_TRANSPORT_FAILED => "SDL_EXIT_CONNECT_TRANSPORT_FAILED"
  | SDL_EXIT_CONNECT_PASSWORD_EXPIRED => "SDL_EXIT_CONNECT_PASSWORD_EXPIRED"
  | SDL_EXIT_CONNECT_PASSWORD_MUST_CHANGE => "SDL_EXIT_CONNECT_PASSWORD_MUST_CHANGE"
  | SDL_EXIT_CONNECT_KDC_UNREACHABLE => "SDL_EXIT_CONNECT_KDC_UNREACHABLE"
  | SDL_EXIT_CONNECT_ACCOUNT_DISABLED => "SDL_EXIT_CONNECT_ACCOUNT_DISABLED"
  | SDL_EXIT_CONNECT_PASSWORD_CERTAINLY_EXPIRED =>
      "SDL_EXIT_CONNECT_PASSWORD_CERTAINLY_EXPIRED"
  | SDL_EXIT_CONNECT_CLIENT_REVOKED => "SDL_EXIT_CONNECT_CLIENT_REVOKED"
  | SDL_EXIT_CONNECT_WRONG_PASSWORD => "SDL_EXIT_CONNECT_WRONG_PASSWORD"
  | SDL_EXIT_CONNECT_ACCESS_DENIED => "SDL_EXIT_CONNECT_ACCESS_DENIED"
  | SDL_EXIT_CONNECT_ACCOUNT_RESTRICTION => "SDL_EXIT_CONNECT_ACCOUNT_RESTRICTION"
  | SDL_EXIT_CONNECT_ACCOUNT_EXPIRED => "SDL_EXIT_CONNECT_ACCOUNT_EXPIRED"
  | SDL_EXIT_CONNECT_LOGON_TYPE_NOT_GRANTED => "SDL_EXIT_CONNECT_LOGON_TYPE_NOT_GRANTED"
  | SDL_EXIT_CONNECT_NO_OR_MISSING_CREDENTIALS =>
      "SDL_EXIT_CONNECT_NO_OR_MISSING_CREDENTIALS"
  | SDL_EXIT_UNKNOWN => "SDL_EXIT_UNKNOWN"
  end.

(** The protocol error codes the table names.  [freerdp/error.h] is not part
    of the sources, so the codes are a parameter of the table: every theorem
    below holds whatever [DWORD] each name stands for. *)
Class freerdp_error := {
  FREERDP_ERROR_SUCCESS : DWORD;
  FREERDP_ERROR_NONE : DWORD;
  ERRINFO_LOGOFF_BY_USER : DWORD;
  FREERDP_ERROR_AUTHENTICATION_FAILED : DWORD;
  FREERDP_ERROR_SECURITY_NEGO_CONNECT_FAILED : DWORD;
  FREERDP_ERROR_CONNECT_LOGON_FAILURE : DWORD;
  FREERDP_ERROR_CONNECT_ACCOUNT_LOCKED_OUT : DWORD;
  FREERDP_ERROR_PRE_CONNECT_FAILED : DWORD;
  FREERDP_ERROR_CONNECT_UNDEFINED : DWORD;
  FREERDP_ERROR_POST_CONNECT_FAILED : DWORD;
  FREERDP_ERROR_DNS_ERROR : DWORD;
  FREERDP_ERROR_DNS_NAME_NOT_FOUND : DWORD;
  FREERDP_ERROR_CONNECT_FAILED : DWORD;
  FREERDP_ERROR_MCS_CONNECT_INITIAL_ERROR : DWORD;
  FREERDP_ERROR_TLS_CONNECT_FAILED : DWORD;
  FREERDP_ERROR_INSUFFICIENT_PRIVILEGES : DWORD;
  FREERDP_ERROR_CONNECT_CANCELLED : DWORD;
  FREERDP_ERROR_CONNECT_TRANSPORT_FAILED : DWORD;
  FREERDP_ERROR_CONNECT_PASSWORD_EXPIRED : DWORD;
  FREERDP_ERROR_CONNECT_PASSWORD_MUST_CHANGE : DWORD;
  FREERDP_ERROR_CONNECT_KDC_UNREACHABLE : DWORD;
  FREERDP_ERROR_CONNECT_ACCOUNT_DISABLED : DWORD;
  FREERDP_ERROR_CONNECT_PASSWORD_CERTAINLY_EXPIRED : DWORD;
  FREERDP_ERROR_CONNECT_CLIENT_REVOKED : DWORD;
  FREERDP_ERROR_CONNECT_WRONG_PASSWORD : DWORD;
  FREERDP_ERROR_CONNECT_ACCESS_DENIED : DWORD;
  FREERDP_ERROR_CONNECT_ACCOUNT_RESTRICTION : DWORD;
  FREERDP_ERROR_CONNECT_ACCOUNT_EXPIRED : DWORD;
  FREERDP_ERROR_CONNECT_LOGON_TYPE_NOT_GRANTED : DWORD;
  FREERDP_ERROR_CONNECT_NO_OR_MISSING_CREDENTIALS : DWORD;
}.

(** [struct sdl_exit_code_map_t]. *)
Record sdl_exit_code_map_t := {
  error : DWORD;
  code : Z;
  code_tag : string;
}.

(** [#define ENTRY(x, y) { x, y, #y }]. *)
Definition ENTRY (x : DWORD) (y : SDL_EXIT_CODE) : sdl_exit_code_map_t :=
  {| error := x; code := exit_code_value y; code_tag := exit_code_name y |}.

(** The linear scan both lookups run:
    [for (x = 0; x < ARRAYSIZE(map); x++) { cur = &map[x]; if (test) return cur; }
     return NULL;] with [n] the iterations left. *)
Fixpoint map_scan {A} (test : A -> bool) (map : list A) (n x : nat) : option A :=
  match n with
  | O => None
  | S n =>
      match map !! x with
      | Some cur => if test cur then Some cur else map_scan test map n (S x)
      | None => None
      end
  end.

Definition ARRAYSIZE {A} (a : list A) : nat := length a.

Section exit_code_map.
Context `{freerdp_error}.

Definition sdl_exit_code_map : list sdl_exit_code_map_t := [
  ENTRY FREERDP_ERROR_SUCCESS SDL_EXIT_SUCCESS;
  ENTRY FREERDP_ERROR_NONE SDL_EXIT_DISCONNECT;
  ENTRY FREERDP_ERROR_NONE SDL_EXIT_LOGOFF;
  ENTRY FREERDP_ERROR_NONE SDL_EXIT_IDLE_TIMEOUT;
  ENTRY FREERDP_ERROR_NONE SDL_EXIT_LOGON_TIMEOUT;
  ENTRY FREERDP_ERROR_NONE SDL_EXIT_CONN_REPLACED;
  ENTRY FREERDP_ERROR_NONE SDL_EXIT_OUT_OF_MEMORY;
  ENTRY FREERDP_ERROR_NONE SDL_EXIT_CONN_DENIED;
  ENTRY FREERDP_ERROR_NONE SDL_EXIT_CONN_DENIED_FIPS;
  ENTRY FREERDP_ERROR_NONE SDL_EXIT_USER_PRIVILEGES;
  ENTRY FREERDP_ERROR_NONE SDL_EXIT_FRESH_CREDENTIALS_REQUIRED;
  ENTRY ERRINFO_LOGOFF_BY_USER SDL_EXIT_DISCONNECT_BY_USER;
  ENTRY FREERDP_ERROR_NONE SDL_EXIT_UNKNOWN;
  (* section 16-31: license error set *)
  ENTRY FREERDP_ERROR_NONE SDL_EXIT_LICENSE_INTERNAL;
  ENTRY FREERDP_ERROR_NONE SDL_EXIT_LICENSE_NO_LICENSE_SERVER;
  ENTRY FREERDP_ERROR_NONE SDL_EXIT_LICENSE_NO_LICENSE;
  ENTRY FREERDP_ERROR_NONE SDL_EXIT_LICENSE_BAD_CLIENT_MSG;
  ENTRY FREERDP_ERROR_NONE SDL_EXIT_LICENSE_HWID_DOESNT_MATCH;
  ENTRY FREERDP_ERROR_NONE SDL_EXIT_LICENSE_BAD_CLIENT;
  ENTRY FREERDP_ERROR_NONE SDL_EXIT_LICENSE_CANT_FINISH_PROTOCOL;
  ENTRY FREERDP_ERROR_NONE SDL_EXIT_LICENSE_CLIENT_ENDED_PROTOCOL;
  ENTRY FREERDP_ERROR_NONE SDL_EXIT_LICENSE_BAD_CLIENT_ENCRYPTION;
  ENTRY FREERDP_ERROR_NONE SDL_EXIT_LICENSE_CANT_UPGRADE;
  ENTRY FREERDP_ERROR_NONE SDL_EXIT_LICENSE_NO_REMOTE_CONNECTIONS;
  ENTRY FREERDP_ERROR_NONE SDL_EXIT_LICENSE_CANT_UPGRADE;
  (* section 32-127: RDP protocol error set *)
  ENTRY FREERDP_ERROR_NONE SDL_EXIT_RDP;
  (* section 128-254: xfreerdp specific exit codes *)
  ENTRY FREERDP_ERROR_NONE SDL_EXIT_PARSE_ARGUMENTS;
  ENTRY FREERDP_ERROR_NONE SDL_EXIT_MEMORY;
  ENTRY FREERDP_ERROR_NONE SDL_EXIT_PROTOCOL;
  ENTRY FREERDP_ERROR_NONE SDL_EXIT_CONN_FAILED;
  ENTRY FREERDP_ERROR_AUTHENTICATION_FAILED SDL_EXIT_AUTH_FAILURE;
  ENTRY FREERDP_ERROR_SECURITY_NEGO_CONNECT_FAILED SDL_EXIT_NEGO_FAILURE;
  ENTRY FREERDP_ERROR_CONNECT_LOGON_FAILURE SDL_EXIT_LOGON_FAILURE;
  ENTRY FREERDP_ERROR_CONNECT_ACCOUNT_LOCKED_OUT SDL_EXIT_ACCOUNT_LOCKED_OUT;
  ENTRY FREERDP_ERROR_PRE_CONNECT_FAILED SDL_EXIT_PRE_CONNECT_FAILED;
  ENTRY FREERDP_ERROR_CONNECT_UNDEFINED SDL_EXIT_CONNECT_UNDEFINED;
  ENTRY FREERDP_ERROR_POST_CONNECT_FAILED SDL_EXIT_POST_CONNECT_FAILED;
  ENTRY FREERDP_ERROR_DNS_ERROR SDL_EXIT_DNS_ERROR;
  ENTRY FREERDP_ERROR_DNS_NAME_NOT_FOUND SDL_EXIT_DNS_NAME_NOT_FOUND;
  ENTRY FREERDP_ERROR_CONNECT_FAILED SDL_EXIT_CONNECT_FAILED;
  ENTRY FREERDP_ERROR_MCS_CONNECT_INITIAL_ERROR SDL_EXIT_MCS_CONNECT_INITIAL_ERROR;
  ENTRY FREERDP_ERROR_TLS_CONNECT_FAILED SDL_EXIT_TLS_CONNECT_FAILED;
  ENTRY FREERDP_ERROR_INSUFFICIENT_PRIVILEGES SDL_EXIT_INSUFFICIENT_PRIVILEGES;
  ENTRY FREERDP_ERROR_CONNECT_CANCELLED SDL_EXIT_CONNECT_CANCELLED;
  ENTRY FREERDP_ERROR_CONNECT_TRANSPORT_FAILED SDL_EXIT_CONNECT_TRANSPORT_FAILED;
  ENTRY FREERDP_ERROR_CONNECT_PASSWORD_EXPIRED SDL_EXIT_CONNECT_PASSWORD_EXPIRED;
  ENTRY FREERDP_ERROR_CONNECT_PASSWORD_MUST_CHANGE SDL_EXIT_CONNECT_PASSWORD_MUST_CHANGE;
  ENTRY FREERDP_ERROR_CONNECT_KDC_UNREACHABLE SDL_EXIT_CONNECT_KDC_UNREACHABLE;
  ENTRY FREERDP_ERROR_CONNECT_ACCOUNT_DISABLED SDL_EXIT_CONNECT_ACCOUNT_DISABLED;
  ENTRY FREERDP_ERROR_CONNECT_PASSWORD_CERTAINLY_EXPIRED
        SDL_EXIT_CONNECT_PASSWORD_CERTAINLY_EXPIRED;
  ENTRY FREERDP_ERROR_CONNECT_CLIENT_REVOKED SDL_EXIT_CONNECT_CLIENT_REVOKED;
  ENTRY FREERDP_ERROR_CONNECT_WRONG_PASSWORD SDL_EXIT_CONNECT_WRONG_PASSWORD;
  ENTRY FREERDP_ERROR_CONNECT_ACCESS_DENIED SDL_EXIT_CONNECT_ACCESS_DENIED;
  ENTRY FREERDP_ERROR_CONNECT_ACCOUNT_RESTRICTION SDL_EXIT_CONNECT_ACCOUNT_RESTRICTION;
  ENTRY FREERDP_ERROR_CONNECT_ACCOUNT_EXPIRED SDL_EXIT_CONNECT_ACCOUNT_EXPIRED;
  ENTRY FREERDP_ERROR_CONNECT_LOGON_TYPE_NOT_GRANTED SDL_EXIT_CONNECT_LOGON_TYPE_NOT_GRANTED;
  ENTRY FREERDP_ERROR_CONNECT_NO_OR_MISSING_CREDENTIALS
        SDL_EXIT_CONNECT_NO_OR_MISSING_CREDENTIALS
].

Definition sdl_map_entry_by_code (exit_code : Z) : option sdl_exit_code_map_t :=
  map_scan (fun cur => code cur =? exit_code)
           sdl_exit_code_map (ARRAYSIZE sdl_exit_code_map) 0.

Definition sdl_map_entry_by_error (error' : DWORD) : option sdl_exit_code_map_t :=
  map_scan (fun cur => error cur =? error')
           sdl_exit_code_map (ARRAYSIZE sdl_exit_code_map) 0.

Definition sdl_map_error_to_exit_code (error : DWORD) : Z :=
  match sdl_map_entry_by_error error with
  | Some entry => code entry
  | None => exit_code_value SDL_EXIT_CONN_FAILED
  end.

Definition sdl_map_error_to_code_tag (error : DWORD) : option string :=
  match sdl_map_entry_by_error error with
  | Some entry => Some (code_tag entry)
  | None => None
  end.

Definition sdl_map_to_code_tag (code : Z) : option string :=
  match sdl_map_entry_by_code code with
  | Some entry => Some (code_tag entry)
  | None => None
  end.

End exit_code_map.

(** The codes as FreeRDP's [include/freerdp/error.h] defines them
    ([FREERDP_ERROR_x] is [(2 << 16) | ERRCONNECT_x] for the connect class).
    They fix the table for the concrete evaluations below. *)
Definition freerdp_error_h : freerdp_error := {|
  FREERDP_ERROR_SUCCESS := 0x00000000;
  FREERDP_ERROR_NONE := 0xFFFFFFFF;
  ERRINFO_LOGOFF_BY_USER := 0x0000000C;
  FREERDP_ERROR_AUTHENTICATION_FAILED := 0x00020009;
  FREERDP_ERROR_SECURITY_NEGO_CONNECT_FAILED := 0x0002000C;
  FREERDP_ERROR_CONNECT_LOGON_FAILURE := 0x00020014;
  FREERDP_ERROR_CONNECT_ACCOUNT_LOCKED_OUT := 0x00020018;
  FREERDP_ERROR_PRE_CONNECT_FAILED := 0x00020001;
  FREERDP_ERROR_CONNECT_UNDEFINED := 0x00020002;
  FREERDP_ERROR_POST_CONNECT_FAILED := 0x00020003;
  FREERDP_ERROR_DNS_ERROR := 0x00020004;
  FREERDP_ERROR_DNS_NAME_NOT_FOUND := 0x00020005;
  FREERDP_ERROR_CONNECT_FAILED := 0x00020006;
  FREERDP_ERROR_MCS_CONNECT_INITIAL_ERROR := 0x00020007;
  FREERDP_ERROR_TLS_CONNECT_FAILED := 0x00020008;
  FREERDP_ERROR_INSUFFICIENT_PRIVILEGES := 0x0002000A;
  FREERDP_ERROR_CONNECT_CANCELLED := 0x0002000B;
  FREERDP_ERROR_CONNECT_TRANSPORT_FAILED := 0x0002000D;
  FREERDP_ERROR_CONNECT_PASSWORD_EXPIRED := 0x0002000E;
  FREERDP_ERROR_CONNECT_PASSWORD_MUST_CHANGE := 0x00020013;
  FREERDP_ERROR_CONNECT_KDC_UNREACHABLE := 0x00020011;
  FREERDP_ERROR_CONNECT_ACCOUNT_DISABLED := 0x00020012;
  FREERDP_ERROR_CONNECT_PASSWORD_CERTAINLY_EXPIRED := 0x0002000F;
  FREERDP_ERROR_CONNECT_CLIENT_REVOKED := 0x00020010;
  FREERDP_ERROR_CONNECT_WRONG_PASSWORD := 0x00020015;
  FREERDP_ERROR_CONNECT_ACCESS_DENIED := 0x00020016;
  FREERDP_ERROR_CONNECT_ACCOUNT_RESTRICTION := 0x00020017;
  FREERDP_ERROR_CONNECT_ACCOUNT_EXPIRED := 0x00020019;
  FREERDP_ERROR_CONNECT_LOGON_TYPE_NOT_GRANTED := 0x0002001A;
  FREERDP_ERROR_CONNECT_NO_OR_MISSING_CREDENTIALS := 0x0002001B;
|}.

(** *** Machine integers *)

(** An [int] (or [INT32]) result, reduced to 32-bit two's complement. *)
Definition wrap_int32 (z : Z) : Z := (z + 2 ^ 31) `mod` 2 ^ 32 - 2 ^ 31.

Definition INT32_MAX : Z := 2 ^ 31 - 1.

(** *** Kernel events (WinPR's [synch.h]) *)

(** Modelled from the spec: WinPR's event API ([CreateEventA], [SetEvent],
    [ResetEvent], [WaitForMultipleObjects]) is not part of the sources.  The
    spec treats an event as a signal that is either signaled or not, set and
    cleared explicitly, and a wait as returning for "whichever happens first"
    of its handles; the model below is that, with the Win32 return codes. *)
Record event := {
  manual_reset : bool;
  signaled : bool;
}.

Definition HANDLE := option nat.

Definition WAIT_OBJECT_0 : DWORD := 0.
Definition WAIT_FAILED : DWORD := 0xFFFFFFFF.

Definition set_signaled (b : bool) (e : event) : event :=
  {| manual_reset := manual_reset e; signaled := b |}.

(** The event a handle names, if it names one. *)
Definition event_of (h : HANDLE) (evs : list event) : option event :=
  match h with
  | Some i => evs !! i
  | None => None
  end.

(** Index of the first signaled handle of a wait set. *)
Fixpoint first_signaled (handles : list HANDLE) (evs : list event) (i : nat) : option nat :=
  match handles with
  | [] => None
  | h :: handles =>
      match event_of h evs with
      | Some e => if signaled e then Some i else first_signaled handles evs (S i)
      | None => first_signaled handles evs (S i)
      end
  end.

(** *** Settings, GDI, toolkit and client context *)

(** The OS identifiers sent to the server, by name (their numbers are in a
    header that is not part of the sources, and nothing below depends on
    them). *)
Inductive os_major_type := OSMAJORTYPE_UNSPECIFIED | OSMAJORTYPE_UNIX.
Inductive os_minor_type := OSMINORTYPE_UNSPECIFIED | OSMINORTYPE_NATIVE_SDL.

(** The fields of [rdpSettings] the front-end reads or writes. *)
Record rdpSettings := {
  AuthenticationOnly : bool;
  SmartSizing : bool;
  DynamicResolutionUpdate : bool;
  Fullscreen : bool;
  UseMultimon : bool;
  DeactivateClientDecoding : bool;
  Password : option string;
  DesktopWidth : Z;
  DesktopHeight : Z;
  OsMajorType : os_major_type;
  OsMinorType : os_minor_type;
}.

(** [GDI_RGN]: an invalid rectangle of the framebuffer. *)
Record GDI_RGN := {
  rgn_x : Z;
  rgn_y : Z;
  rgn_w : Z;
  rgn_h : Z;
}.

(** [rdpGdi], with [gdi->primary->hdc->hwnd] flattened:
    [invalid_null] is [hwnd->invalid->null]. *)
Record rdpGdi := {
  gdi_width : Z;
  gdi_height : Z;
  suppressOutput : bool;
  invalid_null : bool;
  ninvalid : Z;
  cinvalid : list GDI_RGN;
}.

Record SDL_Rect := {
  rect_x : Z;
  rect_y : Z;
  rect_w : Z;
  rect_h : Z;
}.

(** A window of the toolkit. *)
Record SDL_Window := {
  win_w : Z;
  win_h : Z;
  win_flags : Z;
}.

Definition SDL_WindowP := option nat.

(** [SDL_WindowFlags] of SDL2's [SDL_video.h]. *)
Definition SDL_WINDOW_FULLSCREEN : Z := 0x00000001.
Definition SDL_WINDOW_SHOWN : Z := 0x00000004.
Definition SDL_WINDOW_RESIZABLE : Z := 0x00000020.
Definition SDL_WINDOW_ALLOW_HIGHDPI : Z := 0x00002000.

(** [sdl_window_t]. *)
Record sdl_window_t := {
  window : SDL_WindowP;
  offset_x : Z;
  offset_y : Z;
}.

(** [const sdl_window_t empty = { 0 };] *)
Definition sdl_window_empty : sdl_window_t :=
  {| window := None; offset_x := 0; offset_y := 0 |}.

(** The commands that cross to the UI thread as SDL user events (pointer
    events, which no operation below sends, are left out). *)
Inductive SDL_Event :=
  | SDL_USEREVENT_UPDATE
  | SDL_USEREVENT_CREATE_WINDOWS
  | SDL_USEREVENT_WINDOW_RESIZEABLE (window : SDL_WindowP) (use : bool)
  | SDL_USEREVENT_WINDOW_FULLSCREEN (window : SDL_WindowP) (enter : bool).

(** Calls on the toolkit's surfaces, in the order they are made. *)
Inductive draw_op :=
  | SDL_SetClipRect_primary (rect : SDL_Rect)
  | SDL_SetClipRect_screen (screen : SDL_WindowP) (rect : SDL_Rect)
  | SDL_BlitSurface (screen : SDL_WindowP) (srcRect dstRect : SDL_Rect)
  | SDL_BlitScaled (screen : SDL_WindowP) (srcRect dstRect : SDL_Rect)
  | SDL_UpdateWindowSurface (window : SDL_WindowP).

(** The listeners [PubSub_Subscribe...] registers. *)
Inductive event_handler :=
  | sdl_OnChannelConnectedEventHandler
  | sdl_OnChannelDisconnectedEventHandler.

Record wPubSub := {
  ChannelConnected : list event_handler;
  ChannelDisconnected : list event_handler;
}.

(** [struct sdl_context] (the fields the modelled functions use). *)
Record sdlContext := {
  fullscreen : bool;
  resizeable : bool;
  highDpi : bool;
  windowCount : nat;
  windows : list sdl_window_t;
  initialize : HANDLE;
  initialized : HANDLE;
  update_complete : HANDLE;
  windows_created : HANDLE;
}.

(** Everything the two threads share: the kernel's events, the protocol
    engine's context, the client context and the toolkit. *)
Record world := {
  events : list event;            (* kernel event objects; a HANDLE indexes them *)
  event_limit : nat;              (* how many the kernel can hold *)
  abort_event : HANDLE;           (* freerdp_abort_event(context) *)
  settings : rdpSettings;         (* context->settings *)
  gdi : rdpGdi;                   (* context->gdi *)
  pubSub : wPubSub;               (* context->pubSub *)
  sdl : sdlContext;
  video_init : bool;              (* SDL_Init(SDL_INIT_VIDEO) done *)
  event_queue : list SDL_Event;   (* the toolkit's event queue, oldest first *)
  queue_limit : nat;              (* its capacity *)
  sdl_windows : list (option SDL_Window); (* toolkit windows; None once destroyed *)
  drawn : list draw_op;           (* surface calls made so far *)
}.

(** Field updates. *)
Definition with_events (v : list event) (w : world) : world :=
  {| events := v; event_limit := event_limit w; abort_event := abort_event w;
     settings := settings w; gdi := gdi w; pubSub := pubSub w; sdl := sdl w;
     video_init := video_init w; event_queue := event_queue w;
     queue_limit := queue_limit w; sdl_windows := sdl_windows w; drawn := drawn w |}.

Definition with_settings (v : rdpSettings) (w : world) : world :=
  {| events := events w; event_limit := event_limit w; abort_event := abort_event w;
     settings := v; gdi := gdi w; pubSub := pubSub w; sdl := sdl w;
     video_init := video_init w; event_queue := event_queue w;
     queue_limit := queue_limit w; sdl_windows := sdl_windows w; drawn := drawn w |}.

Definition with_gdi (v : rdpGdi) (w : world) : world :=
  {| events := events w; event_limit := event_limit w; abort_event := abort_event w;
     settings := settings w; gdi := v; pubSub := pubSub w; sdl := sdl w;
     video_init := video_init w; event_queue := event_queue w;
     queue_limit := queue_limit w; sdl_windows := sdl_windows w; drawn := drawn w |}.

Definition with_pubSub (v : wPubSub) (w : world) : world :=
  {| events := events w; event_limit := event_limit w; abort_event := abort_event w;
     settings := settings w; gdi := gdi w; pubSub := v; sdl := sdl w;
     video_init := video_init w; event_queue := event_queue w;
     queue_limit := queue_limit w; sdl_windows := sdl_windows w; drawn := drawn w |}.

Definition with_sdl (v : sdlContext) (w : world) : world :=
  {| events := events w; event_limit := event_limit w; abort_event := abort_event w;
     settings := settings w; gdi := gdi w; pubSub := pubSub w; sdl := v;
     video_init := video_init w; event_queue := event_queue w;
     queue_limit := queue_limit w; sdl_windows := sdl_windows w; drawn := drawn w |}.

Definition with_video_init (v : bool) (w : world) : world :=
  {| events := events w; event_limit := event_limit w; abort_event := abort_event w;
     settings := settings w; gdi := gdi w; pubSub := pubSub w; sdl := sdl w;
     video_init := v; event_queue := event_queue w;
     queue_limit := queue_limit w; sdl_windows := sdl_windows w; drawn := drawn w |}.

Definition with_event_queue (v : list SDL_Event) (w : world) : world :=
  {| events := events w; event_limit := event_limit w; abort_event := abort_event w;
     settings := settings w; gdi := gdi w; pubSub := pubSub w; sdl := sdl w;
     video_init := video_init w; event_queue := v;
     queue_limit := queue_limit w; sdl_windows := sdl_windows w; drawn := drawn w |}.

Definition with_sdl_windows (v : list (option SDL_Window)) (w : world) : world :=
  {| events := events w; event_limit := event_limit w; abort_event := abort_event w;
     settings := settings w; gdi := gdi w; pubSub := pubSub w; sdl := sdl w;
     video_init := video_init w; event_queue := event_queue w;
     queue_limit := queue_limit w; sdl_windows := v; drawn := drawn w |}.

Definition with_drawn (v : list draw_op) (w : world) : world :=
  {| events := events w; event_limit := event_limit w; abort_event := abort_event w;
     settings := settings w; gdi := gdi w; pubSub := pubSub w; sdl := sdl w;
     video_init := video_init w; event_queue := event_queue w;
     queue_limit := queue_limit w; sdl_windows := sdl_windows w; drawn := v |}.

Definition with_windows (v : list sdl_window_t) (c : sdlContext) : sdlContext :=
  {| fullscreen := fullscreen c; resizeable := resizeable c; highDpi := highDpi c;
     windowCount := windowCount c; windows := v;
     initialize := initialize c; initialized := initialized c;
     update_complete := update_complete c; windows_created := windows_created c |}.

Definition with_windowCount (v : nat) (c : sdlContext) : sdlContext :=
  {| fullscreen := fullscreen c; resizeable := resizeable c; highDpi := highDpi c;
     windowCount := v; windows := windows c;
     initialize := initialize c; initialized := initialized c;
     update_complete := update_complete c; windows_created := windows_created c |}.

Definition with_highDpi (v : bool) (c : sdlContext) : sdlContext :=
  {| fullscreen := fullscreen c; resizeable := resizeable c; highDpi := v;
     windowCount := windowCount c; windows := windows c;
     initialize := initialize c; initialized := initialized c;
     update_complete := update_complete c; windows_created := windows_created c |}.

Definition with_resizeable (v : bool) (c : sdlContext) : sdlContext :=
  {| fullscreen := fullscreen c; resizeable := v; highDpi := highDpi c;
     windowCount := windowCount c; windows := windows c;
     initialize := initialize c; initialized := initialized c;
     update_complete := update_complete c; windows_created := windows_created c |}.

Definition with_fullscreen (v : bool) (c : sdlContext) : sdlContext :=
  {| fullscreen := v; resizeable := resizeable c; highDpi := highDpi c;
     windowCount := windowCount c; windows := windows c;
     initialize := initialize c; initialized := initialized c;
     update_complete := update_complete c; windows_created := windows_created c |}.

Definition with_handles (i i' u c' : HANDLE) (c : sdlContext) : sdlContext :=
  {| fullscreen := fullscreen c; resizeable := resizeable c; highDpi := highDpi c;
     windowCount := windowCount c; windows := windows c;
     initialize := i; initialized := i'; update_complete := u; windows_created := c' |}.

(** The result of code that may wait: still waiting in state [w], or returned. *)
Inductive outcome (A : Type) :=
  | Blocked (w : world)
  | Returned (a : A) (w : world).
Arguments Blocked {A} w.
Arguments Returned {A} a w.

(** Modelled from the spec: [CreateEventA(NULL, bManualReset, bInitialState,
    NULL)] (WinPR, not part of the sources) makes a new event in the given
    state, or returns [NULL] when the kernel can hold no more. *)
Definition CreateEventA (bManualReset bInitialState : bool) (w : world) : HANDLE * world :=
  if (length (events w) <? event_limit w)%nat then
    (Some (length (events w)),
     with_events (events w ++ [{| manual_reset := bManualReset;
                                  signaled := bInitialState |}]) w)
  else (None, w).

(** Modelled from the spec: [SetEvent] (WinPR) signals the event of a valid
    handle and fails on any other. *)
Definition SetEvent (h : HANDLE) (w : world) : bool * world :=
  match h with
  | Some i =>
      match events w !! i with
      | Some e => (true, with_events (<[i := set_signaled true e]> (events w)) w)
      | None => (false, w)
      end
  | None => (false, w)
  end.

(** Modelled from the spec: [ResetEvent] (WinPR) clears the event of a valid
    handle and fails on any other. *)
Definition ResetEvent (h : HANDLE) (w : world) : bool * world :=
  match h with
  | Some i =>
      match events w !! i with
      | Some e => (true, with_events (<[i := set_signaled false e]> (events w)) w)
      | None => (false, w)
      end
  | None => (false, w)
  end.

(** Whether the event behind [h] is signaled; [None] when [h] names no event. *)
Definition signaled_at (h : HANDLE) (w : world) : option bool :=
  signaled <$> event_of h (events w).

(** A satisfied wait clears an auto-reset event and leaves a manual-reset one. *)
Definition wait_satisfied (h : HANDLE) (w : world) : world :=
  match h, event_of h (events w) with
  | Some i, Some e =>
      if manual_reset e then w
      else with_events (<[i := set_signaled false e]> (events w)) w
  | _, _ => w
  end.

(** Modelled from the spec: [WaitForMultipleObjects(ARRAYSIZE(handles),
    handles, FALSE, INFINITE)] (WinPR), the wait for "whichever happens first":
    [None] while no handle is signaled (the caller stays blocked),
    [WAIT_OBJECT_0 + i] for the first signaled handle, [WAIT_FAILED] when a
    handle names no object. *)
Definition WaitForMultipleObjects (handles : list HANDLE) (w : world)
  : option (DWORD * world) :=
  if forallb (fun h => bool_decide (is_Some (event_of h (events w)))) handles then
    match first_signaled handles (events w) 0 with
    | Some i => Some (WAIT_OBJECT_0 + Z.of_nat i,
                      wait_satisfied (default None (handles !! i)) w)
    | None => None
    end
  else Some (WAIT_FAILED, w).

(** *** The command channel and the toolkit *)

(** Modelled from the spec: [sdl_push_user_event] ([sdl_utils.c]) is not part
    of the sources.  Spec 4.3: enqueue is non-blocking, keeps FIFO order and
    fails only when the queue's resources are exhausted. *)
Definition sdl_push_user_event (ev : SDL_Event) (w : world) : bool * world :=
  if (length (event_queue w) <? queue_limit w)%nat then
    (true, with_event_queue (event_queue w ++ [ev]) w)
  else (false, w).

(** The toolkit (SDL2) is outside the repository; its calls are modelled as
    the capabilities spec 6 lists.  [SDL_PollEvent]: the oldest queued event,
    removed from the queue. *)
Definition SDL_PollEvent (w : world) : option (SDL_Event * world) :=
  match event_queue w with
  | ev :: q => Some (ev, with_event_queue q w)
  | [] => None
  end.

Definition window_of (win : SDL_WindowP) (w : world) : option SDL_Window :=
  match win with
  | Some i => mjoin (sdl_windows w !! i)
  | None => None
  end.

(** [SDL_GetWindowSize(window, &w, &h)].  For a pointer that names no window
    the C variables stay unset; the model reads them as 0. *)
Definition SDL_GetWindowSize (win : SDL_WindowP) (w : world) : Z * Z :=
  match window_of win w with
  | Some sw => (win_w sw, win_h sw)
  | None => (0, 0)
  end.

(** [SDL_GetWindowID]: ids start at 1, 0 is no window. *)
Definition SDL_GetWindowID (win : SDL_WindowP) (w : world) : nat :=
  match win, window_of win w with
  | Some i, Some _ => S i
  | _, _ => O
  end.

(** [SDL_CreateWindow(title, x, y, w, h, flags)]: [NULL] unless the video
    subsystem is initialised. *)
Definition SDL_CreateWindow (width height flags : Z) (w : world) : SDL_WindowP * world :=
  if video_init w then
    (Some (length (sdl_windows w)),
     with_sdl_windows
       (sdl_windows w ++ [Some {| win_w := width; win_h := height; win_flags := flags |}]) w)
  else (None, w).

Definition SDL_DestroyWindow (win : SDL_WindowP) (w : world) : world :=
  match win with
  | Some i => with_sdl_windows (<[i := None]> (sdl_windows w)) w
  | None => w
  end.

Definition set_win_flags (flags : Z) (sw : SDL_Window) : SDL_Window :=
  {| win_w := win_w sw; win_h := win_h sw; win_flags := flags |}.

Definition SDL_GetWindowFlags (win : SDL_WindowP) (w : world) : Z :=
  match window_of win w with
  | Some sw => win_flags sw
  | None => 0
  end.

Definition update_window (win : SDL_WindowP) (f : SDL_Window -> SDL_Window) (w : world)
  : world :=
  match win, window_of win w with
  | Some i, Some sw => with_sdl_windows (<[i := Some (f sw)]> (sdl_windows w)) w
  | _, _ => w
  end.

(** [SDL_SetWindowResizable(window, resizable)]: the resizable state of a
    fullscreen window cannot be changed (SDL_video.h); on any other window
    the flag is set or cleared. *)
Definition SDL_SetWindowResizable (win : SDL_WindowP) (resizable : bool) (w : world)
  : world :=
  update_window win
    (fun sw =>
       if negb (Z.land (win_flags sw) SDL_WINDOW_FULLSCREEN =? 0) then sw
       else set_win_flags
              (if resizable then Z.lor (win_flags sw) SDL_WINDOW_RESIZABLE
               else Z.ldiff (win_flags sw) SDL_WINDOW_RESIZABLE) sw) w.

(** [SDL_SetWindowFullscreen(window, flags)]: the window's fullscreen bit
    becomes that of [flags]. *)
Definition SDL_SetWindowFullscreen (win : SDL_WindowP) (flags : Z) (w : world) : world :=
  update_window win
    (fun sw => set_win_flags
                 (Z.lor (Z.ldiff (win_flags sw) SDL_WINDOW_FULLSCREEN)
                        (Z.land flags SDL_WINDOW_FULLSCREEN)) sw) w.

(** [&sdl->windows[x]], read. *)
Definition window_at (x : nat) (w : world) : sdl_window_t :=
  default sdl_window_empty (windows (sdl w) !! x).

(** [sdl->windows[x] = v]. *)
Definition set_window_at (x : nat) (v : sdl_window_t) (w : world) : world :=
  with_sdl (with_windows (<[x := v]> (windows (sdl w))) (sdl w)) w.

(** *** The coordinate scaler *)

(** Modelled from the spec: [sdl_scale_coordinates] ([sdl_utils.c]) is not
    part of the sources.  Spec 4.5: a pure function
    [scale(windowId, x, y, inverse, scaleSize)] that maps a framebuffer-space
    coordinate or size to window space, or back when [inverse] is set, using
    the ratio of the current window size to the framebuffer size on each axis,
    with integer rounding.  The spec does not say which rounding: the scaler
    of one axis is a parameter, a function of the direction, the window size,
    the framebuffer size and the value. *)
Definition axis_scaler := bool -> Z -> Z -> Z -> Z.

(** Modelled from the spec: what spec 4.5 asks of the scaler of one axis.
    Its result is the exact ratio rounded to an integer, in whatever way: it
    differs from [v * windowSize / framebufferSize] (forward) or from
    [v * framebufferSize / windowSize] (inverse) by less than 1. *)
Definition ratio_rounding (scale : axis_scaler) : Prop :=
  forall windowSize framebufferSize v : Z,
    0 < windowSize -> 0 < framebufferSize ->
    Z.abs (scale false windowSize framebufferSize v * framebufferSize - v * windowSize)
      < framebufferSize /\
    Z.abs (scale true windowSize framebufferSize v * windowSize - v * framebufferSize)
      < windowSize.

(** Modelled from the spec: the scaler that truncates toward zero, as a C
    cast to [int] does. *)
Definition scale_axis (inverse : bool) (windowSize framebufferSize v : Z) : Z :=
  if inverse then (v * framebufferSize) `quot` windowSize
  else (v * windowSize) `quot` framebufferSize.

(** Modelled from the spec: the scaler that rounds down. *)
Definition scale_axis_floor (inverse : bool) (windowSize framebufferSize v : Z) : Z :=
  if inverse then (v * framebufferSize) `div` windowSize
  else (v * windowSize) `div` framebufferSize.

(** Modelled from the spec: the scaler that rounds to nearest. *)
Definition scale_axis_nearest (inverse : bool) (windowSize framebufferSize v : Z) : Z :=
  if inverse then (2 * (v * framebufferSize) + windowSize) `div` (2 * windowSize)
  else (2 * (v * windowSize) + framebufferSize) `div` (2 * framebufferSize).

(** The window of the session whose toolkit id is [windowId]. *)
Fixpoint find_window (windowId : nat) (xs : list nat) (w : world) : option sdl_window_t :=
  match xs with
  | [] => None
  | x :: xs =>
      if (SDL_GetWindowID (window (window_at x w)) w =? windowId)%nat
      then Some (window_at x w)
      else find_window windowId xs w
  end.

(** Modelled from the spec: the scaler itself, over the rounding [scale].
    The spec names no effect of [scaleSize] on the ratio, and gives no ratio
    for an id that names no window: the coordinates are then returned as they
    are. *)
Definition sdl_scale_coordinates_with (scale : axis_scaler) (w : world) (windowId : nat)
    (x y : Z) (inverse scaleSize : bool) : bool * (Z * Z) :=
  match find_window windowId (seq 0 (windowCount (sdl w))) w with
  | Some win =>
      let '(ww, wh) := SDL_GetWindowSize (window win) w in
      (true, (scale inverse ww (gdi_width (gdi w)) x,
              scale inverse wh (gdi_height (gdi w)) y))
  | None => (true, (x, y))
  end.

(** Modelled from the spec: the scaler the compositor calls; its values are
    those of truncation, and no property of the compositor depends on
    them. *)
Definition sdl_scale_coordinates (w : world) (windowId : nat) (x y : Z)
    (inverse scaleSize : bool) : bool * (Z * Z) :=
  sdl_scale_coordinates_with scale_axis w windowId x y inverse scaleSize.

(** *** Session construction and the frame gate *)

(** [sdl_client_new], for an instance and a context that are not [NULL]: the
    four events of the session.  (The callback slots it fills and the logger
    hold no state of the model.) *)
Definition sdl_client_new (w : world) : bool * world :=
  let '(initialize, w) := CreateEventA true false w in
  let '(initialized, w) := CreateEventA true false w in
  let '(update_complete, w) := CreateEventA true true w in
  let '(windows_created, w) := CreateEventA true false w in
  let w := with_sdl (with_handles initialize initialized update_complete
                                  windows_created (sdl w)) w in
  (bool_decide (is_Some initialize) && bool_decide (is_Some initialized)
   && bool_decide (is_Some update_complete) && bool_decide (is_Some windows_created), w).

Definition reset_invalid (g : rdpGdi) : rdpGdi :=
  {| gdi_width := gdi_width g; gdi_height := gdi_height g;
     suppressOutput := suppressOutput g;
     invalid_null := true; ninvalid := 0; cinvalid := cinvalid g |}.

(** [sdl_begin_paint], from the point where [WaitForMultipleObjects] has
    returned [status]. *)
Definition sdl_begin_paint_after_wait (status : DWORD) (w : world) : bool * world :=
  if status =? WAIT_OBJECT_0 then
    let '(ok, w) := ResetEvent (update_complete (sdl w)) w in
    if negb ok then (false, w)
    else (true, with_gdi (reset_invalid (gdi w)) w)
  else (false, w).

Definition sdl_begin_paint (w : world) : outcome bool :=
  let handles := [update_complete (sdl w); abort_event w] in
  match WaitForMultipleObjects handles w with
  | None => Blocked w
  | Some (status, w) =>
      let '(rc, w) := sdl_begin_paint_after_wait status w in Returned rc w
  end.

(** [sdl_end_paint]: hands the frame to the UI thread. *)
Definition sdl_end_paint (w : world) : bool * world :=
  let '(ok, w) := sdl_push_user_event SDL_USEREVENT_UPDATE w in
  if negb ok then (false, w) else (true, w).

(** *** The frame compositor *)

Definition rect_of_rgn (rgn : GDI_RGN) : SDL_Rect :=
  {| rect_x := rgn_x rgn; rect_y := rgn_y rgn; rect_w := rgn_w rgn; rect_h := rgn_h rgn |}.

(** [cinvalid[i]]; the array holds [ninvalid] regions, past its end the model
    reads an empty one. *)
Definition rgn_at (cinvalid : list GDI_RGN) (i : nat) : GDI_RGN :=
  default {| rgn_x := 0; rgn_y := 0; rgn_w := 0; rgn_h := 0 |} (cinvalid !! i).

(** One turn of the unscaled copy loop of [sdl_end_paint_process]. *)
Definition blit_region (x : nat) (cinvalid : list GDI_RGN) (w : world) (i : nat) : world :=
  let window_ := window_at x w in
  let screen := window window_ in
  let rgn := rgn_at cinvalid i in
  let srcRect := rect_of_rgn rgn in
  let dstRect := {| rect_x := wrap_int32 (offset_x window_ + rgn_x rgn);
                    rect_y := wrap_int32 (offset_y window_ + rgn_y rgn);
                    rect_w := rgn_w rgn; rect_h := rgn_h rgn |} in
  with_drawn (drawn w ++ [SDL_SetClipRect_primary srcRect;
                          SDL_BlitSurface screen srcRect dstRect]) w.

(** One turn of the scaled copy loop. *)
Definition blit_region_scaled (x : nat) (id : nat) (cinvalid : list GDI_RGN)
    (w : world) (i : nat) : world :=
  let screen := window (window_at x w) in
  let rgn := rgn_at cinvalid i in
  let srcRect := rect_of_rgn rgn in
  let '(_, (dx, dy)) := sdl_scale_coordinates w id (rect_x srcRect) (rect_y srcRect)
                                               false true in
  let '(_, (dw, dh)) := sdl_scale_coordinates w id (rect_w srcRect) (rect_h srcRect)
                                               false true in
  let dstRect := {| rect_x := dx; rect_y := dy; rect_w := dw; rect_h := dh |} in
  with_drawn (drawn w ++ [SDL_SetClipRect_primary srcRect;
                          SDL_SetClipRect_screen screen dstRect;
                          SDL_BlitScaled screen srcRect dstRect]) w.

(** The body of [for (size_t x = 0; x < sdl->windowCount; x++)] in
    [sdl_end_paint_process]. *)
Definition paint_window (ninvalid : Z) (cinvalid : list GDI_RGN) (w : world) (x : nat)
  : world :=
  let win := window (window_at x w) in
  let '(w_, h_) := SDL_GetWindowSize win w in
  let w := set_window_at x {| window := win; offset_x := 0; offset_y := 0 |} w in
  let w :=
    if negb (SmartSizing (settings w)) then
      let w :=
        if gdi_width (gdi w) <? w_ then
          set_window_at x
            {| window := win;
               offset_x := wrap_int32 (wrap_int32 (w_ - gdi_width (gdi w)) `quot` 2);
               offset_y := offset_y (window_at x w) |} w
        else w in
      let w :=
        if gdi_height (gdi w) <? h_ then
          set_window_at x
            {| window := win;
               offset_x := offset_x (window_at x w);
               offset_y := wrap_int32 (wrap_int32 (h_ - gdi_height (gdi w)) `quot` 2) |} w
        else w in
      foldl (blit_region x cinvalid) w (seq 0 (Z.to_nat ninvalid))
    else
      let id := SDL_GetWindowID win w in
      foldl (blit_region_scaled x id cinvalid) w (seq 0 (Z.to_nat ninvalid)) in
  with_drawn (drawn w ++ [SDL_UpdateWindowSurface win]) w.

(** [sdl_end_paint_process]: the compositing pass, run on the UI thread. *)
Definition sdl_end_paint_process (w : world) : bool * world :=
  let w :=
    if suppressOutput (gdi w) || invalid_null (gdi w) then w
    else
      let ninvalid := ninvalid (gdi w) in
      let cinvalid := cinvalid (gdi w) in
      if ninvalid <? 1 then w
      else foldl (paint_window ninvalid cinvalid) w (seq 0 (windowCount (sdl w))) in
  (* out: *)
  SetEvent (update_complete (sdl w)) w.

(** *** The start-up handshake *)

(** The wait [sdl_wait_for_init] and [sdl_wait_create_windows] both end in:
    on [{ sdl->initialized, abort }], [TRUE] only for [WAIT_OBJECT_0]. *)
Definition wait_initialized (w : world) : outcome bool :=
  let handles := [initialized (sdl w); abort_event w] in
  match WaitForMultipleObjects handles w with
  | None => Blocked w
  | Some (rc, w) => if rc =? WAIT_OBJECT_0 then Returned true w else Returned false w
  end.

Definition sdl_wait_for_init (w : world) : outcome bool :=
  let '(ok, w) := SetEvent (initialize (sdl w)) w in
  if negb ok then Returned false w
  else wait_initialized w.

(** Modelled from the spec: the channel listeners of the protocol engine's
    [pubSub] (not part of the sources) are kept as lists; subscribing appends. *)
Definition PubSub_SubscribeChannelConnected (h : event_handler) (w : world) : world :=
  with_pubSub {| ChannelConnected := ChannelConnected (pubSub w) ++ [h];
                 ChannelDisconnected := ChannelDisconnected (pubSub w) |} w.

Definition PubSub_SubscribeChannelDisconnected (h : event_handler) (w : world) : world :=
  with_pubSub {| ChannelConnected := ChannelConnected (pubSub w);
                 ChannelDisconnected := ChannelDisconnected (pubSub w) ++ [h] |} w.

Definition set_os_type (major : os_major_type) (minor : os_minor_type) (s : rdpSettings)
  : rdpSettings :=
  {| AuthenticationOnly := AuthenticationOnly s; SmartSizing := SmartSizing s;
     DynamicResolutionUpdate := DynamicResolutionUpdate s;
     Fullscreen := Fullscreen s; UseMultimon := UseMultimon s;
     DeactivateClientDecoding := DeactivateClientDecoding s;
     Password := Password s;
     DesktopWidth := DesktopWidth s; DesktopHeight := DesktopHeight s;
     OsMajorType := major; OsMinorType := minor |}.

Definition set_desktop_size (width height : Z) (s : rdpSettings) : rdpSettings :=
  {| AuthenticationOnly := AuthenticationOnly s; SmartSizing := SmartSizing s;
     DynamicResolutionUpdate := DynamicResolutionUpdate s;
     Fullscreen := Fullscreen s; UseMultimon := UseMultimon s;
     DeactivateClientDecoding := DeactivateClientDecoding s;
     Password := Password s;
     DesktopWidth := width; DesktopHeight := height;
     OsMajorType := OsMajorType s; OsMinorType := OsMinorType s |}.

(** [freerdp_settings_set_bool(settings, FreeRDP_DeactivateClientDecoding, v)]. *)
Definition set_DeactivateClientDecoding (v : bool) (s : rdpSettings) : bool * rdpSettings :=
  (true,
   {| AuthenticationOnly := AuthenticationOnly s; SmartSizing := SmartSizing s;
      DynamicResolutionUpdate := DynamicResolutionUpdate s;
      Fullscreen := Fullscreen s; UseMultimon := UseMultimon s;
      DeactivateClientDecoding := v;
      Password := Password s;
      DesktopWidth := DesktopWidth s; DesktopHeight := DesktopHeight s;
      OsMajorType := OsMajorType s; OsMinorType := OsMinorType s |}).

Section pre_connect.

(** [sdl_detect_monitors(sdl, &maxWidth, &maxHeight)] ([sdl_monitor.c]) is
    not part of the sources: it is a parameter, giving its result, the two
    sizes and the state it leaves. *)
Variable sdl_detect_monitors : world -> bool * (Z * Z) * world.

(** [sdl_pre_connect] (logging left out). *)
Definition sdl_pre_connect (w : world) : outcome bool :=
  let w := with_sdl (with_highDpi true (sdl w)) w in
  let w := with_settings (set_os_type OSMAJORTYPE_UNIX OSMINORTYPE_NATIVE_SDL (settings w)) w in
  let w := PubSub_SubscribeChannelConnected sdl_OnChannelConnectedEventHandler w in
  let w := PubSub_SubscribeChannelDisconnected sdl_OnChannelDisconnectedEventHandler w in
  if negb (AuthenticationOnly (settings w)) then
    match sdl_wait_for_init w with
    | Blocked w => Blocked w
    | Returned false w => Returned false w
    | Returned true w =>
        let '(ok, (maxWidth, maxHeight), w) := sdl_detect_monitors w in
        if negb ok then Returned false w
        else if negb (maxWidth =? 0) && negb (maxHeight =? 0)
                && negb (SmartSizing (settings w)) then
          Returned true (with_settings (set_desktop_size maxWidth maxHeight (settings w)) w)
        else Returned true w
    end
  else
    (* Check +auth-only has a username and password. *)
    match Password (settings w) with
    | None => Returned false w
    | Some _ =>
        let '(ok, s) := set_DeactivateClientDecoding true (settings w) in
        if negb ok then Returned false w
        else Returned true (with_settings s w)
    end.

End pre_connect.

(** *** Window creation and the window flags *)

(** The flags [sdl_create_windows] asks for (SDL is 2.0.1 or later). *)
Definition create_window_flags (w : world) : Z :=
  let flags := SDL_WINDOW_SHOWN in
  let flags := if highDpi (sdl w) then Z.lor flags SDL_WINDOW_ALLOW_HIGHDPI else flags in
  if Fullscreen (settings w) || UseMultimon (settings w)
  then Z.lor flags SDL_WINDOW_FULLSCREEN else flags.

(** The loop of [sdl_create_windows]; [false] is the [goto fail]. *)
Fixpoint sdl_create_windows_loop (width height : Z) (xs : list nat) (w : world)
  : bool * world :=
  match xs with
  | [] => (true, w)
  | x :: xs =>
      let flags := create_window_flags w in
      let '(win, w) := SDL_CreateWindow (wrap_int32 width) (wrap_int32 height) flags w in
      let w := set_window_at x {| window := win;
                                  offset_x := offset_x (window_at x w);
                                  offset_y := offset_y (window_at x w) |} w in
      match win with
      | None => (false, w)
      | Some _ => sdl_create_windows_loop width height xs w
      end
  end.

(** [sdl_create_windows], run on the UI thread (the window title, which no
    state of the model depends on, is left out). *)
Definition sdl_create_windows (w : world) : bool * world :=
  (* TODO: Multimonitor setup *)
  let w := with_sdl (with_windowCount 1 (sdl w)) w in
  let width := DesktopWidth (settings w) in
  let height := DesktopHeight (settings w) in
  let '(rc, w) :=
    sdl_create_windows_loop width height (seq 0 (windowCount (sdl w))) w in
  (* fail: *)
  let '(ok, w) := SetEvent (windows_created (sdl w)) w in
  if negb ok then (false, w) else (rc, w).

Definition sdl_wait_create_windows (w : world) : outcome bool :=
  let '(ok, w) := ResetEvent (windows_created (sdl w)) w in
  if negb ok then Returned false w
  else
    let '(ok, w) := sdl_push_user_event SDL_USEREVENT_CREATE_WINDOWS w in
    if negb ok then Returned false w
    else wait_initialized w.

(** The loop of [update_resizeable]: one command per window, given up at the
    first that cannot be enqueued. *)
Fixpoint update_resizeable_loop (use : bool) (xs : list nat) (w : world) : bool * world :=
  match xs with
  | [] => (true, w)
  | x :: xs =>
      let window_ := window_at x w in
      let '(ok, w) :=
        sdl_push_user_event (SDL_USEREVENT_WINDOW_RESIZEABLE (window window_) use) w in
      if negb ok then (false, w)
      else update_resizeable_loop use xs w
  end.

Definition update_resizeable (w : world) (enable : bool) : bool * world :=
  let dyn := DynamicResolutionUpdate (settings w) in
  let smart := SmartSizing (settings w) in
  let use := (dyn && enable) || smart in
  let '(ok, w) := update_resizeable_loop use (seq 0 (windowCount (sdl w))) w in
  if negb ok then (false, w)
  else (true, with_sdl (with_resizeable use (sdl w)) w).

Fixpoint update_fullscreen_loop (enter : bool) (xs : list nat) (w : world) : bool * world :=
  match xs with
  | [] => (true, w)
  | x :: xs =>
      let window_ := window_at x w in
      let '(ok, w) :=
        sdl_push_user_event (SDL_USEREVENT_WINDOW_FULLSCREEN (window window_) enter) w in
      if negb ok then (false, w)
      else update_fullscreen_loop enter xs w
  end.

Definition update_fullscreen (w : world) (enter : bool) : bool * world :=
  let '(ok, w) := update_fullscreen_loop enter (seq 0 (windowCount (sdl w))) w in
  if negb ok then (false, w)
  else (true, with_sdl (with_fullscreen enter (sdl w)) w).

(** *** The UI thread *)

(** [sdl_cleanup_sdl] (the primary surface is not part of the model). *)
Definition sdl_cleanup_sdl (w : world) : world :=
  let w := foldl (fun w x =>
                    let w := SDL_DestroyWindow (window (window_at x w)) w in
                    set_window_at x sdl_window_empty w)
                 w (seq 0 (windowCount (sdl w))) in
  let w := with_sdl (with_windowCount 0 (sdl w)) w in
  (* SDL_Quit *)
  with_video_init false w.

(** [sdl_run] up to its event loop: [Returned (Some rc)] when it returns [rc]
    before the loop, [Returned None] when it enters the loop. *)
Definition sdl_run_enter (w : world) : outcome (option Z) :=
  let handles := [initialize (sdl w); abort_event w] in
  match WaitForMultipleObjects handles w with
  | None => Blocked w
  | Some (status, w) =>
      if status =? WAIT_OBJECT_0 then
        (* SDL_Init(SDL_INIT_VIDEO) *)
        let w := with_video_init true w in
        let '(ok, w) := SetEvent (initialized (sdl w)) w in
        if negb ok then Returned (Some (-1)) (sdl_cleanup_sdl w)
        else Returned None w
      else Returned (Some (-1)) w
  end.

(** The [switch (windowEvent.type)] of [sdl_run], for the commands of the
    model. *)
Definition sdl_run_dispatch (windowEvent : SDL_Event) (w : world) : world :=
  match windowEvent with
  | SDL_USEREVENT_UPDATE => snd (sdl_end_paint_process w)
  | SDL_USEREVENT_CREATE_WINDOWS => snd (sdl_create_windows w)
  | SDL_USEREVENT_WINDOW_RESIZEABLE window_ use => SDL_SetWindowResizable window_ use w
  | SDL_USEREVENT_WINDOW_FULLSCREEN window_ enter =>
      let curFlags := SDL_GetWindowFlags window_ w in
      let isSet := negb (Z.land curFlags SDL_WINDOW_FULLSCREEN =? 0) in
      let curFlags := if enter then Z.lor curFlags SDL_WINDOW_FULLSCREEN
                      else Z.ldiff curFlags SDL_WINDOW_FULLSCREEN in
      if (enter && negb isSet) || (negb enter && isSet)
      then SDL_SetWindowFullscreen window_ curFlags w
      else w
  end.

(** Modelled from the spec: [freerdp_shall_disconnect_context] (the protocol
    engine, not part of the sources) tells whether the abort signal is set. *)
Definition freerdp_shall_disconnect_context (w : world) : bool :=
  default false (signaled_at (abort_event w) w).

(** One turn of the inner loop of [sdl_run]: [None] when the loop is left,
    otherwise the state after the next queued event (if any) is handled. *)
Definition sdl_run_poll (w : world) : option world :=
  if freerdp_shall_disconnect_context w then None
  else
    match SDL_PollEvent w with
    | Some (windowEvent, w) => Some (sdl_run_dispatch windowEvent w)
    | None => Some w
    end.

(** *** The compositor as the spec describes it *)

(** Spec 4.4, step 1: the centering offset on one axis. *)
Definition centering_offset (windowSize framebufferSize : Z) : Z :=
  if framebufferSize <? windowSize then (windowSize - framebufferSize) `div` 2 else 0.

Definition translate_rect (dx dy : Z) (r : SDL_Rect) : SDL_Rect :=
  {| rect_x := rect_x r + dx; rect_y := rect_y r + dy;
     rect_w := rect_w r; rect_h := rect_h r |}.

(** Spec 4.4, steps 1 and 3 for one window: every invalid rectangle is copied
    unscaled to its translate by the offset, then the window is presented. *)
Definition unscaled_copies (screen : SDL_WindowP) (dx dy : Z) (invalid : list GDI_RGN)
  : list draw_op :=
  flat_map (fun rgn => [SDL_SetClipRect_primary (rect_of_rgn rgn);
                        SDL_BlitSurface screen (rect_of_rgn rgn)
                                        (translate_rect dx dy (rect_of_rgn rgn))])
           invalid
  ++ [SDL_UpdateWindowSurface screen].

(** The invalid rectangles of the frame: the first [ninvalid] of [cinvalid]. *)
Definition invalid_regions (w : world) : list GDI_RGN :=
  take (Z.to_nat (ninvalid (gdi w))) (cinvalid (gdi w)).

Definition window_offset_x (w : world) (x : nat) : Z :=
  centering_offset (fst (SDL_GetWindowSize (window (window_at x w)) w)) (gdi_width (gdi w)).

Definition window_offset_y (w : world) (x : nat) : Z :=
  centering_offset (snd (SDL_GetWindowSize (window (window_at x w)) w)) (gdi_height (gdi w)).

Definition window_copies (w : world) (x : nat) : list draw_op :=
  unscaled_copies (window (window_at x w)) (window_offset_x w x) (window_offset_y w x)
                  (invalid_regions w).

(** The geometry the compositor is run on: a framebuffer and windows whose
    sizes are [int]s, one toolkit window behind each of the [windowCount]
    entries of [sdl->windows], and [ninvalid] rectangles inside the
    framebuffer. *)
Definition geometry_ok (w : world) : Prop :=
  0 <= gdi_width (gdi w) <= INT32_MAX /\ 0 <= gdi_height (gdi w) <= INT32_MAX /\
  (windowCount (sdl w) <= length (windows (sdl w)))%nat /\
  (forall x, (x < windowCount (sdl w))%nat ->
     exists sw, window_of (window (window_at x w)) w = Some sw /\
                0 <= win_w sw <= INT32_MAX /\ 0 <= win_h sw <= INT32_MAX) /\
  0 <= ninvalid (gdi w) <= Z.of_nat (length (cinvalid (gdi w))) /\
  Forall (fun rgn => 0 <= rgn_x rgn <= gdi_width (gdi w) /\
                     0 <= rgn_y rgn <= gdi_height (gdi w))
         (invalid_regions w).

(** Everything of a state but the surface calls and the window array. *)
Definition unpainted (w : world) : world :=
  with_drawn [] (with_sdl (with_windows [] (sdl w)) w).

(** *** Concrete states *)

Definition settings0 : rdpSettings :=
  {| AuthenticationOnly := false; SmartSizing := false;
     DynamicResolutionUpdate := false; Fullscreen := false; UseMultimon := false;
     DeactivateClientDecoding := false; Password := None;
     DesktopWidth := 1024; DesktopHeight := 768;
     OsMajorType := OSMAJORTYPE_UNSPECIFIED; OsMinorType := OSMINORTYPE_UNSPECIFIED |}.

Definition gdi0 : rdpGdi :=
  {| gdi_width := 1024; gdi_height := 768; suppressOutput := false;
     invalid_null := true; ninvalid := 0; cinvalid := [] |}.

(** A client context as [freerdp_client_context_new] hands it to
    [sdl_client_new]: zeroed (here with room for 16 windows), with the
    protocol engine's abort event (event 0) unset. *)
Definition world0 : world :=
  {| events := [{| manual_reset := true; signaled := false |}];
     event_limit := 64;
     abort_event := Some 0%nat;
     settings := settings0;
     gdi := gdi0;
     pubSub := {| ChannelConnected := []; ChannelDisconnected := [] |};
     sdl := {| fullscreen := false; resizeable := false; highDpi := false;
               windowCount := 0; windows := replicate 16 sdl_window_empty;
               initialize := None; initialized := None;
               update_complete := None; windows_created := None |};
     video_init := false;
     event_queue := [];
     queue_limit := 128;
     sdl_windows := [];
     drawn := [] |}.

(** The session [sdl_client_new] makes of it. *)
Definition session0 : world := snd (sdl_client_new world0).

(** The session with a frame begun (gate cleared) and the connection
    aborted. *)
Definition aborted0 : world :=
  snd (SetEvent (abort_event session0)
                (snd (ResetEvent (update_complete (sdl session0)) session0))).

(** The session once the UI thread has initialised the toolkit and created
    the window. *)
Definition windowed0 : world := snd (sdl_create_windows (with_video_init true session0)).

Definition frame_gdi : rdpGdi :=
  {| gdi_width := 1024; gdi_height := 768; suppressOutput := false;
     invalid_null := false; ninvalid := 2;
     cinvalid := [ {| rgn_x := 10; rgn_y := 20; rgn_w := 100; rgn_h := 50 |};
                   {| rgn_x := 0; rgn_y := 0; rgn_w := 1024; rgn_h := 768 |} ] |}.

(** A frame with two invalid rectangles, the window resized to 1280x768. *)
Definition frame_world : world :=
  with_gdi frame_gdi
    (with_sdl_windows [Some {| win_w := 1280; win_h := 768; win_flags := SDL_WINDOW_SHOWN |}]
                      windowed0).

(** The same session with a 1920x1080 framebuffer shown in a 640x480 window. *)
Definition downscaled_world : world :=
  with_gdi {| gdi_width := 1920; gdi_height := 1080; suppressOutput := false;
              invalid_null := true; ninvalid := 0; cinvalid := [] |}
    (with_sdl_windows [Some {| win_w := 640; win_h := 480; win_flags := SDL_WINDOW_SHOWN |}]
                      windowed0).

(** Authentication-only mode asked for, no password given. *)
Definition auth_only_world : world :=
  with_settings
    {| AuthenticationOnly := true; SmartSizing := false;
       DynamicResolutionUpdate := false; Fullscreen := false; UseMultimon := false;
       DeactivateClientDecoding := false; Password := None;
       DesktopWidth := 1024; DesktopHeight := 768;
       OsMajorType := OSMAJORTYPE_UNSPECIFIED; OsMinorType := OSMINORTYPE_UNSPECIFIED |}
    session0.

(** A monitor detection that finds one 1920x1080 monitor. *)
Definition one_monitor (w : world) : bool * (Z * Z) * world := (true, (1920, 1080), w).

(** Forward then inverse scaling of a framebuffer point. *)
Definition scale_round_trip_with (scale : axis_scaler) (w : world) (windowId : nat)
    (x y : Z) : Z * Z :=
  let '(_, (x1, y1)) := sdl_scale_coordinates_with scale w windowId x y false false in
  snd (sdl_scale_coordinates_with scale w windowId x1 y1 true false).

(** The sizes of one axis for which the round trip is within one unit
    whatever the rounding: the window is at least as large as the
    framebuffer, or the framebuffer exceeds it by a divisor of the window
    size (framebuffer : window = k+1 : k, as 2:1 or 3:2). *)
Definition round_trip_guaranteed (windowSize framebufferSize : Z) : Prop :=
  0 < framebufferSize /\ 0 < windowSize /\
  (framebufferSize <= windowSize \/ (framebufferSize - windowSize | windowSize)).

(** A 1920x1080 framebuffer shown in a 480x270 window. *)
Definition quarter_world : world :=
  with_gdi {| gdi_width := 1920; gdi_height := 1080; suppressOutput := false;
              invalid_null := true; ninvalid := 0; cinvalid := [] |}
    (with_sdl_windows [Some {| win_w := 480; win_h := 270; win_flags := SDL_WINDOW_SHOWN |}]
                      windowed0).

(** The command [update_resizeable] and [update_fullscreen] send for window
    [x]. *)
Definition resizeable_command (w : world) (use : bool) (x : nat) : SDL_Event :=
  SDL_USEREVENT_WINDOW_RESIZEABLE (window (window_at x w)) use.

Definition fullscreen_command (w : world) (enter : bool) (x : nat) : SDL_Event :=
  SDL_USEREVENT_WINDOW_FULLSCREEN (window (window_at x w)) enter.

(** *** The client thread's exit code *)

Section client_thread.
Context `{freerdp_error}.

(** [ERRINFO_SUCCESS] ([freerdp/error.h], not part of the sources): a
    parameter, like the codes of the table. *)
Variable ERRINFO_SUCCESS : DWORD.

(** [error_info_to_error(instance, &code)], given what
    [freerdp_error_info(instance)] returns: the exit code, the value stored
    in [*pcode], and the tag its debug line prints (the error's name and
    description, which it prints too, are left out). *)
Definition error_info_to_error (error_info : DWORD) : Z * DWORD * option string :=
  let code := error_info in
  let exit_code := sdl_map_error_to_exit_code code in
  (exit_code, code, sdl_map_error_to_code_tag exit_code).

(** What the protocol engine reports to [sdl_client_thread_proc] around its
    main loop. *)
Record rdp_engine := {
  connect_result : bool;            (* freerdp_connect(instance) *)
  last_error : DWORD;               (* freerdp_get_last_error(context) *)
  error_info : DWORD;               (* freerdp_error_info(instance) *)
  ultimatum_user_requested : bool;  (* freerdp_get_disconnect_ultimatum(context)
                                       == Disconnect_Ultimatum_user_requested *)
}.

(** What it reports in one turn of the main loop, call by call. *)
Record loop_turn := {
  shall_disconnect : bool;          (* freerdp_shall_disconnect_context(context) *)
  focus_required : bool;            (* freerdp_focus_required(instance) *)
  focus_in_first : bool;            (* sdl_keyboard_focus_in(context), first call *)
  focus_in_second : bool;           (* sdl_keyboard_focus_in(context), second call *)
  nCount : Z;                       (* freerdp_get_event_handles(...) *)
  wait_status : DWORD;              (* WaitForMultipleObjects(nCount, handles, FALSE, 100) *)
  auto_reconnect : bool;            (* client_auto_reconnect(instance) *)
  turn_error_info : DWORD;          (* freerdp_error_info(instance) *)
  check_event_handles : bool;       (* freerdp_check_event_handles(context) *)
}.

(** The main loop of [sdl_client_thread_proc], over the turns the engine
    gives it: the exit code when the loop is left, [None] while it runs on. *)
Fixpoint thread_proc_loop (exit_code : Z) (turns : list loop_turn) : option Z :=
  match turns with
  | [] => None
  | t :: turns =>
      if shall_disconnect t then Some exit_code
      else if focus_required t && negb (focus_in_first t) then Some exit_code
      else if focus_required t && negb (focus_in_second t) then Some exit_code
      else if nCount t =? 0 then Some exit_code
      else if wait_status t =? WAIT_FAILED then
        if auto_reconnect t then thread_proc_loop exit_code turns
        else
          (* Indicate an unsuccessful connection attempt if reconnect
             did not succeed and no other error was specified. *)
          Some (if turn_error_info t =? 0 then exit_code_value SDL_EXIT_CONN_FAILED
                else exit_code)
      else if negb (check_event_handles t) then Some exit_code
      else thread_proc_loop exit_code turns
  end.

(** [sdl_client_thread_proc]: the exit code it stores in [sdl->exit_code] and
    the state it leaves ([freerdp_abort_connect_context] sets the abort
    event); [None] while its loop runs on.  Logging is left out. *)
Definition sdl_client_thread_proc (engine : rdp_engine) (turns : list loop_turn)
    (w : world) : option (Z * world) :=
  let exit_code := exit_code_value SDL_EXIT_SUCCESS in
  let rc := connect_result engine in
  let exit_code :=
    if negb rc then sdl_map_error_to_exit_code (last_error engine) else exit_code in
  if AuthenticationOnly (settings w) then
    (* freerdp_abort_connect_context(context); goto terminate *)
    Some (exit_code, snd (SetEvent (abort_event w) w))
  else if negb rc then
    let code := error_info engine in
    let '(exit_code, code) :=
      if exit_code =? exit_code_value SDL_EXIT_SUCCESS
      then let '(exit_code, code, _) := error_info_to_error (error_info engine) in
           (exit_code, code)
      else (exit_code, code) in
    let exit_code :=
      if last_error engine =? FREERDP_ERROR_AUTHENTICATION_FAILED
      then exit_code_value SDL_EXIT_AUTH_FAILURE
      else if code =? ERRINFO_SUCCESS then exit_code_value SDL_EXIT_CONN_FAILED
      else exit_code in
    Some (exit_code, w)
  else
    match thread_proc_loop exit_code turns with
    | None => None
    | Some exit_code =>
        let exit_code :=
          if exit_code =? exit_code_value SDL_EXIT_SUCCESS then
            let '(exit_code, code, _) := error_info_to_error (error_info engine) in
            if (code =? ERRINFO_LOGOFF_BY_USER) && ultimatum_user_requested engine
            then exit_code_value SDL_EXIT_LOGOFF
            else exit_code
          else exit_code in
        (* freerdp_disconnect(instance) *)
        Some (exit_code, w)
    end.

End client_thread.

(** *** Well-formed sessions *)

(** The events of a session as [sdl_client_new] makes them: the four handles
    and the abort handle name five different manual-reset events. *)
Definition manual_event (h : HANDLE) (w : world) : Prop :=
  exists e, event_of h (events w) = Some e /\ manual_reset e = true.

Definition session_handles (w : world) : list HANDLE :=
  [initialize (sdl w); initialized (sdl w); update_complete (sdl w);
   windows_created (sdl w); abort_event w].

Definition session_ok (w : world) : Prop :=
  Forall (fun h => manual_event h w) (session_handles w) /\
  NoDup (session_handles w).

(** More concrete states: a failed connect with no error recorded, one turn
    of the main loop that ends it, and the session with the toolkit
    initialised but no window yet. *)
Definition engine_failed : rdp_engine :=
  {| connect_result := false; last_error := 0; error_info := 0;
     ultimatum_user_requested := false |}.

Definition turn_disconnect : loop_turn :=
  {| shall_disconnect := true; focus_required := false;
     focus_in_first := true; focus_in_second := true; nCount := 1;
     wait_status := 0; auto_reconnect := false; turn_error_info := 0;
     check_event_handles := true |}.

Definition initialised0 : world := with_video_init true session0.

(** The surface calls that copy without scaling. *)
Definition is_unscaled_copy (op : draw_op) : bool :=
  match op with
  | SDL_BlitSurface _ _ _ => true
  | _ => false
  end.

(** The frame of [frame_world] in a session with smart sizing. *)
Definition smart_world : world :=
  with_settings
    {| AuthenticationOnly := false; SmartSizing := true;
       DynamicResolutionUpdate := false; Fullscreen := false; UseMultimon := false;
       DeactivateClientDecoding := false; Password := None;
       DesktopWidth := 1024; DesktopHeight := 768;
       OsMajorType := OSMAJORTYPE_UNSPECIFIED; OsMinorType := OSMINORTYPE_UNSPECIFIED |}
    frame_world.

(** [n] turns of the event loop of [sdl_run]: [None] when the loop is left on
    the way. *)
Fixpoint sdl_run_turns (n : nat) (w : world) : option world :=
  match n with
  | O => Some w
  | S n =>
      match sdl_run_poll w with
      | Some w => sdl_run_turns n w
      | None => None
      end
  end.

(** A toolkit window has the bits of [mask] set ([b]) or clear; two windows
    differ at most in the bits of [mask]. *)
Definition flag_is (mask : Z) (b : bool) (sw : SDL_Window) : Prop :=
  Z.land (win_flags sw) mask = if b then mask else 0.

Definition same_but_flag (mask : Z) (sw sw' : SDL_Window) : Prop :=
  win_w sw' = win_w sw /\ win_h sw' = win_h sw /\
  Z.ldiff (win_flags sw') mask = Z.ldiff (win_flags sw) mask.

(** What a resizeable command may do to a toolkit window: change its
    resizable bit at most, and nothing at all when it is in fullscreen; and
    what it achieves: resizable as asked, unless in fullscreen. *)
Definition same_but_resizable (sw sw' : SDL_Window) : Prop :=
  same_but_flag SDL_WINDOW_RESIZABLE sw sw' /\
  Z.land (win_flags sw') SDL_WINDOW_FULLSCREEN = Z.land (win_flags sw) SDL_WINDOW_FULLSCREEN /\
  (Z.land (win_flags sw) SDL_WINDOW_FULLSCREEN <> 0 -> sw' = sw).

Definition resizable_unless_fullscreen (use : bool) (sw : SDL_Window) : Prop :=
  Z.land (win_flags sw) SDL_WINDOW_FULLSCREEN = 0 -> flag_is SDL_WINDOW_RESIZABLE use sw.
(** *** Proof automation *)

(** The inductive step shared by the two command loops ([update_resizeable]
    and [update_fullscreen]): either the queue has room and the induction
    hypothesis applies to the rest, or the loop gives up here. *)
Ltac command_loop_tac IH :=
  intros w ok w'; simpl;
  unfold sdl_push_user_event;
  destruct (Nat.ltb_spec (length (event_queue w)) (queue_limit w)) as [Hroom|Hfull]; simpl;
  [ intros Hloop; apply IH in Hloop; simpl in Hloop;
    destruct Hloop as (Hsdl & Hsettings & Hlimit & Hqueue);
    split; [done|]; split; [done|]; split; [done|];
    destruct ok;
    [ rewrite Hqueue, <- app_assoc; done
    | destruct Hqueue as (k & Hk & Hqueue & Hfull); exists (S k); split; [lia|];
      split; [rewrite Hqueue, <- app_assoc; done | done] ]
  | intros [= <- <-];
    split; [done|]; split; [done|]; split; [done|];
    exists 0%nat; split; [lia|]; split; [simpl; by rewrite app_nil_r | done] ].

(** Closes a goal [exists y, c = exit_code_value y] for the exit codes the
    client thread writes by name. *)
Ltac exit_code_enumerator :=
  first [ by exists SDL_EXIT_SUCCESS | by exists SDL_EXIT_CONN_FAILED
        | by exists SDL_EXIT_AUTH_FAILURE | by exists SDL_EXIT_LOGOFF ].


(** ** Part II: properties *)

(** *** The exit-code table *)

(** What the scan returns: the first entry from [x] on that passes the test,
    and [NULL] when none of the [n] entries it visits does. *)
Lemma map_scan_spec {A} (test : A -> bool) (map : list A) (n x : nat) :
  match map_scan test map n x with
  | Some cur =>
      exists i, (x <= i < x + n)%nat /\ map !! i = Some cur /\ test cur = true /\
                forall j b, (x <= j < i)%nat -> map !! j = Some b -> test b = false
  | None =>
      forall j b, (x <= j < x + n)%nat -> map !! j = Some b -> test b = false
  end.
Proof.
  revert x. induction n as [|n IH]; intros x; simpl.
  - intros j b Hj. lia.
  - destruct (map !! x) as [cur|] eqn:Hx.
    + destruct (test cur) eqn:Ht.
      * exists x. repeat split; [lia | lia | done | done |].
        intros j b Hj. lia.
      * specialize (IH (S x)). destruct (map_scan test map n (S x)) as [cur'|].
        -- destruct IH as (i & Hi & Hl & Hc & Hbefore).
           exists i. repeat split; [lia | lia | done | done |].
           intros j b Hj Hjb. destruct (decide (j = x)) as [->|Hne].
           ++ congruence.
           ++ apply (Hbefore j); [lia | done].
        -- intros j b Hj Hjb. destruct (decide (j = x)) as [->|Hne].
           ++ congruence.
           ++ apply (IH j); [lia | done].
    + intros j b Hj Hjb. apply lookup_ge_None in Hx.
      apply lookup_lt_Some in Hjb. lia.
Qed.

(** The scan of the whole array finds an entry that passes the test when no
    earlier entry does. *)
Lemma map_scan_first {A} (test : A -> bool) (map : list A) (i : nat) (cur : A) :
  map !! i = Some cur -> test cur = true ->
  Forall (fun b => test b = false) (take i map) ->
  map_scan test map (ARRAYSIZE map) 0 = Some cur.
Proof.
  intros Hi Ht Hbefore. unfold ARRAYSIZE.
  pose proof (map_scan_spec test map (length map) 0) as Hspec.
  pose proof (lookup_lt_Some _ _ _ Hi) as Hlen.
  destruct (map_scan test map (length map) 0) as [cur'|].
  - destruct Hspec as (i' & Hrange & Hi' & Ht' & Hmin).
    destruct (lt_eq_lt_dec i' i) as [[Hlt|Heq]|Hgt].
    + rewrite Forall_lookup in Hbefore.
      assert (take i map !! i' = Some cur') as Hin
        by (rewrite lookup_take_lt; [done | lia]).
      specialize (Hbefore i' cur' Hin). simpl in Hbefore. congruence.
    + subst i'. congruence.
    + specialize (Hmin i cur). rewrite Hmin in Ht; [done | lia | done].
  - specialize (Hspec i cur). rewrite Hspec in Ht; [done | lia | done].
Qed.

(** It finds nothing when no entry passes. *)
Lemma map_scan_none {A} (test : A -> bool) (map : list A) :
  (forall b, b ∈ map -> test b = false) ->
  map_scan test map (ARRAYSIZE map) 0 = None.
Proof.
  intros Hnone. unfold ARRAYSIZE.
  pose proof (map_scan_spec test map (length map) 0) as Hspec.
  destruct (map_scan test map (length map) 0) as [cur|]; [|done].
  destruct Hspec as (i & _ & Hi & Ht & _).
  rewrite Hnone in Ht; [done|]. apply list_elem_of_lookup. eauto.
Qed.

(** Whatever it finds is the first entry that passes. *)
Lemma map_scan_Some {A} (test : A -> bool) (map : list A) (cur : A) :
  map_scan test map (ARRAYSIZE map) 0 = Some cur ->
  exists i, map !! i = Some cur /\ test cur = true /\
            Forall (fun b => test b = false) (take i map).
Proof.
  intros Hscan. unfold ARRAYSIZE in Hscan.
  pose proof (map_scan_spec test map (length map) 0) as Hspec.
  rewrite Hscan in Hspec. destruct Hspec as (i & _ & Hi & Ht & Hmin).
  exists i. repeat split; [done | done |].
  apply Forall_lookup. intros j b Hj.
  pose proof (lookup_lt_Some _ _ _ Hj) as Hlt. rewrite length_take in Hlt.
  rewrite lookup_take_lt in Hj by lia.
  apply (Hmin j); [lia | done].
Qed.

(** It returns [NULL] only when every entry fails the test. *)
Lemma map_scan_None {A} (test : A -> bool) (map : list A) (b : A) :
  map_scan test map (ARRAYSIZE map) 0 = None -> b ∈ map -> test b = false.
Proof.
  intros Hscan Hin. unfold ARRAYSIZE in Hscan.
  pose proof (map_scan_spec test map (length map) 0) as Hspec.
  rewrite Hscan in Hspec.
  apply list_elem_of_lookup in Hin. destruct Hin as [i Hi].
  apply (Hspec i); [|done]. apply lookup_lt_Some in Hi. lia.
Qed.

Example exit_code_for_authentication_failed :
  @sdl_map_error_to_exit_code freerdp_error_h 0x00020009 = 132.
Proof. reflexivity. Qed.

Example exit_code_for_error_none :
  @sdl_map_error_to_exit_code freerdp_error_h 0xFFFFFFFF = 1.
Proof. reflexivity. Qed.

Example code_tag_of_131 :
  @sdl_map_to_code_tag freerdp_error_h 131 = Some "SDL_EXIT_CONN_FAILED"%string.
Proof. reflexivity. Qed.

Example code_tag_of_146 : @sdl_map_to_code_tag freerdp_error_h 146 = None.
Proof. reflexivity. Qed.

(** No two enumerators share a value. *)
Lemma exit_code_value_inj (y y' : SDL_EXIT_CODE) :
  exit_code_value y = exit_code_value y' -> y = y'.
Proof. destruct y, y'; simpl; intros Heq; first [reflexivity | discriminate Heq]. Qed.

Section exit_code_map_properties.
Context `{freerdp_error}.

(** Every entry of the table is written with [ENTRY]: its tag spells its code. *)
Lemma sdl_exit_code_map_entries :
  Forall (fun entry => exists y, code entry = exit_code_value y /\
                                 code_tag entry = exit_code_name y)
         sdl_exit_code_map.
Proof. unfold sdl_exit_code_map. repeat constructor; eexists; split; reflexivity. Qed.

(** Two entries with the same code carry the same tag. *)
Lemma code_tag_determined (a b : sdl_exit_code_map_t) :
  a ∈ sdl_exit_code_map -> b ∈ sdl_exit_code_map ->
  code a = code b -> code_tag a = code_tag b.
Proof.
  intros Ha Hb Heq.
  pose proof sdl_exit_code_map_entries as Hall. rewrite Forall_forall in Hall.
  destruct (Hall a Ha) as (ya & Hca & Hta). destruct (Hall b Hb) as (yb & Hcb & Htb).
  assert (ya = yb) as -> by (apply exit_code_value_inj; congruence).
  congruence.
Qed.

(** The tag lookup returns the tag of every entry of the table. *)
Lemma sdl_map_to_code_tag_entry (entry : sdl_exit_code_map_t) :
  entry ∈ sdl_exit_code_map ->
  sdl_map_to_code_tag (code entry) = Some (code_tag entry).
Proof.
  intros Hin. unfold sdl_map_to_code_tag, sdl_map_entry_by_code.
  destruct (map_scan _ sdl_exit_code_map _ 0) as [cur|] eqn:Hscan.
  - apply map_scan_Some in Hscan. destruct Hscan as (i & Hi & Ht & _).
    f_equal. apply code_tag_determined.
    + apply list_elem_of_lookup. eauto.
    + done.
    + lia.
  - apply (map_scan_None _ _ entry) in Hscan; [|done].
    simpl in Hscan. rewrite Z.eqb_refl in Hscan. discriminate.
Qed.

(** The exit-code lookup returns the code of an entry that no earlier entry
    shadows. *)
Lemma sdl_map_error_to_exit_code_entry (i : nat) (entry : sdl_exit_code_map_t) :
  sdl_exit_code_map !! i = Some entry ->
  Forall (fun entry' => error entry' <> error entry) (take i sdl_exit_code_map) ->
  sdl_map_error_to_exit_code (error entry) = code entry.
Proof.
  intros Hi Hfirst. unfold sdl_map_error_to_exit_code, sdl_map_entry_by_error.
  rewrite (map_scan_first _ _ i entry); [done | done | simpl; lia |].
  eapply Forall_impl; [exact Hfirst|]. simpl. intros entry' Hne. lia.
Qed.

(** C1 (as amended): for every entry (e, c, tag) of sdl_exit_code_map the tag
    lookup sdl_map_to_code_tag(c) returns tag; the exit-code lookup
    sdl_map_error_to_exit_code(e) returns c when the entry is the first of the
    table whose protocol error is e. *)
Theorem sdl_exit_code_map_lookups (i : nat) (entry : sdl_exit_code_map_t) :
  sdl_exit_code_map !! i = Some entry ->
  sdl_map_to_code_tag (code entry) = Some (code_tag entry) /\
  (Forall (fun entry' => error entry' <> error entry) (take i sdl_exit_code_map) ->
   sdl_map_error_to_exit_code (error entry) = code entry).
Proof.
  intros Hi. split.
  - apply sdl_map_to_code_tag_entry. apply list_elem_of_lookup. eauto.
  - intros Hfirst. by apply (sdl_map_error_to_exit_code_entry i).
Qed.

(** C3: the exit-code lookup is total; for every protocol error e it returns
    the exit code of the first table entry whose protocol error is e, and
    SDL_EXIT_CONN_FAILED when no entry has protocol error e. *)
Theorem sdl_map_error_to_exit_code_first_match (e : DWORD) :
  (forall i entry,
      sdl_exit_code_map !! i = Some entry -> error entry = e ->
      Forall (fun entry' => error entry' <> e) (take i sdl_exit_code_map) ->
      sdl_map_error_to_exit_code e = code entry) /\
  ((forall entry, entry ∈ sdl_exit_code_map -> error entry <> e) ->
   sdl_map_error_to_exit_code e = exit_code_value SDL_EXIT_CONN_FAILED) /\
  ((exists i entry,
       sdl_exit_code_map !! i = Some entry /\ error entry = e /\
       Forall (fun entry' => error entry' <> e) (take i sdl_exit_code_map) /\
       sdl_map_error_to_exit_code e = code entry) \/
   ((forall entry, entry ∈ sdl_exit_code_map -> error entry <> e) /\
    sdl_map_error_to_exit_code e = exit_code_value SDL_EXIT_CONN_FAILED)).
Proof.
  split; [|split].
  - intros i entry Hi <- Hfirst. by apply (sdl_map_error_to_exit_code_entry i).
  - intros Hnone. unfold sdl_map_error_to_exit_code, sdl_map_entry_by_error.
    rewrite map_scan_none; [done|].
    intros b Hb. simpl. specialize (Hnone b Hb). lia.
  - unfold sdl_map_error_to_exit_code, sdl_map_entry_by_error.
    destruct (map_scan _ sdl_exit_code_map _ 0) as [cur|] eqn:Hscan.
    + left. apply map_scan_Some in Hscan. destruct Hscan as (i & Hi & Ht & Hbefore).
      simpl in Ht. exists i, cur.
      split; [done|]. split; [lia|]. split; [|done].
      eapply Forall_impl; [exact Hbefore|]. simpl. intros entry' Hne. lia.
    + right. split; [|done]. intros entry Hin.
      apply (map_scan_None _ _ entry) in Hscan; [|done]. simpl in Hscan. lia.
Qed.

End exit_code_map_properties.

(** C1 as stated fails on the table: FREERDP_ERROR_NONE heads many entries,
    and a lookup of it stops at the first, (FREERDP_ERROR_NONE,
    SDL_EXIT_DISCONNECT); the entry (FREERDP_ERROR_NONE, SDL_EXIT_LOGOFF) is
    never returned. *)
Lemma sdl_exit_code_map_shadowed_entry :
  ~ (forall e c tag,
        {| error := e; code := c; code_tag := tag |} ∈ @sdl_exit_code_map freerdp_error_h ->
        @sdl_map_error_to_exit_code freerdp_error_h e = c /\
        @sdl_map_to_code_tag freerdp_error_h c = Some tag).
Proof.
  intros Hclaim.
  destruct (Hclaim 0xFFFFFFFF 2 "SDL_EXIT_LOGOFF"%string) as [Hcode _].
  - apply list_elem_of_lookup. exists 2%nat. reflexivity.
  - vm_compute in Hcode. discriminate Hcode.
Qed.

(** On the entry (ERRINFO_LOGOFF_BY_USER, SDL_EXIT_DISCONNECT_BY_USER). *)
Lemma sdl_exit_code_map_lookups_witness :
  @sdl_map_to_code_tag freerdp_error_h 11 = Some "SDL_EXIT_DISCONNECT_BY_USER"%string /\
  @sdl_map_error_to_exit_code freerdp_error_h 0x0000000C = 11.
Proof.
  destruct (@sdl_exit_code_map_lookups freerdp_error_h 11%nat
              (ENTRY 0x0000000C SDL_EXIT_DISCONNECT_BY_USER) eq_refl) as [Htag Hcode].
  split; [exact Htag|]. apply Hcode.
  repeat constructor; simpl; lia.
Defined.

(** On FREERDP_ERROR_NONE, first found in the second entry, and on a code
    the table does not hold. *)
Lemma sdl_map_error_to_exit_code_first_match_witness :
  @sdl_map_error_to_exit_code freerdp_error_h 0xFFFFFFFF = 1 /\
  @sdl_map_error_to_exit_code freerdp_error_h 0x00030000 = 131.
Proof.
  destruct (@sdl_map_error_to_exit_code_first_match freerdp_error_h 0xFFFFFFFF)
    as (Hfirst & _ & _).
  destruct (@sdl_map_error_to_exit_code_first_match freerdp_error_h 0x00030000)
    as (_ & Hnone & _).
  split.
  - apply (Hfirst 1%nat (ENTRY 0xFFFFFFFF SDL_EXIT_DISCONNECT)); [done | done |].
    repeat constructor; simpl; lia.
  - apply Hnone. intros entry Hin.
    repeat (apply elem_of_cons in Hin; destruct Hin as [->|Hin]; [simpl; lia|]).
    by apply elem_of_nil in Hin.
Defined.

(** *** Events *)

(** What a [ResetEvent] that returned [ok] did. *)
Lemma ResetEvent_inv (h : HANDLE) (w w' : world) (ok : bool) :
  ResetEvent h w = (ok, w') ->
  if ok then
    exists i e, h = Some i /\ events w !! i = Some e /\
                w' = with_events (<[i := set_signaled false e]> (events w)) w
  else w' = w /\ event_of h (events w) = None.
Proof.
  unfold ResetEvent. destruct h as [i|]; simpl.
  - destruct (events w !! i) as [e|] eqn:He; intros [= <- <-]; eauto.
  - intros [= <- <-]. done.
Qed.

(** Setting a valid event succeeds and leaves it signaled. *)
Lemma SetEvent_valid (h : HANDLE) (w : world) :
  is_Some (event_of h (events w)) ->
  exists w', SetEvent h w = (true, w') /\ signaled_at h w' = Some true /\
             exists i e, h = Some i /\ events w !! i = Some e /\
                         w' = with_events (<[i := set_signaled true e]> (events w)) w.
Proof.
  intros [e He]. destruct h as [i|]; [|done]. simpl in He.
  unfold SetEvent. rewrite He. eexists. split; [done|]. split; [|eauto].
  unfold signaled_at. simpl. rewrite list_lookup_insert_eq; [done|].
  by eapply lookup_lt_Some.
Qed.

(** Resetting a valid event succeeds and leaves it unsignaled. *)
Lemma ResetEvent_valid (h : HANDLE) (w : world) :
  is_Some (event_of h (events w)) ->
  exists w', ResetEvent h w = (true, w') /\ signaled_at h w' = Some false /\
             exists i e, h = Some i /\ events w !! i = Some e /\
                         w' = with_events (<[i := set_signaled false e]> (events w)) w.
Proof.
  intros [e He]. destruct h as [i|]; [|done]. simpl in He.
  unfold ResetEvent. rewrite He. eexists. split; [done|]. split; [|eauto].
  unfold signaled_at. simpl. rewrite list_lookup_insert_eq; [done|].
  by eapply lookup_lt_Some.
Qed.

(** A wait on two valid handles whose first is a signaled manual-reset event
    returns [WAIT_OBJECT_0] at once and changes nothing. *)
Lemma wait_first_signaled (h1 h2 : HANDLE) (w : world) :
  event_of h1 (events w) = Some {| manual_reset := true; signaled := true |} ->
  is_Some (event_of h2 (events w)) ->
  WaitForMultipleObjects [h1; h2] w = Some (WAIT_OBJECT_0, w).
Proof.
  intros H1 H2. unfold WaitForMultipleObjects.
  assert (forallb (fun h => bool_decide (is_Some (event_of h (events w)))) [h1; h2]
          = true) as ->.
  { simpl. rewrite andb_true_r. apply andb_true_iff.
    split; apply bool_decide_eq_true_2; [rewrite H1; eauto | done]. }
  simpl. rewrite H1. simpl. destruct h1 as [i|]; [|done].
  unfold wait_satisfied. simpl in *. by rewrite H1.
Qed.

(** *** Session construction and the frame gate *)

(** [CreateEventA] either fails and changes nothing, or appends the event. *)
Lemma CreateEventA_inv (m i : bool) (w w' : world) (h : HANDLE) :
  CreateEventA m i w = (h, w') ->
  (h = None /\ w' = w) \/
  (h = Some (length (events w)) /\
   w' = with_events (events w ++ [{| manual_reset := m; signaled := i |}]) w).
Proof.
  unfold CreateEventA. destruct (_ <? _)%nat; intros [= <- <-]; eauto.
Qed.

(** What a successful [sdl_client_new] leaves: four new manual-reset events,
    of which only [update_complete] is signaled. *)
Lemma sdl_client_new_true (w0 w : world) :
  sdl_client_new w0 = (true, w) ->
  let n := length (events w0) in
  events w = events w0 ++ [ {| manual_reset := true; signaled := false |};
                            {| manual_reset := true; signaled := false |};
                            {| manual_reset := true; signaled := true |};
                            {| manual_reset := true; signaled := false |} ] /\
  initialize (sdl w) = Some n /\ initialized (sdl w) = Some (S n) /\
  update_complete (sdl w) = Some (S (S n)) /\
  windows_created (sdl w) = Some (S (S (S n))) /\
  abort_event w = abort_event w0.
Proof.
  unfold sdl_client_new.
  destruct (CreateEventA true false w0) as [h1 w1] eqn:H1.
  destruct (CreateEventA true false w1) as [h2 w2] eqn:H2.
  destruct (CreateEventA true true w2) as [h3 w3] eqn:H3.
  destruct (CreateEventA true false w3) as [h4 w4] eqn:H4.
  intros [= Hok <-].
  apply andb_true_iff in Hok as [Hok Hok4]. apply andb_true_iff in Hok as [Hok Hok3].
  apply andb_true_iff in Hok as [Hok1 Hok2].
  apply bool_decide_eq_true_1 in Hok1, Hok2, Hok3, Hok4.
  apply CreateEventA_inv in H1, H2, H3, H4.
  destruct H1 as [[-> _]|[-> ->]]; [by destruct Hok1|].
  destruct H2 as [[-> _]|[-> ->]]; [by destruct Hok2|].
  destruct H3 as [[-> _]|[-> ->]]; [by destruct Hok3|].
  destruct H4 as [[-> _]|[-> ->]]; [by destruct Hok4|].
  simpl. rewrite !length_app. simpl. rewrite <- !app_assoc. simpl.
  repeat split; f_equal; lia.
Qed.

(** C4: sdl_client_new creates the update_complete event signaled, so
    sdl_begin_paint, called while that event is as construction left it and
    the abort event is unset, returns TRUE without blocking. *)
Theorem first_begin_paint_does_not_block (w0 w : world) :
  sdl_client_new w0 = (true, w) ->
  event_of (update_complete (sdl w)) (events w)
    = Some {| manual_reset := true; signaled := true |} /\
  forall w1,
    event_of (update_complete (sdl w1)) (events w1)
      = event_of (update_complete (sdl w)) (events w) ->
    signaled_at (abort_event w1) w1 = Some false ->
    exists w2, sdl_begin_paint w1 = Returned true w2.
Proof.
  intros Hnew. apply sdl_client_new_true in Hnew.
  destruct Hnew as (Hev & _ & _ & Hgate & _).
  assert (event_of (update_complete (sdl w)) (events w)
          = Some {| manual_reset := true; signaled := true |}) as Hsig.
  { rewrite Hgate, Hev. simpl.
    rewrite lookup_app_r by lia.
    replace (S (S (length (events w0))) - length (events w0))%nat with 2%nat by lia.
    done. }
  split; [done|].
  intros w1 Hsame Habort. rewrite Hsig in Hsame.
  unfold sdl_begin_paint.
  rewrite wait_first_signaled; [|done|].
  - unfold sdl_begin_paint_after_wait. simpl.
    destruct (ResetEvent_valid (update_complete (sdl w1)) w1) as (w2 & Hreset & _);
      [by rewrite Hsame|].
    rewrite Hreset. simpl. eauto.
  - unfold signaled_at in Habort.
    destruct (event_of (abort_event w1) (events w1)); [eauto | done].
Qed.

(** C5: when sdl_begin_paint returns TRUE the update_complete event is left
    unsignaled, invalid->null is TRUE and ninvalid is 0; when the wait ends
    with any status other than WAIT_OBJECT_0 -- as it does when only the abort
    event is signaled -- sdl_begin_paint returns FALSE. *)
Theorem sdl_begin_paint_clears_gate_and_invalid (w : world) :
  (forall w', sdl_begin_paint w = Returned true w' ->
     signaled_at (update_complete (sdl w')) w' = Some false /\
     invalid_null (gdi w') = true /\ ninvalid (gdi w') = 0) /\
  (forall status w1,
     WaitForMultipleObjects [update_complete (sdl w); abort_event w] w = Some (status, w1) ->
     status <> WAIT_OBJECT_0 ->
     sdl_begin_paint w = Returned false w1) /\
  (signaled_at (update_complete (sdl w)) w = Some false ->
   signaled_at (abort_event w) w = Some true ->
   exists w', sdl_begin_paint w = Returned false w').
Proof.
  split; [|split].
  - intros w'. unfold sdl_begin_paint.
    destruct (WaitForMultipleObjects _ w) as [[status w1]|]; [|done].
    unfold sdl_begin_paint_after_wait.
    destruct (status =? WAIT_OBJECT_0); [|intros [= ?]; done].
    destruct (ResetEvent (update_complete (sdl w1)) w1) as [ok w2] eqn:Hreset.
    destruct ok; simpl; [|intros [= ?]; done].
    intros [= <-]. simpl.
    apply ResetEvent_inv in Hreset. destruct Hreset as (i & e & Hh & He & ->).
    simpl. split; [|done].
    rewrite Hh. unfold signaled_at. simpl.
    rewrite list_lookup_insert_eq; [done|]. by eapply lookup_lt_Some.
  - intros status w1 Hwait Hne. unfold sdl_begin_paint. rewrite Hwait.
    unfold sdl_begin_paint_after_wait.
    destruct (Z.eqb_spec status WAIT_OBJECT_0); [done|]. done.
  - intros Hgate Habort. unfold sdl_begin_paint, WaitForMultipleObjects.
    unfold signaled_at in Hgate, Habort. simpl.
    destruct (event_of (update_complete (sdl w)) (events w)) as [g|] eqn:Hg; [|done].
    destruct (event_of (abort_event w) (events w)) as [a|] eqn:Ha; [|done].
    simpl in Hgate, Habort. injection Hgate as Hgate. injection Habort as Habort.
    rewrite !bool_decide_eq_true_2 by eauto. simpl.
    rewrite Hgate, Habort. simpl.
    unfold sdl_begin_paint_after_wait. simpl. eauto.
Qed.

(** On the session made of a fresh context. *)
Lemma first_begin_paint_does_not_block_witness :
  exists w2, sdl_begin_paint session0 = Returned true w2.
Proof.
  destruct (first_begin_paint_does_not_block world0 session0 eq_refl) as [_ Hfirst].
  apply Hfirst; reflexivity.
Defined.

(** On a fresh session (success) and on an aborted one (failure). *)
Lemma sdl_begin_paint_clears_gate_and_invalid_witness :
  (exists w', sdl_begin_paint session0 = Returned true w' /\
              signaled_at (update_complete (sdl w')) w' = Some false /\
              invalid_null (gdi w') = true /\ ninvalid (gdi w') = 0) /\
  sdl_begin_paint aborted0 = Returned false aborted0.
Proof.
  destruct (sdl_begin_paint_clears_gate_and_invalid session0) as (Hclear & _ & _).
  destruct (sdl_begin_paint_clears_gate_and_invalid aborted0) as (_ & Hother & _).
  split.
  - eexists. split; [reflexivity|]. apply Hclear. reflexivity.
  - apply (Hother 1); [reflexivity | discriminate].
Defined.

(** *** The frame compositor *)

Lemma wrap_int32_id (z : Z) : - 2 ^ 31 <= z <= INT32_MAX -> wrap_int32 z = z.
Proof.
  unfold wrap_int32, INT32_MAX. intros Hz.
  rewrite Z.mod_small; lia.
Qed.

(** Neither copy loop touches anything but the surface calls. *)
Lemma blit_region_unpainted (x : nat) (c : list GDI_RGN) (w : world) (i : nat) :
  unpainted (blit_region x c w i) = unpainted w /\
  windows (sdl (blit_region x c w i)) = windows (sdl w).
Proof. done. Qed.

Lemma blit_region_scaled_unpainted (x id : nat) (c : list GDI_RGN) (w : world) (i : nat) :
  unpainted (blit_region_scaled x id c w i) = unpainted w /\
  windows (sdl (blit_region_scaled x id c w i)) = windows (sdl w).
Proof.
  unfold blit_region_scaled.
  destruct (sdl_scale_coordinates w id _ _ false true) as [? [dx dy]].
  destruct (sdl_scale_coordinates w id _ _ false true) as [? [dw dh]].
  done.
Qed.

(** A loop keeps what each of its turns keeps. *)
Lemma foldl_unpainted (f : world -> nat -> world) (xs : list nat) (w : world) :
  (forall w i, unpainted (f w i) = unpainted w /\
               windows (sdl (f w i)) = windows (sdl w)) ->
  unpainted (foldl f w xs) = unpainted w /\
  windows (sdl (foldl f w xs)) = windows (sdl w).
Proof.
  intros Hf. revert w. induction xs as [|i xs IH]; intros w; simpl; [done|].
  destruct (IH (f w i)) as [-> ->]. apply Hf.
Qed.

(** A compositing turn for one window keeps everything but the surface calls
    and the window array, whose length and window pointers it keeps too. *)
Lemma paint_window_unpainted (n : Z) (c : list GDI_RGN) (w : world) (x : nat) :
  unpainted (paint_window n c w x) = unpainted w /\
  length (windows (sdl (paint_window n c w x))) = length (windows (sdl w)) /\
  forall y, window (window_at y (paint_window n c w x)) = window (window_at y w).
Proof.
  unfold paint_window.
  destruct (SDL_GetWindowSize (window (window_at x w)) w) as [w_ h_].
  set (w1 := set_window_at x _ w).
  assert (unpainted w1 = unpainted w /\
          length (windows (sdl w1)) = length (windows (sdl w)) /\
          forall y, window (window_at y w1) = window (window_at y w)) as Hw1.
  { split; [done|]. split; [apply length_insert|].
    intros y. unfold window_at, w1. simpl.
    destruct (decide (x = y)) as [->|Hne].
    - destruct (windows (sdl w) !! y) as [v|] eqn:Hy.
      + rewrite list_lookup_insert_eq by (by eapply lookup_lt_Some).
        simpl. unfold window_at. by rewrite Hy.
      + rewrite list_insert_ge by (by apply lookup_ge_None). by rewrite Hy.
    - by rewrite list_lookup_insert_ne. }
  clearbody w1.
  assert (forall w2 v, window v = window (window_at x w2) ->
            unpainted (set_window_at x v w2) = unpainted w2 /\
            length (windows (sdl (set_window_at x v w2))) = length (windows (sdl w2)) /\
            forall y, window (window_at y (set_window_at x v w2)) = window (window_at y w2))
    as Hset.
  { intros w2 v Hv. split; [done|]. split; [apply length_insert|].
    intros y. unfold window_at. simpl.
    destruct (decide (x = y)) as [->|Hne].
    - destruct (windows (sdl w2) !! y) as [v'|] eqn:Hy.
      + rewrite list_lookup_insert_eq by (by eapply lookup_lt_Some).
        simpl. unfold window_at in Hv. by rewrite Hy in Hv.
      + rewrite list_insert_ge by (by apply lookup_ge_None). by rewrite Hy.
    - by rewrite list_lookup_insert_ne. }
  destruct Hw1 as (Hu1 & Hl1 & Hp1).
  match goal with |- context [with_drawn _ ?w3] => set (w3' := w3) end.
  assert (unpainted w3' = unpainted w1 /\
          length (windows (sdl w3')) = length (windows (sdl w1)) /\
          forall y, window (window_at y w3') = window (window_at y w1)) as (Hu3 & Hl3 & Hp3).
  { subst w3'. destruct (negb (SmartSizing (settings w1))).
    - set (w2 := if gdi_width (gdi w1) <? w_ then _ else w1).
      assert (unpainted w2 = unpainted w1 /\
              length (windows (sdl w2)) = length (windows (sdl w1)) /\
              forall y, window (window_at y w2) = window (window_at y w1))
        as (Hu2 & Hl2 & Hp2).
      { subst w2. destruct (gdi_width (gdi w1) <? w_); [|done].
        apply Hset. simpl. by rewrite Hp1. }
      clearbody w2.
      set (w2' := if gdi_height (gdi w2) <? h_ then _ else w2).
      assert (unpainted w2' = unpainted w2 /\
              length (windows (sdl w2')) = length (windows (sdl w2)) /\
              forall y, window (window_at y w2') = window (window_at y w2))
        as (Hu2' & Hl2' & Hp2').
      { subst w2'. destruct (gdi_height (gdi w2) <? h_); [|done].
        apply Hset. simpl. by rewrite Hp2, Hp1. }
      clearbody w2'.
      destruct (foldl_unpainted (blit_region x c) (seq 0 (Z.to_nat n)) w2'
                  (blit_region_unpainted x c)) as [Hu Hw].
      rewrite Hu, Hu2', Hu2. split; [done|]. split.
      + rewrite Hw. congruence.
      + intros y. unfold window_at at 1. rewrite Hw. fold (window_at y w2').
        by rewrite Hp2', Hp2.
    - destruct (foldl_unpainted
                  (blit_region_scaled x (SDL_GetWindowID (window (window_at x w)) w1) c)
                  (seq 0 (Z.to_nat n)) w1
                  (blit_region_scaled_unpainted x _ c)) as [Hu Hw].
      split; [done|]. split.
      + by rewrite Hw.
      + intros y. unfold window_at at 1. by rewrite Hw. }
  clearbody w3'.
  split; [|split].
  - change (unpainted w3' = unpainted w). congruence.
  - simpl. congruence.
  - intros y. change (window (window_at y w3') = window (window_at y w)).
    by rewrite Hp3, Hp1.
Qed.

(** So does the loop over the windows. *)
Lemma compositing_loop_unpainted (n : Z) (c : list GDI_RGN) (xs : list nat) (w : world) :
  unpainted (foldl (paint_window n c) w xs) = unpainted w.
Proof.
  revert w. induction xs as [|x xs IH]; intros w; simpl; [done|].
  rewrite IH. apply paint_window_unpainted.
Qed.

(** What [unpainted] keeps of the frame gate. *)
Lemma unpainted_gate (w w' : world) :
  unpainted w' = unpainted w ->
  event_of (update_complete (sdl w')) (events w')
  = event_of (update_complete (sdl w)) (events w).
Proof.
  intros Hu.
  pose proof (f_equal events Hu) as He.
  pose proof (f_equal (fun w => update_complete (sdl w)) Hu) as Hg.
  simpl in He, Hg. by rewrite He, Hg.
Qed.

(** C6: every run of sdl_end_paint_process on a session (whose
    update_complete event exists) returns with that event signaled; when
    output is suppressed or the invalid region is empty it makes no surface
    call and leaves the windows as they were. *)
Theorem sdl_end_paint_process_signals_gate (w : world) :
  is_Some (event_of (update_complete (sdl w)) (events w)) ->
  exists w', sdl_end_paint_process w = (true, w') /\
    signaled_at (update_complete (sdl w')) w' = Some true /\
    (suppressOutput (gdi w) = true \/ invalid_null (gdi w) = true \/
     ninvalid (gdi w) < 1 ->
     drawn w' = drawn w /\ windows (sdl w') = windows (sdl w)).
Proof.
  intros Hgate. unfold sdl_end_paint_process.
  set (w1 := if suppressOutput (gdi w) || invalid_null (gdi w) then w else _).
  assert (unpainted w1 = unpainted w) as Hu.
  { subst w1. destruct (_ || _); [done|]. destruct (_ <? 1); [done|].
    apply compositing_loop_unpainted. }
  assert (suppressOutput (gdi w) = true \/ invalid_null (gdi w) = true \/
          ninvalid (gdi w) < 1 -> w1 = w) as Hskip.
  { subst w1. intros [->|[->|Hn]]; [done | by rewrite orb_true_r |].
    destruct (_ || _); [done|]. destruct (Z.ltb_spec (ninvalid (gdi w)) 1); [done|lia]. }
  clearbody w1.
  destruct (SetEvent_valid (update_complete (sdl w1)) w1)
    as (w' & Hset & Hsig & i & e & Hh & He & ->).
  { by rewrite (unpainted_gate w w1). }
  eexists. split; [exact Hset|]. split; [exact Hsig|].
  intros Hempty. rewrite (Hskip Hempty). done.
Qed.

(** Writing [sdl->windows[x]] twice keeps the second value; reading it back
    gives what was written. *)
Lemma set_window_at_twice (x : nat) (v v' : sdl_window_t) (w : world) :
  set_window_at x v' (set_window_at x v w) = set_window_at x v' w.
Proof.
  unfold set_window_at. simpl. by rewrite list_insert_insert_eq.
Qed.

Lemma window_at_set (x : nat) (v : sdl_window_t) (w : world) :
  (x < length (windows (sdl w)))%nat -> window_at x (set_window_at x v w) = v.
Proof.
  intros Hx. unfold window_at, set_window_at. simpl.
  by rewrite list_lookup_insert_eq.
Qed.

(** The centering offset as the C code computes it, on [int]s. *)
Lemma centering_offset_int (windowSize framebufferSize : Z) :
  0 <= framebufferSize -> windowSize <= INT32_MAX ->
  (if framebufferSize <? windowSize
   then wrap_int32 (wrap_int32 (windowSize - framebufferSize) `quot` 2) else 0)
  = centering_offset windowSize framebufferSize /\
  0 <= centering_offset windowSize framebufferSize /\
  (framebufferSize < windowSize ->
   centering_offset windowSize framebufferSize + framebufferSize <= windowSize).
Proof.
  unfold centering_offset, INT32_MAX. intros Hf Hw.
  destruct (Z.ltb_spec framebufferSize windowSize) as [Hlt|Hge].
  - rewrite (wrap_int32_id (windowSize - framebufferSize)) by (unfold INT32_MAX; lia).
    rewrite Z.quot_div_nonneg by lia.
    pose proof (Z.div_pos (windowSize - framebufferSize) 2 ltac:(lia) ltac:(lia)).
    pose proof (Z.div_le_upper_bound (windowSize - framebufferSize) 2
                  (windowSize - framebufferSize) ltac:(lia) ltac:(lia)).
    rewrite wrap_int32_id by (unfold INT32_MAX; lia).
    repeat split; lia.
  - repeat split; lia.
Qed.

(** The regions the copy loops read are the frame's invalid rectangles. *)
Lemma rgn_at_seq (c : list GDI_RGN) (k : nat) :
  (k <= length c)%nat -> rgn_at c <$> seq 0 k = take k c.
Proof.
  intros Hk. apply list_eq. intros i.
  rewrite list_lookup_fmap.
  destruct (decide (i < k)%nat) as [Hi|Hi].
  - rewrite lookup_seq_lt by done. rewrite lookup_take_lt by done. simpl.
    unfold rgn_at. destruct (c !! i) as [v|] eqn:Hc; [done|].
    apply lookup_ge_None in Hc. lia.
  - rewrite lookup_seq_ge by lia. rewrite lookup_take_ge by lia. done.
Qed.

(** The unscaled copy loop: one clip and one blit per region, each to the
    region's translate by the window's offsets. *)
Lemma blit_loop (x : nat) (c : list GDI_RGN) (idx : list nat) (w : world) :
  Forall (fun i => - 2 ^ 31 <= offset_x (window_at x w) + rgn_x (rgn_at c i) <= INT32_MAX /\
                   - 2 ^ 31 <= offset_y (window_at x w) + rgn_y (rgn_at c i) <= INT32_MAX) idx ->
  foldl (blit_region x c) w idx =
  with_drawn (drawn w ++
              flat_map (fun rgn =>
                          [SDL_SetClipRect_primary (rect_of_rgn rgn);
                           SDL_BlitSurface (window (window_at x w)) (rect_of_rgn rgn)
                             (translate_rect (offset_x (window_at x w))
                                             (offset_y (window_at x w)) (rect_of_rgn rgn))])
                       (rgn_at c <$> idx)) w.
Proof.
  revert w. induction idx as [|i idx IH]; intros w Hrange.
  - simpl. rewrite app_nil_r. by destruct w.
  - apply Forall_cons in Hrange as [[Hx Hy] Hrange].
    cbn [foldl]. rewrite IH by exact Hrange.
    change (window_at x (blit_region x c w i)) with (window_at x w).
    set (copy := fun rgn : GDI_RGN => _).
    apply (f_equal (fun d => with_drawn d w)).
    rewrite fmap_cons. cbn [flat_map]. subst copy.
    unfold blit_region. cbn [drawn with_drawn].
    rewrite <- app_assoc. do 2 f_equal.
    rewrite !wrap_int32_id by done.
    unfold translate_rect, rect_of_rgn. cbn [rect_x rect_y rect_w rect_h].
    rewrite (Z.add_comm (offset_x _)), (Z.add_comm (offset_y _)).
    reflexivity.
Qed.

(** One window of the unscaled path: its offsets become the centering
    offsets, and the surface calls made are the spec's unscaled copies. *)
Lemma paint_window_unscaled (w : world) (x : nat) (n : Z) (c : list GDI_RGN)
    (sw : SDL_Window) :
  SmartSizing (settings w) = false ->
  (x < length (windows (sdl w)))%nat ->
  window_of (window (window_at x w)) w = Some sw ->
  0 <= gdi_width (gdi w) <= INT32_MAX -> 0 <= gdi_height (gdi w) <= INT32_MAX ->
  win_w sw <= INT32_MAX -> win_h sw <= INT32_MAX ->
  0 <= n <= Z.of_nat (length c) ->
  Forall (fun rgn => 0 <= rgn_x rgn <= gdi_width (gdi w) /\
                     0 <= rgn_y rgn <= gdi_height (gdi w)) (take (Z.to_nat n) c) ->
  let dx := centering_offset (win_w sw) (gdi_width (gdi w)) in
  let dy := centering_offset (win_h sw) (gdi_height (gdi w)) in
  paint_window n c w x =
  with_drawn (drawn w ++ unscaled_copies (window (window_at x w)) dx dy
                                         (take (Z.to_nat n) c))
             (set_window_at x {| window := window (window_at x w);
                                 offset_x := dx; offset_y := dy |} w).
Proof.
  intros Hsmart Hx Hwin Hgw Hgh Hww Hwh Hn Hrgn dx dy.
  destruct (centering_offset_int (win_w sw) (gdi_width (gdi w))) as (Hdx & Hdx0 & Hdxw);
    [lia | lia |].
  destruct (centering_offset_int (win_h sw) (gdi_height (gdi w))) as (Hdy & Hdy0 & Hdyh);
    [lia | lia |].
  fold dx in Hdx, Hdx0, Hdxw. fold dy in Hdy, Hdy0, Hdyh.
  unfold paint_window. unfold SDL_GetWindowSize. rewrite Hwin.
  set (win := window (window_at x w)).
  set (w1 := set_window_at x {| window := win; offset_x := 0; offset_y := 0 |} w).
  change (settings w1) with (settings w). rewrite Hsmart. cbn [negb].
  change (gdi w1) with (gdi w).
  (* the two offsets *)
  set (w2 := if gdi_width (gdi w) <? win_w sw then _ else w1).
  assert (w2 = set_window_at x {| window := win; offset_x := dx; offset_y := 0 |} w) as ->.
  { subst w2. rewrite <- Hdx. subst w1.
    destruct (gdi_width (gdi w) <? win_w sw); [|done].
    rewrite window_at_set by done. by rewrite set_window_at_twice. }
  set (w2 := set_window_at x {| window := win; offset_x := dx; offset_y := 0 |} w).
  change (gdi w2) with (gdi w).
  set (w3 := if gdi_height (gdi w) <? win_h sw then _ else w2).
  assert (w3 = set_window_at x {| window := win; offset_x := dx; offset_y := dy |} w) as ->.
  { subst w3. rewrite <- Hdy. subst w2.
    destruct (gdi_height (gdi w) <? win_h sw); [|done].
    rewrite window_at_set by done. by rewrite set_window_at_twice. }
  set (w3 := set_window_at x {| window := win; offset_x := dx; offset_y := dy |} w).
  assert (window_at x w3 = {| window := win; offset_x := dx; offset_y := dy |}) as Hat
    by (by apply window_at_set).
  (* the copy loop *)
  rewrite blit_loop.
  - rewrite Hat. cbn [window offset_x offset_y drawn with_drawn].
    rewrite rgn_at_seq by lia.
    change (drawn w3) with (drawn w).
    unfold unscaled_copies. rewrite <- app_assoc. done.
  - rewrite Hat. cbn [offset_x offset_y].
    apply Forall_forall. intros i Hi. apply elem_of_seq in Hi.
    assert (rgn_at c i ∈ take (Z.to_nat n) c) as Hin.
    { rewrite <- (rgn_at_seq c (Z.to_nat n)) by lia.
      apply list_elem_of_fmap. exists i. split; [done|]. apply elem_of_seq. lia. }
    rewrite Forall_forall in Hrgn. destruct (Hrgn _ Hin) as [Hrx Hry].
    unfold INT32_MAX in *.
    assert (dx + gdi_width (gdi w) <= 2 ^ 31 - 1).
    { destruct (Z.lt_ge_cases (gdi_width (gdi w)) (win_w sw)); [lia|].
      unfold dx, centering_offset.
      destruct (Z.ltb_spec (gdi_width (gdi w)) (win_w sw)); lia. }
    assert (dy + gdi_height (gdi w) <= 2 ^ 31 - 1).
    { destruct (Z.lt_ge_cases (gdi_height (gdi w)) (win_h sw)); [lia|].
      unfold dy, centering_offset.
      destruct (Z.ltb_spec (gdi_height (gdi w)) (win_h sw)); lia. }
    lia.
Qed.

(** [window_copies] and the offsets read only what [unpainted] keeps, and the
    window pointer. *)
Lemma window_copies_ext (w w' : world) (x : nat) :
  unpainted w' = unpainted w ->
  window (window_at x w') = window (window_at x w) ->
  window_copies w' x = window_copies w x /\
  window_offset_x w' x = window_offset_x w x /\
  window_offset_y w' x = window_offset_y w x.
Proof.
  intros Hu Hp.
  pose proof (f_equal gdi Hu) as Hg. pose proof (f_equal sdl_windows Hu) as Hs.
  simpl in Hg, Hs.
  unfold window_copies, window_offset_x, window_offset_y, invalid_regions,
    SDL_GetWindowSize, window_of.
  by rewrite Hp, Hg, Hs.
Qed.

(** The compositing loop over the first [k] windows, in the unscaled path. *)
Lemma compositing_loop_unscaled (w : world) (k : nat) :
  SmartSizing (settings w) = false ->
  geometry_ok w ->
  (k <= windowCount (sdl w))%nat ->
  let wk := foldl (paint_window (ninvalid (gdi w)) (cinvalid (gdi w))) w (seq 0 k) in
  unpainted wk = unpainted w /\
  length (windows (sdl wk)) = length (windows (sdl w)) /\
  drawn wk = drawn w ++ flat_map (window_copies w) (seq 0 k) /\
  (forall x, (x < k)%nat ->
     window_at x wk = {| window := window (window_at x w);
                         offset_x := window_offset_x w x;
                         offset_y := window_offset_y w x |}) /\
  (forall x, (k <= x)%nat -> window_at x wk = window_at x w).
Proof.
  intros Hsmart (Hgw & Hgh & Hlen & Hwins & Hn & Hrgn).
  induction k as [|k IH]; intros Hk wk.
  - subst wk. simpl. rewrite app_nil_r.
    split; [done|]. split; [done|]. split; [done|]. split; [intros; lia | done].
  - subst wk. rewrite seq_S, foldl_app. simpl.
    destruct IH as (Hu & Hl & Hd & Hlt & Hge); [lia|].
    set (wk := foldl _ w (seq 0 k)) in *.
    pose proof (f_equal gdi Hu) as Hg. pose proof (f_equal settings Hu) as Hs.
    pose proof (f_equal sdl_windows Hu) as Hsw. simpl in Hg, Hs, Hsw.
    destruct (Hwins k) as (sw & Hwin & Hww & Hwh); [lia|].
    assert (window (window_at k wk) = window (window_at k w)) as Hp
      by (by rewrite Hge).
    destruct (window_copies_ext w wk k Hu Hp) as (Hc & Hox & Hoy).
    rewrite <- Hg.
    rewrite (paint_window_unscaled wk k _ _ sw);
      [|congruence | lia | | rewrite Hg; lia | rewrite Hg; lia | lia | lia
       | rewrite Hg; lia | rewrite Hg; exact Hrgn].
    2:{ rewrite Hp. unfold window_of in *. by rewrite Hsw. }
    assert (centering_offset (win_w sw) (gdi_width (gdi wk)) = window_offset_x w k) as ->.
    { rewrite Hg. unfold window_offset_x, SDL_GetWindowSize. by rewrite Hwin. }
    assert (centering_offset (win_h sw) (gdi_height (gdi wk)) = window_offset_y w k) as ->.
    { rewrite Hg. unfold window_offset_y, SDL_GetWindowSize. by rewrite Hwin. }
    rewrite Hp.
    split; [|split; [|split; [|split]]].
    + rewrite <- Hu. done.
    + simpl. rewrite length_insert. done.
    + cbn [drawn with_drawn]. rewrite Hd, <- app_assoc. f_equal.
      rewrite flat_map_app. simpl. rewrite app_nil_r. f_equal.
      unfold window_copies, invalid_regions. by rewrite Hg.
    + intros x Hxk. destruct (decide (x = k)) as [->|Hne].
      * change (window_at k (set_window_at k
                  {| window := window (window_at k w);
                     offset_x := window_offset_x w k;
                     offset_y := window_offset_y w k |} wk) = 
                {| window := window (window_at k w);
                   offset_x := window_offset_x w k;
                   offset_y := window_offset_y w k |}).
        apply window_at_set. lia.
      * unfold window_at. simpl. rewrite list_lookup_insert_ne by done.
        apply Hlt. lia.
    + intros x Hxk. unfold window_at. simpl. rewrite list_lookup_insert_ne by lia.
      apply Hge. lia.
Qed.

(** C7: in the unscaled (non-SmartSizing) path of sdl_end_paint_process, for
    every window and on each axis the offset is (windowSize -
    framebufferSize)/2, rounded down, when the window is larger than the
    framebuffer and 0 otherwise; and the surface calls made are, window by
    window, one unscaled copy of each invalid rectangle to that rectangle
    translated by the window's offsets, followed by the window's update. *)
Theorem sdl_end_paint_process_unscaled (w : world) :
  SmartSizing (settings w) = false ->
  suppressOutput (gdi w) = false -> invalid_null (gdi w) = false ->
  1 <= ninvalid (gdi w) ->
  geometry_ok w ->
  let w' := snd (sdl_end_paint_process w) in
  (forall x, (x < windowCount (sdl w))%nat ->
     window_at x w' =
     {| window := window (window_at x w);
        offset_x := centering_offset (fst (SDL_GetWindowSize (window (window_at x w)) w))
                                     (gdi_width (gdi w));
        offset_y := centering_offset (snd (SDL_GetWindowSize (window (window_at x w)) w))
                                     (gdi_height (gdi w)) |}) /\
  drawn w' = drawn w ++ flat_map (window_copies w) (seq 0 (windowCount (sdl w))).
Proof.
  intros Hsmart Hsup Hnull Hn Hgeo w'. subst w'.
  unfold sdl_end_paint_process. rewrite Hsup, Hnull. cbn [orb].
  destruct (Z.ltb_spec (ninvalid (gdi w)) 1) as [|_]; [lia|].
  destruct (compositing_loop_unscaled w (windowCount (sdl w)) Hsmart Hgeo (le_n _))
    as (_ & _ & Hd & Hlt & _).
  set (wk := foldl _ w _) in *.
  assert (forall h, drawn (SetEvent h wk).2 = drawn wk /\
                    windows (sdl (SetEvent h wk).2) = windows (sdl wk)) as Hset.
  { intros h. unfold SetEvent. destruct h as [i|]; [|done].
    by destruct (events wk !! i). }
  destruct (Hset (update_complete (sdl wk))) as [Hsd Hsw].
  split.
  - intros x Hx. specialize (Hlt x Hx). unfold window_at in *.
    simpl. simpl in Hsw. by rewrite Hsw.
  - simpl. simpl in Hsd. by rewrite Hsd.
Qed.

(** The frame of two rectangles in a 1280x768 window. *)
Lemma frame_world_geometry_ok : geometry_ok frame_world.
Proof.
  unfold geometry_ok, INT32_MAX. simpl.
  split; [lia|]. split; [lia|]. split; [lia|]. split; [|split; [lia|]].
  - intros x Hx. assert (x = 0%nat) as -> by lia.
    eexists. split; [reflexivity|]. simpl. lia.
  - repeat constructor; simpl; lia.
Qed.

Lemma sdl_end_paint_process_signals_gate_witness :
  exists w', sdl_end_paint_process frame_world = (true, w') /\
             signaled_at (update_complete (sdl w')) w' = Some true.
Proof.
  destruct (sdl_end_paint_process_signals_gate frame_world) as (w' & Hrun & Hgate & _).
  - vm_compute. eauto.
  - exists w'. split; [exact Hrun | exact Hgate].
Defined.

Lemma sdl_end_paint_process_unscaled_witness :
  window_at 0 (snd (sdl_end_paint_process frame_world))
  = {| window := Some 0%nat; offset_x := 128; offset_y := 0 |} /\
  drawn (snd (sdl_end_paint_process frame_world))
  = [ SDL_SetClipRect_primary {| rect_x := 10; rect_y := 20; rect_w := 100; rect_h := 50 |};
      SDL_BlitSurface (Some 0%nat)
        {| rect_x := 10; rect_y := 20; rect_w := 100; rect_h := 50 |}
        {| rect_x := 138; rect_y := 20; rect_w := 100; rect_h := 50 |};
      SDL_SetClipRect_primary {| rect_x := 0; rect_y := 0; rect_w := 1024; rect_h := 768 |};
      SDL_BlitSurface (Some 0%nat)
        {| rect_x := 0; rect_y := 0; rect_w := 1024; rect_h := 768 |}
        {| rect_x := 128; rect_y := 0; rect_w := 1024; rect_h := 768 |};
      SDL_UpdateWindowSurface (Some 0%nat) ].
Proof.
  destruct (sdl_end_paint_process_unscaled frame_world eq_refl eq_refl eq_refl
              ltac:(simpl; lia) frame_world_geometry_ok) as [Hoffsets Hdrawn].
  split.
  - apply (Hoffsets 0%nat). simpl. lia.
  - exact Hdrawn.
Defined.

(** *** The window flags *)

(** The command loops: every window's command is enqueued, in order, when the
    queue has room for all of them; otherwise the loop gives up with the
    queue full, having enqueued the commands of fewer windows.  Either way
    only the queue changes. *)
Lemma update_resizeable_loop_spec (use : bool) (xs : list nat) :
  forall (w : world) (ok : bool) (w' : world),
  update_resizeable_loop use xs w = (ok, w') ->
  sdl w' = sdl w /\ settings w' = settings w /\ queue_limit w' = queue_limit w /\
  if ok then event_queue w' = event_queue w ++ (resizeable_command w use <$> xs)
  else exists k, (k < length xs)%nat /\
         event_queue w' = event_queue w ++ (resizeable_command w use <$> take k xs) /\
         (queue_limit w' <= length (event_queue w'))%nat.
Proof.
  induction xs as [|x xs IH].
  - intros w ok w' [= <- <-]. simpl. by rewrite app_nil_r.
  - command_loop_tac IH.
Qed.

Lemma update_fullscreen_loop_spec (enter : bool) (xs : list nat) :
  forall (w : world) (ok : bool) (w' : world),
  update_fullscreen_loop enter xs w = (ok, w') ->
  sdl w' = sdl w /\ settings w' = settings w /\ queue_limit w' = queue_limit w /\
  if ok then event_queue w' = event_queue w ++ (fullscreen_command w enter <$> xs)
  else exists k, (k < length xs)%nat /\
         event_queue w' = event_queue w ++ (fullscreen_command w enter <$> take k xs) /\
         (queue_limit w' <= length (event_queue w'))%nat.
Proof.
  induction xs as [|x xs IH].
  - intros w ok w' [= <- <-]. simpl. by rewrite app_nil_r.
  - command_loop_tac IH.
Qed.

(** C10: update_resizeable and update_fullscreen write sdl->resizeable
    (respectively sdl->fullscreen) only after the command of every window was
    enqueued: when they return TRUE all the commands are in the queue, in
    window order, and the flag holds the new value; when an enqueue fails (the
    queue is full after the commands of fewer windows) they return FALSE and
    the flag keeps its previous value. *)
Theorem update_flags_after_all_enqueued (w : world) (enable enter : bool) :
  (let '(ok, w') := update_resizeable w enable in
   let use := DynamicResolutionUpdate (settings w) && enable || SmartSizing (settings w) in
   fullscreen (sdl w') = fullscreen (sdl w) /\
   if ok then
     resizeable (sdl w') = use /\
     event_queue w' = event_queue w
                      ++ (resizeable_command w use <$> seq 0 (windowCount (sdl w)))
   else
     resizeable (sdl w') = resizeable (sdl w) /\
     exists k, (k < windowCount (sdl w))%nat /\
       event_queue w' = event_queue w ++ (resizeable_command w use <$> seq 0 k) /\
       (queue_limit w' <= length (event_queue w'))%nat) /\
  (let '(ok, w') := update_fullscreen w enter in
   resizeable (sdl w') = resizeable (sdl w) /\
   if ok then
     fullscreen (sdl w') = enter /\
     event_queue w' = event_queue w
                      ++ (fullscreen_command w enter <$> seq 0 (windowCount (sdl w)))
   else
     fullscreen (sdl w') = fullscreen (sdl w) /\
     exists k, (k < windowCount (sdl w))%nat /\
       event_queue w' = event_queue w ++ (fullscreen_command w enter <$> seq 0 k) /\
       (queue_limit w' <= length (event_queue w'))%nat).
Proof.
  split.
  - unfold update_resizeable.
    destruct (update_resizeable_loop _ _ w) as [ok w1] eqn:Hloop.
    apply update_resizeable_loop_spec in Hloop.
    destruct Hloop as (Hsdl & _ & _ & Hqueue).
    destruct ok; simpl.
    + rewrite Hsdl. done.
    + rewrite Hsdl. split; [done|]. split; [done|].
      destruct Hqueue as (k & Hk & Hqueue & Hfull). rewrite length_seq in Hk.
      exists k. split; [done|]. split; [|done]. rewrite Hqueue. do 2 f_equal.
      rewrite take_seq. f_equal. lia.
  - unfold update_fullscreen.
    destruct (update_fullscreen_loop _ _ w) as [ok w1] eqn:Hloop.
    apply update_fullscreen_loop_spec in Hloop.
    destruct Hloop as (Hsdl & _ & _ & Hqueue).
    destruct ok; simpl.
    + rewrite Hsdl. done.
    + rewrite Hsdl. split; [done|]. split; [done|].
      destruct Hqueue as (k & Hk & Hqueue & Hfull). rewrite length_seq in Hk.
      exists k. split; [done|]. split; [|done]. rewrite Hqueue. do 2 f_equal.
      rewrite take_seq. f_equal. lia.
Qed.

Example update_fullscreen_on_full_queue :
  let w := with_event_queue (replicate 128 SDL_USEREVENT_UPDATE) windowed0 in
  fullscreen (sdl w) = false /\
  fst (update_fullscreen w true) = false /\
  fullscreen (sdl (snd (update_fullscreen w true))) = false.
Proof. vm_compute. done. Qed.

(** *** The start-up handshake *)

(** C2: sdl_wait_create_windows does not wait for the windows.  In the start-up
    schedule -- the protocol thread calls sdl_wait_for_init and blocks, the UI
    thread leaves its wait in sdl_run, initialises the toolkit and sets
    initialized, the protocol thread resumes -- the call that follows,
    sdl_wait_create_windows, returns TRUE at once with the abort event unset:
    it waits on initialized, which is still set, not on windows_created.  At
    that point the CreateWindows command is still queued, windows_created is
    unset, no toolkit window exists, windowCount is 0 and the window pointer
    is NULL, so the update_resizeable that follows finds no window to address.
    Only when the UI thread takes the command from the queue does the window
    exist. *)
Theorem sdl_wait_create_windows_returns_before_windows_exist :
  exists w1 w2 w3 w4,
    (* protocol thread: sets initialize, blocks on initialized *)
    sdl_wait_for_init session0 = Blocked w1 /\
    (* UI thread: SDL_Init, sets initialized, enters its loop *)
    sdl_run_enter w1 = Returned None w2 /\
    (* protocol thread: the wait of sdl_wait_for_init returns TRUE *)
    wait_initialized w2 = Returned true w2 /\
    (* protocol thread, in sdl_post_connect *)
    sdl_wait_create_windows w2 = Returned true w3 /\
    signaled_at (abort_event w3) w3 = Some false /\
    signaled_at (windows_created (sdl w3)) w3 = Some false /\
    event_queue w3 = [SDL_USEREVENT_CREATE_WINDOWS] /\
    sdl_windows w3 = [] /\
    windowCount (sdl w3) = 0%nat /\
    window (window_at 0 w3) = None /\
    update_resizeable w3 false = (true, w3) /\
    (* UI thread: the next turn of its loop creates the window *)
    sdl_run_poll w3 = Some w4 /\
    signaled_at (windows_created (sdl w4)) w4 = Some true /\
    windowCount (sdl w4) = 1%nat /\
    window (window_at 0 w4) = Some 0%nat.
Proof.
  do 4 eexists.
  split; [vm_compute; reflexivity|].
  split; [vm_compute; reflexivity|].
  split; [vm_compute; reflexivity|].
  split; [vm_compute; reflexivity|].
  split; [reflexivity|].
  split; [reflexivity|].
  split; [reflexivity|].
  split; [reflexivity|].
  split; [reflexivity|].
  split; [reflexivity|].
  split; [vm_compute; reflexivity|].
  split; [vm_compute; reflexivity|].
  done.
Qed.

(** The same in any state: once initialized is set -- and nothing ever resets
    it -- sdl_wait_create_windows returns TRUE as soon as it has queued the
    command, whatever the UI thread has done about it. *)
Lemma sdl_wait_create_windows_does_not_wait (w : world) :
  event_of (initialized (sdl w)) (events w)
    = Some {| manual_reset := true; signaled := true |} ->
  initialized (sdl w) <> windows_created (sdl w) ->
  is_Some (event_of (windows_created (sdl w)) (events w)) ->
  is_Some (event_of (abort_event w) (events w)) ->
  (length (event_queue w) < queue_limit w)%nat ->
  exists w', sdl_wait_create_windows w = Returned true w' /\
    event_queue w' = event_queue w ++ [SDL_USEREVENT_CREATE_WINDOWS] /\
    signaled_at (windows_created (sdl w')) w' = Some false /\
    sdl w' = sdl w /\ sdl_windows w' = sdl_windows w.
Proof.
  intros Hinit Hne Hcreated Habort Hroom.
  unfold sdl_wait_create_windows.
  destruct (ResetEvent_valid _ _ Hcreated) as (w1 & -> & Hsig & i & e & Hh & He & ->).
  simpl. unfold sdl_push_user_event. simpl.
  destruct (Nat.ltb_spec (length (event_queue w)) (queue_limit w)) as [_|]; [|lia].
  simpl. unfold wait_initialized. simpl.
  destruct (initialized (sdl w)) as [j|] eqn:Hj; [|done]. simpl in Hinit.
  assert (i <> j) as Hij by congruence.
  rewrite wait_first_signaled.
  - simpl. eexists. split; [done|]. simpl. split; [done|].
    split; [|done]. rewrite Hh. unfold signaled_at. simpl.
    rewrite list_lookup_insert_eq; [done|]. by eapply lookup_lt_Some.
  - simpl. by rewrite list_lookup_insert_ne.
  - simpl. destruct (abort_event w) as [a|]; [|by destruct Habort].
    simpl in *. destruct (decide (i = a)) as [->|Hia].
    + rewrite list_lookup_insert_eq; [eauto|]. by eapply lookup_lt_Some.
    + by rewrite list_lookup_insert_ne.
Qed.

(** *** Pre-connect in authentication-only mode *)

(** C8 (as amended): with authentication-only mode set and no password,
    sdl_pre_connect returns FALSE without waiting: no event is signaled, no
    command is enqueued, no window is created and the monitors are not
    queried; what it has done by then is set highDpi, write the two OS
    identifiers and subscribe the two channel listeners. *)
Theorem sdl_pre_connect_auth_only_without_password
    (sdl_detect_monitors : world -> bool * (Z * Z) * world) (w : world) :
  AuthenticationOnly (settings w) = true ->
  Password (settings w) = None ->
  exists w',
    sdl_pre_connect sdl_detect_monitors w = Returned false w' /\
    events w' = events w /\ event_queue w' = event_queue w /\
    sdl_windows w' = sdl_windows w /\ video_init w' = video_init w /\
    windows (sdl w') = windows (sdl w) /\ windowCount (sdl w') = windowCount (sdl w) /\
    drawn w' = drawn w /\ gdi w' = gdi w /\
    sdl w' = with_highDpi true (sdl w) /\
    settings w' = set_os_type OSMAJORTYPE_UNIX OSMINORTYPE_NATIVE_SDL (settings w) /\
    ChannelConnected (pubSub w')
      = ChannelConnected (pubSub w) ++ [sdl_OnChannelConnectedEventHandler] /\
    ChannelDisconnected (pubSub w')
      = ChannelDisconnected (pubSub w) ++ [sdl_OnChannelDisconnectedEventHandler].
Proof.
  intros Hauth Hpw. unfold sdl_pre_connect. simpl.
  rewrite Hauth, Hpw. simpl. eexists. split; [reflexivity|]. simpl.
  repeat split.
Qed.

(** On a session configured for authentication only, without password. *)
Lemma sdl_pre_connect_auth_only_without_password_witness :
  exists w', sdl_pre_connect one_monitor auth_only_world = Returned false w' /\
             events w' = events auth_only_world /\
             event_queue w' = [] /\ sdl_windows w' = [].
Proof.
  destruct (sdl_pre_connect_auth_only_without_password one_monitor auth_only_world
              eq_refl eq_refl) as (w' & Hrun & Hev & Hq & Hwin & _).
  exists w'. split; [exact Hrun|]. split; [exact Hev|]. split; [exact Hq | exact Hwin].
Defined.

(** C8 as stated fails: the call that rejects the configuration has already
    subscribed the channel listeners (the ones sdl_post_disconnect
    unsubscribes), so it does leave state behind. *)
Lemma sdl_pre_connect_leaves_subscriptions :
  ~ (forall (sdl_detect_monitors : world -> bool * (Z * Z) * world) (w : world),
       AuthenticationOnly (settings w) = true -> Password (settings w) = None ->
       exists w', sdl_pre_connect sdl_detect_monitors w = Returned false w' /\
                  pubSub w' = pubSub w).
Proof.
  intros Hclaim.
  destruct (Hclaim one_monitor auth_only_world eq_refl eq_refl) as (w' & Hrun & Hsubs).
  vm_compute in Hrun. injection Hrun as <-. vm_compute in Hsubs. discriminate Hsubs.
Qed.

(** *** The coordinate scaler *)

(** Truncation, rounding down and rounding to nearest are roundings of the
    ratio. *)
Lemma scale_axis_ratio_rounding : ratio_rounding scale_axis.
Proof.
  intros W F v HW HF. unfold scale_axis. split.
  - pose proof (Z.quot_rem' (v * W) F) as Hq.
    pose proof (Z.rem_bound_abs (v * W) F ltac:(lia)) as Hr. lia.
  - pose proof (Z.quot_rem' (v * F) W) as Hq.
    pose proof (Z.rem_bound_abs (v * F) W ltac:(lia)) as Hr. lia.
Qed.

Lemma scale_axis_floor_ratio_rounding : ratio_rounding scale_axis_floor.
Proof.
  intros W F v HW HF. unfold scale_axis_floor. split.
  - pose proof (Z.div_mod (v * W) F ltac:(lia)) as Hq.
    pose proof (Z.mod_pos_bound (v * W) F HF) as Hr. lia.
  - pose proof (Z.div_mod (v * F) W ltac:(lia)) as Hq.
    pose proof (Z.mod_pos_bound (v * F) W HW) as Hr. lia.
Qed.

Lemma scale_axis_nearest_ratio_rounding : ratio_rounding scale_axis_nearest.
Proof.
  intros W F v HW HF. unfold scale_axis_nearest. split.
  - pose proof (Z.div_mod (2 * (v * W) + F) (2 * F) ltac:(lia)) as Hq.
    pose proof (Z.mod_pos_bound (2 * (v * W) + F) (2 * F) ltac:(lia)) as Hr. lia.
  - pose proof (Z.div_mod (2 * (v * F) + W) (2 * W) ltac:(lia)) as Hq.
    pose proof (Z.mod_pos_bound (2 * (v * F) + W) (2 * W) ltac:(lia)) as Hr. lia.
Qed.

(** One axis, whatever the rounding: for the sizes of
    [round_trip_guaranteed], forward then inverse is within one unit. *)
Lemma ratio_round_trip (scale : axis_scaler) (windowSize framebufferSize v : Z) :
  ratio_rounding scale ->
  round_trip_guaranteed windowSize framebufferSize ->
  Z.abs (scale true windowSize framebufferSize
           (scale false windowSize framebufferSize v) - v) <= 1.
Proof.
  intros Hscale (HF & HW & Hsize).
  destruct (Hscale windowSize framebufferSize v HW HF) as [Hfwd _].
  set (u := scale false windowSize framebufferSize v) in *.
  destruct (Hscale windowSize framebufferSize u HW HF) as [_ Hinv].
  set (r := scale true windowSize framebufferSize u) in *.
  apply Z.abs_lt in Hfwd. apply Z.abs_lt in Hinv. apply Z.abs_le.
  destruct (Z_le_gt_dec framebufferSize windowSize) as [Hle|Hgt].
  - (* the window is at least as large *)
    assert (- (2 * windowSize) < (r - v) * windowSize < 2 * windowSize) by lia.
    nia.
  - destruct Hsize as [?|[k Hk]]; [lia|].
    (* framebuffer = (k+1) g, window = k g *)
    set (g := framebufferSize - windowSize) in *.
    assert (0 < g) as Hg by lia.
    assert (0 < k) as Hkpos by nia.
    assert (framebufferSize = (k + 1) * g) as HFg by lia.
    rewrite HFg, Hk in Hfwd, Hinv.
    assert (- (k + 1) < u * (k + 1) - v * k < k + 1) as Ht by nia.
    assert (- k < r * k - u * (k + 1) < k) as Hs by nia.
    assert (- (2 * k) < (r - v) * k < 2 * k) by lia.
    nia.
Qed.

(** One axis, whatever the rounding: when the framebuffer is four or more
    times the window, the coordinate 2 comes back at least two units off.
    (It goes to 0 or 1, which come back as 0 and as about the ratio.) *)
Lemma ratio_round_trip_fails (scale : axis_scaler) (windowSize framebufferSize : Z) :
  ratio_rounding scale ->
  0 < windowSize -> 4 * windowSize <= framebufferSize ->
  2 <= Z.abs (scale true windowSize framebufferSize
                (scale false windowSize framebufferSize 2) - 2).
Proof.
  intros Hscale HW HF.
  destruct (Hscale windowSize framebufferSize 2 HW ltac:(lia)) as [Hfwd _].
  set (u := scale false windowSize framebufferSize 2) in *.
  destruct (Hscale windowSize framebufferSize u HW ltac:(lia)) as [_ Hinv].
  set (r := scale true windowSize framebufferSize u) in *.
  apply Z.abs_lt in Hfwd. apply Z.abs_lt in Hinv.
  assert (u = 0 \/ u = 1) as [Hu|Hu] by nia; rewrite Hu in Hinv.
  - assert (r = 0) as -> by nia. lia.
  - assert (4 <= r) by nia. lia.
Qed.

(** C9 (as amended): whatever rounding the scaler uses, for a window that on
    each axis is at least as large as the framebuffer, or smaller with
    framebuffer : window = k+1 : k, the forward transform followed by the
    inverse transform yields, for every point, a point that differs from it
    by at most 1 unit on each axis. *)
Theorem scale_round_trip_within_one (scale : axis_scaler) (w : world) (windowId : nat)
    (win : sdl_window_t) (x y : Z) :
  ratio_rounding scale ->
  find_window windowId (seq 0 (windowCount (sdl w))) w = Some win ->
  round_trip_guaranteed (fst (SDL_GetWindowSize (window win) w)) (gdi_width (gdi w)) ->
  round_trip_guaranteed (snd (SDL_GetWindowSize (window win) w)) (gdi_height (gdi w)) ->
  Z.abs (fst (scale_round_trip_with scale w windowId x y) - x) <= 1 /\
  Z.abs (snd (scale_round_trip_with scale w windowId x y) - y) <= 1.
Proof.
  intros Hscale Hwin Hw Hh.
  unfold scale_round_trip_with, sdl_scale_coordinates_with. rewrite Hwin.
  destruct (SDL_GetWindowSize (window win) w) as [ww wh]. simpl in *.
  split; by apply ratio_round_trip.
Qed.

(** A 1024x768 framebuffer in a 1280x768 window, with truncation. *)
Lemma scale_round_trip_within_one_witness :
  Z.abs (fst (scale_round_trip_with scale_axis frame_world 1 1023 767) - 1023) <= 1 /\
  Z.abs (snd (scale_round_trip_with scale_axis frame_world 1 1023 767) - 767) <= 1.
Proof.
  apply (scale_round_trip_within_one scale_axis frame_world 1
           {| window := Some 0%nat; offset_x := 0; offset_y := 0 |} 1023 767).
  - exact scale_axis_ratio_rounding.
  - reflexivity.
  - simpl. unfold round_trip_guaranteed. lia.
  - simpl. unfold round_trip_guaranteed. lia.
Defined.

Example scale_round_trip_of_1023_767 :
  scale_round_trip_with scale_axis frame_world 1 1023 767 = (1022, 767).
Proof. reflexivity. Qed.

(** Between the two, the rounding decides.  A 1920x1080 framebuffer in a
    640x480 window: the point (1919, 1079) comes back as (1917, 1077) with
    truncation and as (1920, 1080) with rounding to nearest. *)
Example scale_round_trip_depends_on_rounding :
  scale_round_trip_with scale_axis downscaled_world 1 1919 1079 = (1917, 1077) /\
  scale_round_trip_with scale_axis_nearest downscaled_world 1 1919 1079 = (1920, 1080).
Proof. split; reflexivity. Qed.

(** The sizes of [round_trip_guaranteed] cannot be widened for truncation:
    with framebuffer : window = 5 : 3 the coordinate 3 comes back as 1. *)
Example scale_axis_round_trip_5_3 :
  scale_axis true 3 5 (scale_axis false 3 5 3) = 1.
Proof. reflexivity. Qed.

(** C9 as stated fails whatever the rounding: no scaler that rounds the ratio
    keeps every point of a 1920x1080 framebuffer within one unit through a
    480x270 window (the point (2, 2) comes back at least two units off on
    each axis). *)
Lemma scale_round_trip_quarter_window :
  ~ (exists scale : axis_scaler, ratio_rounding scale /\
       forall x y : Z,
         Z.abs (fst (scale_round_trip_with scale quarter_world 1 x y) - x) <= 1 /\
         Z.abs (snd (scale_round_trip_with scale quarter_world 1 x y) - y) <= 1).
Proof.
  intros (scale & Hscale & Hclaim).
  destruct (Hclaim 2 2) as [Hx _].
  pose proof (ratio_round_trip_fails scale 480 1920 Hscale ltac:(lia) ltac:(lia)) as Hoff.
  change (fst (scale_round_trip_with scale quarter_world 1 2 2))
    with (scale true 480 1920 (scale false 480 1920 2)) in Hx.
  lia.
Qed.

(** *** A frame cycle *)

(** Spec 8, scenario 2: the first sdl_begin_paint succeeds; the decoder marks
    two rectangles; sdl_end_paint queues the frame; the UI thread composites
    both rectangles onto the window and sets the frame gate; the next
    sdl_begin_paint succeeds at once.  Without the UI thread's turn it would
    block. *)
Example frame_cycle :
  exists w1 w2 w3 w4,
    sdl_begin_paint windowed0 = Returned true w1 /\
    sdl_end_paint (with_gdi frame_gdi w1) = (true, w2) /\
    sdl_begin_paint w2 = Blocked w2 /\
    sdl_run_poll w2 = Some w3 /\
    length (drawn w3) = 5%nat /\
    sdl_begin_paint w3 = Returned true w4.
Proof.
  do 4 eexists.
  split; [vm_compute; reflexivity|].
  split; [vm_compute; reflexivity|].
  split; [vm_compute; reflexivity|].
  split; [vm_compute; reflexivity|].
  split; [reflexivity|].
  vm_compute; reflexivity.
Qed.

(** ** Part III: further properties of the code *)

(** *** The exit-code table, continued *)

(** Every exit code is a byte. *)
Lemma exit_code_value_range (y : SDL_EXIT_CODE) : 0 <= exit_code_value y <= 255.
Proof. destruct y; simpl; lia. Qed.

Section exit_code_map_more.
Context `{freerdp_error}.

(** No enumerator's value is looked up in vain. *)
Lemma sdl_map_to_code_tag_found (y : SDL_EXIT_CODE) :
  sdl_map_to_code_tag (exit_code_value y) <> None.
Proof. destruct y; discriminate. Qed.

(** X1: the table holds every enumerator of SDL_EXIT_CODE: for each of them
    sdl_map_to_code_tag, applied to its value, returns its name. *)
Theorem sdl_map_to_code_tag_of_enumerator (y : SDL_EXIT_CODE) :
  sdl_map_to_code_tag (exit_code_value y) = Some (exit_code_name y).
Proof. destruct y; reflexivity. Qed.

(** The entries of the table carry the codes of enumerators only. *)
Lemma sdl_exit_code_map_code (entry : sdl_exit_code_map_t) :
  entry ∈ sdl_exit_code_map -> exists y, code entry = exit_code_value y.
Proof.
  intros Hin. pose proof sdl_exit_code_map_entries as Hall.
  rewrite Forall_forall in Hall. destruct (Hall entry Hin) as (y & Hy & _). eauto.
Qed.

(** X2: sdl_map_to_code_tag returns NULL exactly for the codes that are the
    value of no enumerator of SDL_EXIT_CODE. *)
Theorem sdl_map_to_code_tag_NULL (c : Z) :
  sdl_map_to_code_tag c = None <-> forall y, exit_code_value y <> c.
Proof.
  split.
  - intros Hnone y <-. exact (sdl_map_to_code_tag_found y Hnone).
  - intros Hno. unfold sdl_map_to_code_tag, sdl_map_entry_by_code.
    destruct (map_scan _ sdl_exit_code_map _ 0) as [cur|] eqn:Hscan; [|done].
    apply map_scan_Some in Hscan. destruct Hscan as (i & Hi & Ht & _).
    simpl in Ht. apply Z.eqb_eq in Ht.
    destruct (sdl_exit_code_map_code cur) as [y Hy].
    + apply list_elem_of_lookup. eauto.
    + destruct (Hno y). congruence.
Qed.

(** The only entry with exit code 0 is the first, for FREERDP_ERROR_SUCCESS. *)
Lemma sdl_exit_code_map_code_0 (entry : sdl_exit_code_map_t) :
  entry ∈ sdl_exit_code_map -> code entry = 0 -> error entry = FREERDP_ERROR_SUCCESS.
Proof.
  intros Hin Hcode. unfold sdl_exit_code_map in Hin.
  repeat (apply elem_of_cons in Hin as [->|Hin];
          [first [reflexivity | discriminate Hcode]|]).
  by apply elem_of_nil in Hin.
Qed.

(** An error that maps to exit code 0 is FREERDP_ERROR_SUCCESS. *)
Lemma sdl_map_error_to_exit_code_0 (e : DWORD) :
  sdl_map_error_to_exit_code e = 0 -> e = FREERDP_ERROR_SUCCESS.
Proof.
  unfold sdl_map_error_to_exit_code, sdl_map_entry_by_error.
  destruct (map_scan _ sdl_exit_code_map _ 0) as [cur|] eqn:Hscan; [|discriminate].
  apply map_scan_Some in Hscan. destruct Hscan as (i & Hi & Ht & _).
  simpl in Ht. apply Z.eqb_eq in Ht. intros Hcode. rewrite <- Ht.
  apply sdl_exit_code_map_code_0; [|done].
  apply list_elem_of_lookup. eauto.
Qed.

(** X3: sdl_map_error_to_exit_code returns SDL_EXIT_SUCCESS (0) for
    FREERDP_ERROR_SUCCESS and for no other protocol error. *)
Theorem sdl_map_error_to_exit_code_success (e : DWORD) :
  sdl_map_error_to_exit_code e = exit_code_value SDL_EXIT_SUCCESS
  <-> e = FREERDP_ERROR_SUCCESS.
Proof.
  split; [apply sdl_map_error_to_exit_code_0|].
  intros ->. unfold sdl_map_error_to_exit_code, sdl_map_entry_by_error.
  rewrite (map_scan_first _ _ 0%nat (ENTRY FREERDP_ERROR_SUCCESS SDL_EXIT_SUCCESS));
    [done | done | simpl; apply Z.eqb_refl | constructor].
Qed.

(** The exit code of an error is an enumerator's. *)
Lemma sdl_map_error_to_exit_code_enumerator (e : DWORD) :
  exists y, sdl_map_error_to_exit_code e = exit_code_value y.
Proof.
  unfold sdl_map_error_to_exit_code, sdl_map_entry_by_error.
  destruct (map_scan _ sdl_exit_code_map _ 0) as [cur|] eqn:Hscan;
    [|by exists SDL_EXIT_CONN_FAILED].
  apply map_scan_Some in Hscan. destruct Hscan as (i & Hi & _).
  apply sdl_exit_code_map_code. apply list_elem_of_lookup. eauto.
Qed.

(** X4: whatever the protocol error, the exit code sdl_map_error_to_exit_code
    returns is the value of an enumerator of SDL_EXIT_CODE, hence a number
    from 0 to 255. *)
Theorem sdl_map_error_to_exit_code_range (e : DWORD) :
  (exists y, sdl_map_error_to_exit_code e = exit_code_value y) /\
  0 <= sdl_map_error_to_exit_code e <= 255.
Proof.
  destruct (sdl_map_error_to_exit_code_enumerator e) as [y Hy].
  split; [eauto|]. rewrite Hy. apply exit_code_value_range.
Qed.

(** X5: sdl_map_error_to_code_tag returns NULL exactly for the protocol
    errors no entry of the table has; a tag it returns is the tag
    sdl_map_to_code_tag gives for the exit code of that error. *)
Theorem sdl_map_error_to_code_tag_spec (e : DWORD) :
  (sdl_map_error_to_code_tag e = None <->
   forall entry, entry ∈ sdl_exit_code_map -> error entry <> e) /\
  (forall tag, sdl_map_error_to_code_tag e = Some tag ->
               sdl_map_to_code_tag (sdl_map_error_to_exit_code e) = Some tag).
Proof.
  unfold sdl_map_error_to_code_tag, sdl_map_error_to_exit_code, sdl_map_entry_by_error.
  destruct (map_scan _ sdl_exit_code_map _ 0) as [cur|] eqn:Hscan.
  - apply map_scan_Some in Hscan. destruct Hscan as (i & Hi & Ht & _).
    simpl in Ht. apply Z.eqb_eq in Ht.
    assert (cur ∈ sdl_exit_code_map) as Hin by (apply list_elem_of_lookup; eauto).
    split.
    + split; [discriminate|]. intros Hno. destruct (Hno cur Hin Ht).
    + intros tag [= <-]. by apply sdl_map_to_code_tag_entry.
  - split; [|discriminate]. split; [|done].
    intros _ entry Hin. apply (map_scan_None _ _ entry) in Hscan; [|done].
    simpl in Hscan. lia.
Qed.

End exit_code_map_more.

(** X6: with the error codes of freerdp/error.h, the tag that the debug line
    of error_info_to_error prints is NULL for every exit code it returns but
    SDL_EXIT_SUCCESS: it looks the exit code up as if it were a protocol
    error. *)
Theorem error_info_to_error_logged_tag (error_info : DWORD) :
  let '(exit_code, code, tag) := @error_info_to_error freerdp_error_h error_info in
  code = error_info /\
  exit_code = @sdl_map_error_to_exit_code freerdp_error_h error_info /\
  tag = if exit_code =? 0 then Some "SDL_EXIT_SUCCESS"%string else None.
Proof.
  unfold error_info_to_error. split; [done|]. split; [done|].
  unfold sdl_map_error_to_exit_code at 1 2, sdl_map_entry_by_error.
  destruct (map_scan _ sdl_exit_code_map _ 0) as [cur|] eqn:Hscan; [|reflexivity].
  apply map_scan_Some in Hscan. destruct Hscan as (i & Hi & _).
  apply list_elem_of_lookup_2 in Hi. unfold sdl_exit_code_map in Hi.
  repeat (apply elem_of_cons in Hi as [->|Hi]; [reflexivity|]).
  by apply elem_of_nil in Hi.
Qed.

Example error_info_to_error_logoff_by_user :
  @error_info_to_error freerdp_error_h 0x0000000C = (11, 0x0000000C, None) /\
  @sdl_map_to_code_tag freerdp_error_h 11 = Some "SDL_EXIT_DISCONNECT_BY_USER"%string.
Proof. split; reflexivity. Qed.

(** *** The client thread's exit code *)

Section client_thread_properties.
Context `{freerdp_error}.
Variable ERRINFO_SUCCESS : DWORD.

(** The main loop ends with the exit code it started with or with
    SDL_EXIT_CONN_FAILED. *)
Lemma thread_proc_loop_codes (exit_code : Z) (turns : list loop_turn) (c : Z) :
  thread_proc_loop exit_code turns = Some c ->
  c = exit_code \/ c = exit_code_value SDL_EXIT_CONN_FAILED.
Proof.
  induction turns as [|t turns IH]; simpl; [discriminate|].
  repeat match goal with
         | |- context [if ?b then _ else _] => destruct b
         end;
    first [exact IH | intros [= <-]; auto].
Qed.

(** X7: the main loop of sdl_client_thread_proc leaves the exit code as it
    found it or makes it SDL_EXIT_CONN_FAILED; it is left as found unless the
    loop ends on a WAIT_FAILED that auto-reconnect does not recover from. *)
Theorem thread_proc_loop_exit_code (exit_code : Z) (turns : list loop_turn) (c : Z) :
  thread_proc_loop exit_code turns = Some c ->
  c = exit_code \/
  (c = exit_code_value SDL_EXIT_CONN_FAILED /\
   exists t, t ∈ turns /\ wait_status t = WAIT_FAILED /\ auto_reconnect t = false /\
             turn_error_info t = 0).
Proof.
  induction turns as [|t turns IH]; simpl; [discriminate|].
  destruct (shall_disconnect t); [intros [= <-]; by left|].
  destruct (focus_required t && negb (focus_in_first t)); [intros [= <-]; by left|].
  destruct (focus_required t && negb (focus_in_second t)); [intros [= <-]; by left|].
  destruct (nCount t =? 0); [intros [= <-]; by left|].
  assert (thread_proc_loop exit_code turns = Some c ->
          c = exit_code \/
          c = exit_code_value SDL_EXIT_CONN_FAILED /\
          exists t', t' ∈ t :: turns /\ wait_status t' = WAIT_FAILED /\
                     auto_reconnect t' = false /\ turn_error_info t' = 0) as Hrest.
  { intros Hloop. destruct (IH Hloop) as [->|[-> (t' & Hin & Ht')]]; [by left|].
    right. split; [done|]. exists t'. split; [by apply elem_of_cons; right | done]. }
  destruct (Z.eqb_spec (wait_status t) WAIT_FAILED) as [Hfailed|_].
  - destruct (auto_reconnect t) eqn:Hreconnect; [exact Hrest|].
    destruct (Z.eqb_spec (turn_error_info t) 0) as [Hinfo|_]; intros [= <-]; [|by left].
    right. split; [done|]. exists t. split; [apply elem_of_cons; by left | done].
  - destruct (check_event_handles t); [exact Hrest | intros [= <-]; by left].
Qed.

(** X8: when freerdp_connect fails outside authentication-only mode,
    sdl_client_thread_proc ends without entering its loop and never records
    SDL_EXIT_SUCCESS (given that ERRINFO_SUCCESS and FREERDP_ERROR_SUCCESS are
    the same code, as error.h defines them). *)
Theorem sdl_client_thread_proc_connect_failed (engine : rdp_engine)
    (turns : list loop_turn) (w : world) :
  ERRINFO_SUCCESS = FREERDP_ERROR_SUCCESS ->
  connect_result engine = false ->
  AuthenticationOnly (settings w) = false ->
  exists c, sdl_client_thread_proc ERRINFO_SUCCESS engine turns w = Some (c, w) /\
            c <> exit_code_value SDL_EXIT_SUCCESS.
Proof.
  intros Hsuccess Hrc Hauth. unfold sdl_client_thread_proc.
  rewrite Hrc, Hauth. cbn [negb]. unfold error_info_to_error.
  destruct (Z.eqb_spec (sdl_map_error_to_exit_code (last_error engine))
                       (exit_code_value SDL_EXIT_SUCCESS)) as [Hzero|Hnonzero].
  - destruct (last_error engine =? FREERDP_ERROR_AUTHENTICATION_FAILED);
      [eexists; split; [reflexivity | discriminate]|].
    destruct (Z.eqb_spec (error_info engine) ERRINFO_SUCCESS) as [|Hinfo];
      [eexists; split; [reflexivity | discriminate]|].
    eexists. split; [reflexivity|].
    intros Hinfo'. apply sdl_map_error_to_exit_code_0 in Hinfo'. congruence.
  - destruct (last_error engine =? FREERDP_ERROR_AUTHENTICATION_FAILED);
      [eexists; split; [reflexivity | discriminate]|].
    destruct (error_info engine =? ERRINFO_SUCCESS);
      [eexists; split; [reflexivity | discriminate]|].
    eexists. split; [reflexivity | done].
Qed.

(** X9: every exit code sdl_client_thread_proc records is the value of an
    enumerator of SDL_EXIT_CODE, hence a number from 0 to 255. *)
Theorem sdl_client_thread_proc_exit_code (engine : rdp_engine)
    (turns : list loop_turn) (w : world) (c : Z) (w' : world) :
  sdl_client_thread_proc ERRINFO_SUCCESS engine turns w = Some (c, w') ->
  (exists y, c = exit_code_value y) /\ 0 <= c <= 255.
Proof.
  intros Hproc.
  assert (exists y, c = exit_code_value y) as [y ->];
    [|split; [eauto | apply exit_code_value_range]].
  revert Hproc. unfold sdl_client_thread_proc, error_info_to_error.
  pose proof sdl_map_error_to_exit_code_enumerator as Hmap.
  destruct (AuthenticationOnly (settings w)).
  { intros [= <- _].
    destruct (negb (connect_result engine)); [apply Hmap | exit_code_enumerator]. }
  destruct (connect_result engine); cbn [negb].
  - destruct (thread_proc_loop _ turns) as [c'|] eqn:Hloop; [|discriminate].
    intros [= <- _].
    apply thread_proc_loop_codes in Hloop as [->| ->].
    + rewrite Z.eqb_refl.
      destruct (_ && _); [exit_code_enumerator | apply Hmap].
    + simpl. exit_code_enumerator.
  - destruct (_ =? exit_code_value SDL_EXIT_SUCCESS);
      destruct (last_error engine =? _); intros [= <- _];
      try exit_code_enumerator;
      destruct (_ =? ERRINFO_SUCCESS); first [exit_code_enumerator | apply Hmap].
Qed.

End client_thread_properties.

(** With the codes of error.h (ERRINFO_SUCCESS is 0): a connect that fails
    with nothing recorded ends in SDL_EXIT_CONN_FAILED. *)
Lemma sdl_client_thread_proc_connect_failed_witness :
  exists c, @sdl_client_thread_proc freerdp_error_h 0 engine_failed [] session0
            = Some (c, session0) /\ c <> 0.
Proof.
  apply (@sdl_client_thread_proc_connect_failed freerdp_error_h 0 engine_failed []
           session0); reflexivity.
Defined.

(** A session that connects and is disconnected in the first turn of the
    loop, with the error info ERRINFO_LOGOFF_BY_USER. *)
Lemma sdl_client_thread_proc_exit_code_witness :
  (exists y, 11 = exit_code_value y) /\ 0 <= 11 <= 255.
Proof.
  apply (@sdl_client_thread_proc_exit_code freerdp_error_h 0
           {| connect_result := true; last_error := 0; error_info := 0x0000000C;
              ultimatum_user_requested := false |}
           [turn_disconnect] session0 11 session0).
  reflexivity.
Defined.

Lemma thread_proc_loop_exit_code_witness :
  131 = 0 \/
  (131 = exit_code_value SDL_EXIT_CONN_FAILED /\
   exists t, t ∈ [ {| shall_disconnect := false; focus_required := false;
                      focus_in_first := true; focus_in_second := true; nCount := 1;
                      wait_status := WAIT_FAILED; auto_reconnect := false;
                      turn_error_info := 0; check_event_handles := true |} ] /\
             wait_status t = WAIT_FAILED /\ auto_reconnect t = false /\
             turn_error_info t = 0).
Proof.
  apply (thread_proc_loop_exit_code 0 _ 131). reflexivity.
Defined.

(** *** The frame gate, continued *)

(** A wait on two valid, unsignaled events does not return. *)
Lemma wait_blocked (h1 h2 : HANDLE) (w : world) :
  signaled_at h1 w = Some false -> signaled_at h2 w = Some false ->
  WaitForMultipleObjects [h1; h2] w = None.
Proof.
  unfold signaled_at, WaitForMultipleObjects. intros H1 H2. simpl.
  destruct (event_of h1 (events w)) as [e1|]; [|done].
  destruct (event_of h2 (events w)) as [e2|]; [|done].
  simpl in H1, H2. injection H1 as ->. injection H2 as ->.
  rewrite !bool_decide_eq_true_2 by eauto. done.
Qed.

(** Writing an event keeps every handle valid. *)
Lemma event_of_insert_is_Some (h : HANDLE) (i : nat) (e : event) (evs : list event) :
  is_Some (event_of h evs) -> is_Some (event_of h (<[i := e]> evs)).
Proof.
  destruct h as [j|]; simpl; [|done].
  rewrite !lookup_lt_is_Some, length_insert. done.
Qed.

(** A successful [sdl_begin_paint] leaves the gate unsignaled. *)
Lemma sdl_begin_paint_true_gate (w w' : world) :
  sdl_begin_paint w = Returned true w' ->
  signaled_at (update_complete (sdl w')) w' = Some false.
Proof.
  unfold sdl_begin_paint.
  destruct (WaitForMultipleObjects _ w) as [[status w1]|]; [|done].
  unfold sdl_begin_paint_after_wait.
  destruct (status =? WAIT_OBJECT_0); [|intros [= ?]; done].
  destruct (ResetEvent (update_complete (sdl w1)) w1) as [ok w2] eqn:Hreset.
  destruct ok; simpl; [|intros [= ?]; done].
  intros [= <-]. apply ResetEvent_inv in Hreset.
  destruct Hreset as (i & e & Hh & He & ->). simpl.
  rewrite Hh. unfold signaled_at. simpl.
  rewrite list_lookup_insert_eq; [done|]. by eapply lookup_lt_Some.
Qed.

(** X10: after a sdl_begin_paint that returned TRUE, a second sdl_begin_paint
    blocks as long as the abort event is unset: no second frame starts before
    the compositing pass of the first has set the gate again. *)
Theorem sdl_begin_paint_twice_blocks (w w' : world) :
  sdl_begin_paint w = Returned true w' ->
  signaled_at (abort_event w') w' = Some false ->
  sdl_begin_paint w' = Blocked w'.
Proof.
  intros Hfirst Habort. apply sdl_begin_paint_true_gate in Hfirst.
  unfold sdl_begin_paint. by rewrite wait_blocked.
Qed.

Lemma sdl_begin_paint_twice_blocks_witness :
  exists w', sdl_begin_paint session0 = Returned true w' /\
             sdl_begin_paint w' = Blocked w'.
Proof.
  eexists. split; [reflexivity|].
  apply (sdl_begin_paint_twice_blocks session0); reflexivity.
Defined.

(** X11: once sdl_end_paint_process has run -- whatever it drew -- the next
    sdl_begin_paint returns TRUE without blocking, and starts the frame with
    an empty invalid region. *)
Theorem sdl_begin_paint_after_end_paint_process (w : world) :
  manual_event (update_complete (sdl w)) w ->
  is_Some (event_of (abort_event w) (events w)) ->
  exists w1 w2,
    sdl_end_paint_process w = (true, w1) /\
    sdl_begin_paint w1 = Returned true w2 /\
    invalid_null (gdi w2) = true /\ ninvalid (gdi w2) = 0 /\
    drawn w2 = drawn w1.
Proof.
  intros (g & Hg & Hmanual) Habort. unfold sdl_end_paint_process.
  set (w0 := if suppressOutput (gdi w) || invalid_null (gdi w) then w else _).
  assert (unpainted w0 = unpainted w) as Hu.
  { subst w0. destruct (_ || _); [done|]. destruct (_ <? 1); [done|].
    apply compositing_loop_unpainted. }
  clearbody w0.
  pose proof (unpainted_gate w w0 Hu) as Hgate.
  pose proof (f_equal events Hu) as Hev. pose proof (f_equal abort_event Hu) as Hab.
  simpl in Hev, Hab. rewrite Hg in Hgate.
  destruct (update_complete (sdl w0)) as [i|] eqn:Hi; [|done]. simpl in Hgate.
  unfold SetEvent. rewrite Hgate.
  eexists. eexists. split; [reflexivity|].
  unfold sdl_begin_paint. cbn [sdl update_complete with_events abort_event].
  rewrite Hi.
  rewrite wait_first_signaled.
  - unfold sdl_begin_paint_after_wait. cbn [Z.eqb WAIT_OBJECT_0].
    unfold ResetEvent. cbn [sdl update_complete with_events events]. rewrite Hi.
    rewrite list_lookup_insert_eq by (by eapply lookup_lt_Some).
    cbn [negb]. split; [reflexivity|]. done.
  - cbn [events with_events event_of].
    rewrite list_lookup_insert_eq by (by eapply lookup_lt_Some).
    destruct g as [m s]. simpl in Hmanual. by subst m.
  - cbn [events with_events]. apply event_of_insert_is_Some. by rewrite Hab, Hev.
Qed.

Lemma sdl_begin_paint_after_end_paint_process_witness :
  exists w1 w2,
    sdl_end_paint_process frame_world = (true, w1) /\
    sdl_begin_paint w1 = Returned true w2 /\
    invalid_null (gdi w2) = true /\ ninvalid (gdi w2) = 0 /\
    drawn w2 = drawn w1.
Proof.
  apply (sdl_begin_paint_after_end_paint_process frame_world).
  - eexists. split; reflexivity.
  - vm_compute. eauto.
Defined.

(** *** The start-up handshake, continued *)

(** The five events of a well-formed session, by index. *)
Lemma session_ok_inv (w : world) :
  session_ok w ->
  exists hi hd hu hc ha,
    initialize (sdl w) = Some hi /\ initialized (sdl w) = Some hd /\
    update_complete (sdl w) = Some hu /\ windows_created (sdl w) = Some hc /\
    abort_event w = Some ha /\
    NoDup [hi; hd; hu; hc; ha] /\
    Forall (fun h => exists s, events w !! h = Some {| manual_reset := true; signaled := s |})
           [hi; hd; hu; hc; ha].
Proof.
  unfold session_ok, session_handles, manual_event. intros [Hall Hdup].
  destruct (initialize (sdl w)) as [hi|], (initialized (sdl w)) as [hd|],
    (update_complete (sdl w)) as [hu|], (windows_created (sdl w)) as [hc|],
    (abort_event w) as [ha|];
    repeat (apply Forall_cons in Hall as [(? & ? & ?) Hall]); try done.
  exists hi, hd, hu, hc, ha. repeat (split; [done|]). split.
  - eapply (NoDup_fmap_1 Some), Hdup.
  - repeat (apply Forall_cons; split;
            [match goal with
             | He : event_of (Some ?h) _ = Some ?e, Hm : manual_reset ?e = true
               |- exists s, _ !! ?h = _ =>
                 destruct e as [m s]; simpl in Hm; subst m; exists s; exact He
             end|]).
    constructor.
Qed.

(** [sdl_client_new] makes a well-formed session of a context whose abort
    event is a manual-reset event. *)
Lemma sdl_client_new_session_ok (w0 w : world) :
  sdl_client_new w0 = (true, w) -> manual_event (abort_event w0) w0 -> session_ok w.
Proof.
  intros Hnew (a & Ha & Hm). apply sdl_client_new_true in Hnew.
  destruct Hnew as (Hev & Hi & Hd & Hu & Hc & Hb).
  destruct (abort_event w0) as [ha|] eqn:Hha; [|done]. simpl in Ha.
  pose proof (lookup_lt_Some _ _ _ Ha) as Hlt.
  unfold session_ok, session_handles, manual_event.
  rewrite Hi, Hd, Hu, Hc, Hb, Hev. split.
  - repeat (apply Forall_cons; split); [..|constructor]; simpl.
    + rewrite lookup_app_r by lia. rewrite Nat.sub_diag. eauto.
    + rewrite lookup_app_r by lia.
      replace (S (length (events w0)) - length (events w0))%nat with 1%nat by lia. eauto.
    + rewrite lookup_app_r by lia.
      replace (S (S (length (events w0))) - length (events w0))%nat with 2%nat by lia.
      eauto.
    + rewrite lookup_app_r by lia.
      replace (S (S (S (length (events w0)))) - length (events w0))%nat with 3%nat by lia.
      eauto.
    + rewrite lookup_app_l by lia. eauto.
  - change (NoDup (Some <$> [length (events w0); S (length (events w0));
                             S (S (length (events w0)));
                             S (S (S (length (events w0)))); ha])).
    apply (NoDup_fmap_2 Some).
    repeat (apply NoDup_cons; split; [rewrite ?not_elem_of_cons; repeat split;
                                      first [lia | apply not_elem_of_nil]|]).
    constructor.
Qed.

(** X12: the start-up handshake completes in a well-formed session with
    initialized and abort unset: sdl_wait_for_init signals initialize and
    blocks; sdl_run then leaves its wait, initialises the toolkit, signals
    initialized and enters its loop; the wait of sdl_wait_for_init then
    returns TRUE.  Nothing is queued and no window is made on the way. *)
Theorem handshake_completes (w : world) :
  session_ok w ->
  signaled_at (initialized (sdl w)) w = Some false ->
  signaled_at (abort_event w) w = Some false ->
  exists w1 w2,
    sdl_wait_for_init w = Blocked w1 /\
    sdl_run_enter w1 = Returned None w2 /\
    wait_initialized w2 = Returned true w2 /\
    video_init w2 = true /\
    event_queue w2 = event_queue w /\ sdl_windows w2 = sdl_windows w /\
    sdl w2 = sdl w.
Proof.
  intros Hok Hd Ha.
  destruct (session_ok_inv w Hok)
    as (hi & hd & hu & hc & ha & Ei & Ed & _ & _ & Ea & Hdup & Hall).
  apply Forall_cons in Hall as [[si Hi] Hall]. apply Forall_cons in Hall as [[sd Hhd] Hall].
  apply Forall_cons in Hall as [_ Hall]. apply Forall_cons in Hall as [_ Hall].
  apply Forall_cons in Hall as [[sa Hha] _].
  apply NoDup_cons in Hdup as [Hni Hdup]. apply NoDup_cons in Hdup as [Hnd _].
  repeat rewrite not_elem_of_cons in Hni. repeat rewrite not_elem_of_cons in Hnd.
  destruct Hni as (Hid & _ & _ & Hia & _). destruct Hnd as (_ & _ & Hda & _).
  unfold signaled_at in Hd, Ha. rewrite Ed in Hd. rewrite Ea in Ha. simpl in Hd, Ha.
  rewrite Hhd in Hd. rewrite Hha in Ha. simpl in Hd, Ha.
  injection Hd as ->. injection Ha as ->.
  pose proof (lookup_lt_Some _ _ _ Hi) as Hlti.
  pose proof (lookup_lt_Some _ _ _ Hhd) as Hltd.
  (* the protocol thread *)
  unfold sdl_wait_for_init, SetEvent. rewrite Ei, Hi. cbn [negb].
  set (w1 := with_events _ w).
  unfold wait_initialized at 1.
  change (initialized (sdl w1)) with (initialized (sdl w)).
  change (abort_event w1) with (abort_event w). rewrite Ed, Ea.
  rewrite wait_blocked.
  2:{ unfold signaled_at, w1. simpl. rewrite list_lookup_insert_ne by done.
      by rewrite Hhd. }
  2:{ unfold signaled_at, w1. simpl. rewrite list_lookup_insert_ne by done.
      by rewrite Hha. }
  exists w1. eexists. split; [reflexivity|].
  (* the UI thread *)
  unfold sdl_run_enter.
  change (initialize (sdl w1)) with (initialize (sdl w)).
  change (abort_event w1) with (abort_event w). rewrite Ei, Ea.
  rewrite wait_first_signaled.
  2:{ unfold w1. simpl. by rewrite list_lookup_insert_eq. }
  2:{ unfold w1. simpl. rewrite list_lookup_insert_ne by done. eauto. }
  cbn [Z.eqb WAIT_OBJECT_0]. unfold SetEvent.
  cbn [sdl with_video_init events]. change (initialized (sdl w1)) with (initialized (sdl w)).
  rewrite Ed. unfold w1 at 1. cbn [events with_events].
  rewrite list_lookup_insert_ne by done. rewrite Hhd. cbn [negb].
  split; [reflexivity|].
  (* the protocol thread again *)
  split; [|done].
  unfold wait_initialized. cbn [sdl with_events abort_event].
  change (initialized (sdl (with_video_init true w1))) with (initialized (sdl w)).
  change (abort_event (with_video_init true w1)) with (abort_event w). rewrite Ed, Ea.
  rewrite wait_first_signaled; [done | |].
  - cbn [events with_events event_of].
    rewrite list_lookup_insert_eq; [done|].
    unfold w1. cbn [events with_events]. by rewrite length_insert.
  - cbn [events with_events event_of with_video_init].
    unfold w1. cbn [events with_events].
    rewrite !list_lookup_insert_ne by done. eauto.
Qed.

Lemma session0_ok : session_ok session0.
Proof.
  apply (sdl_client_new_session_ok world0); [reflexivity|].
  eexists. split; reflexivity.
Qed.

Lemma handshake_completes_witness :
  exists w1 w2,
    sdl_wait_for_init session0 = Blocked w1 /\
    sdl_run_enter w1 = Returned None w2 /\
    wait_initialized w2 = Returned true w2 /\
    video_init w2 = true /\
    event_queue w2 = event_queue session0 /\ sdl_windows w2 = sdl_windows session0 /\
    sdl w2 = sdl session0.
Proof.
  apply (handshake_completes session0 session0_ok); reflexivity.
Defined.

(** A wait on two valid handles of which only the second, a manual-reset
    event, is signaled returns [WAIT_OBJECT_0 + 1] and changes nothing. *)
Lemma wait_second_signaled (h1 h2 : HANDLE) (w : world) :
  signaled_at h1 w = Some false ->
  event_of h2 (events w) = Some {| manual_reset := true; signaled := true |} ->
  WaitForMultipleObjects [h1; h2] w = Some (1, w).
Proof.
  unfold signaled_at, WaitForMultipleObjects. intros H1 H2.
  destruct (event_of h1 (events w)) as [e1|] eqn:He1; [|done].
  simpl in H1. injection H1 as H1.
  assert (forallb (fun h => bool_decide (is_Some (event_of h (events w)))) [h1; h2]
          = true) as ->.
  { simpl. rewrite andb_true_r. apply andb_true_iff.
    split; apply bool_decide_eq_true_2; [rewrite He1 | rewrite H2]; eauto. }
  simpl. rewrite He1, H1, H2. simpl. destruct h2 as [i|]; [|done].
  unfold wait_satisfied. simpl in *. by rewrite H2.
Qed.

(** Abort during the handshake, protocol side: [sdl_wait_for_init] has
    signaled initialize and returns FALSE. *)
Lemma sdl_wait_for_init_aborted (w : world) :
  session_ok w ->
  signaled_at (initialized (sdl w)) w = Some false ->
  signaled_at (abort_event w) w = Some true ->
  exists hi ei,
    initialize (sdl w) = Some hi /\ events w !! hi = Some ei /\
    sdl_wait_for_init w
    = Returned false (with_events (<[hi := set_signaled true ei]> (events w)) w).
Proof.
  intros Hok Hd Ha.
  destruct (session_ok_inv w Hok)
    as (hi & hd & hu & hc & ha & Ei & Ed & _ & _ & Ea & Hdup & Hall).
  apply Forall_cons in Hall as [[si Hi] Hall]. apply Forall_cons in Hall as [[sd Hhd] Hall].
  apply Forall_cons in Hall as [_ Hall]. apply Forall_cons in Hall as [_ Hall].
  apply Forall_cons in Hall as [[sa Hha] _].
  apply NoDup_cons in Hdup as [Hni _].
  repeat rewrite not_elem_of_cons in Hni. destruct Hni as (Hid & _ & _ & Hia & _).
  unfold signaled_at in Hd, Ha. rewrite Ed in Hd. rewrite Ea in Ha. simpl in Hd, Ha.
  rewrite Hhd in Hd. rewrite Hha in Ha. simpl in Hd, Ha.
  injection Hd as ->. injection Ha as ->.
  exists hi. eexists. split; [done|]. split; [exact Hi|].
  unfold sdl_wait_for_init, SetEvent. rewrite Ei, Hi. cbn [negb].
  unfold wait_initialized. cbn [sdl with_events abort_event]. rewrite Ed, Ea.
  rewrite wait_second_signaled; [done | |].
  - unfold signaled_at. simpl. rewrite list_lookup_insert_ne by done. by rewrite Hhd.
  - simpl. by rewrite list_lookup_insert_ne.
Qed.

(** X13: abort during the handshake.  When the abort event is set while
    initialized is not, sdl_pre_connect (outside authentication-only mode)
    returns FALSE: it has signaled initialize, but it does not query the
    monitors, leaves the desktop size alone and queues nothing. *)
Theorem sdl_pre_connect_aborted
    (sdl_detect_monitors : world -> bool * (Z * Z) * world) (w : world) :
  AuthenticationOnly (settings w) = false ->
  session_ok w ->
  signaled_at (initialized (sdl w)) w = Some false ->
  signaled_at (abort_event w) w = Some true ->
  exists w',
    sdl_pre_connect sdl_detect_monitors w = Returned false w' /\
    signaled_at (initialize (sdl w')) w' = Some true /\
    DesktopWidth (settings w') = DesktopWidth (settings w) /\
    DesktopHeight (settings w') = DesktopHeight (settings w) /\
    event_queue w' = event_queue w /\ sdl_windows w' = sdl_windows w /\
    video_init w' = video_init w.
Proof.
  intros Hauth Hok Hd Ha. unfold sdl_pre_connect.
  set (w0 := PubSub_SubscribeChannelDisconnected _ _).
  change (AuthenticationOnly (settings w0)) with (AuthenticationOnly (settings w)).
  rewrite Hauth. cbn [negb].
  destruct (sdl_wait_for_init_aborted w0) as (hi & ei & Ei & Hi & ->); [done..|].
  eexists. split; [reflexivity|].
  split; [|done].
  cbn [sdl with_events]. rewrite Ei. unfold signaled_at. simpl.
  rewrite list_lookup_insert_eq; [done|]. by eapply lookup_lt_Some.
Qed.

(** X14: abort before the handshake, UI side.  When the abort event is set
    while initialize is not, sdl_run returns -1 at once: it does not
    initialise the toolkit, signals nothing and cleans nothing up. *)
Theorem sdl_run_enter_aborted (w : world) :
  session_ok w ->
  signaled_at (initialize (sdl w)) w = Some false ->
  signaled_at (abort_event w) w = Some true ->
  sdl_run_enter w = Returned (Some (-1)) w.
Proof.
  intros Hok Hi Ha.
  destruct (session_ok_inv w Hok)
    as (hi & hd & hu & hc & ha & Ei & _ & _ & _ & Ea & _ & Hall).
  do 4 apply Forall_cons in Hall as [_ Hall].
  apply Forall_cons in Hall as [[sa Hha] _].
  unfold sdl_run_enter. rewrite wait_second_signaled; [done | done |].
  rewrite Ea. simpl. unfold signaled_at in Ha. rewrite Ea in Ha. simpl in Ha.
  rewrite Hha in Ha. injection Ha as ->. done.
Qed.

(** The session with the abort event set before anything else happened. *)
Lemma sdl_pre_connect_aborted_witness :
  exists w',
    sdl_pre_connect one_monitor (snd (SetEvent (abort_event session0) session0))
    = Returned false w' /\
    signaled_at (initialize (sdl w')) w' = Some true /\
    DesktopWidth (settings w') = 1024 /\ DesktopHeight (settings w') = 768 /\
    event_queue w' = [] /\ sdl_windows w' = [] /\ video_init w' = false.
Proof.
  apply (sdl_pre_connect_aborted one_monitor (snd (SetEvent (abort_event session0) session0)));
    try reflexivity.
  split.
  - repeat constructor; eexists; split; reflexivity.
  - change (NoDup (Some <$> [1; 2; 3; 4; 0]%nat)). apply (NoDup_fmap_2 Some).
    repeat (apply NoDup_cons; split; [rewrite ?not_elem_of_cons; repeat split;
                                      first [lia | apply not_elem_of_nil]|]).
    constructor.
Defined.

Lemma sdl_run_enter_aborted_witness :
  sdl_run_enter (snd (SetEvent (abort_event session0) session0))
  = Returned (Some (-1)) (snd (SetEvent (abort_event session0) session0)).
Proof.
  apply sdl_run_enter_aborted; try reflexivity.
  split.
  - repeat constructor; eexists; split; reflexivity.
  - change (NoDup (Some <$> [1; 2; 3; 4; 0]%nat)). apply (NoDup_fmap_2 Some).
    repeat (apply NoDup_cons; split; [rewrite ?not_elem_of_cons; repeat split;
                                      first [lia | apply not_elem_of_nil]|]).
    constructor.
Defined.

(** *** Window creation and teardown *)

(** X15: sdl_create_windows sets windowCount to 1 and signals windows_created
    whether or not the window could be made.  It returns TRUE exactly when
    windows[0] holds a window; that window is then a new one, of the desktop
    size cast to int and with the flags of the settings.  When it returns
    FALSE, windowCount is 1 all the same, windows[0] is NULL and the toolkit
    has no new window. *)
Theorem sdl_create_windows_result (w : world) :
  is_Some (event_of (windows_created (sdl w)) (events w)) ->
  (0 < length (windows (sdl w)))%nat ->
  let '(rc, w') := sdl_create_windows w in
  signaled_at (windows_created (sdl w')) w' = Some true /\
  windowCount (sdl w') = 1%nat /\
  (rc = true <-> is_Some (window (window_at 0 w'))) /\
  (rc = true ->
     window_of (window (window_at 0 w')) w = None /\
     window_of (window (window_at 0 w')) w'
       = Some {| win_w := wrap_int32 (DesktopWidth (settings w));
                 win_h := wrap_int32 (DesktopHeight (settings w));
                 win_flags := create_window_flags w |}) /\
  (rc = false -> sdl_windows w' = sdl_windows w).
Proof.
  intros Hcreated Hlen. unfold sdl_create_windows.
  cbn [sdl with_sdl windowCount with_windowCount settings seq].
  cbn [sdl_create_windows_loop]. unfold SDL_CreateWindow.
  cbn [video_init with_sdl sdl_windows].
  assert (forall v l, (0 < length l)%nat ->
            window (default sdl_window_empty (<[0%nat := v]> l !! 0%nat)) = window v)
    as Hread.
  { intros v l Hl. by rewrite list_lookup_insert_eq. }
  destruct (video_init w) eqn:Hvideo.
  - cbn [sdl_create_windows_loop].
    match goal with |- context [SetEvent ?h ?w1] =>
      destruct (SetEvent_valid h w1) as (w' & -> & Hsig & i & e & Hh & He & ->) end.
    { exact Hcreated. }
    cbn [negb]. split; [exact Hsig|]. split; [done|].
    match goal with |- context [window (window_at 0 ?w1)] =>
      assert (window (window_at 0 w1) = Some (length (sdl_windows w))) as -> end.
    { unfold window_at. simpl. by rewrite Hread. }
    split; [by split; eauto|]. split; [|done]. intros _.
    cbn [window_of with_events sdl_windows set_window_at with_sdl with_sdl_windows].
    split.
    + rewrite lookup_ge_None_2; [done|lia].
    + by rewrite list_lookup_middle.
  - match goal with |- context [SetEvent ?h ?w1] =>
      destruct (SetEvent_valid h w1) as (w' & -> & Hsig & i & e & Hh & He & ->) end.
    { exact Hcreated. }
    cbn [negb]. split; [exact Hsig|]. split; [done|].
    match goal with |- context [window (window_at 0 ?w1)] =>
      assert (window (window_at 0 w1) = None) as -> end.
    { unfold window_at. simpl. by rewrite Hread. }
    split; [split; [done|by intros [? ?]]|]. split; [done|]. done.
Qed.

Lemma sdl_create_windows_result_witness :
  signaled_at (windows_created (sdl (snd (sdl_create_windows session0))))
              (snd (sdl_create_windows session0)) = Some true /\
  windowCount (sdl (snd (sdl_create_windows session0))) = 1%nat.
Proof.
  pose proof (sdl_create_windows_result session0) as Hfailed.
  destruct (sdl_create_windows session0) as [rc w'].
  destruct Hfailed as (Hsig & Hcount & _); [vm_compute; eauto | simpl; lia |].
  split; [exact Hsig | exact Hcount].
Defined.

(** The tear-down loop of [sdl_cleanup_sdl] over the first [k] windows. *)
Lemma sdl_cleanup_loop (w : world) (k : nat) :
  (k <= length (windows (sdl w)))%nat ->
  let wk := foldl (fun w x =>
                     let w := SDL_DestroyWindow (window (window_at x w)) w in
                     set_window_at x sdl_window_empty w) w (seq 0 k) in
  (forall x, (x < k)%nat -> window_at x wk = sdl_window_empty /\
                            window_of (window (window_at x w)) wk = None) /\
  (forall x, (k <= x)%nat -> window_at x wk = window_at x w) /\
  (forall win, window_of win wk = None \/ window_of win wk = window_of win w) /\
  length (sdl_windows wk) = length (sdl_windows w) /\
  length (windows (sdl wk)) = length (windows (sdl w)) /\
  with_sdl_windows [] (unpainted wk) = with_sdl_windows [] (unpainted w).
Proof.
  induction k as [|k IH]; intros Hk wk.
  - subst wk. simpl. split; [intros; lia|]. repeat split; auto.
  - subst wk. rewrite seq_S, foldl_app. simpl.
    destruct IH as (Hlt & Hge & Hdead & Hlen & Hlenw & Hrest); [lia|].
    set (wk := foldl _ w (seq 0 k)) in *.
    assert (forall win win', window_of win (SDL_DestroyWindow win' wk) = None \/
                             window_of win (SDL_DestroyWindow win' wk) = window_of win wk)
      as Hdestroy.
    { intros [i|] [j|]; simpl; auto.
      destruct (decide (j = i)) as [->|Hne].
      - left. destruct (sdl_windows wk !! i) eqn:Hi.
        + rewrite list_lookup_insert_eq by (by eapply lookup_lt_Some). done.
        + rewrite list_insert_ge by (by apply lookup_ge_None). by rewrite Hi.
      - right. by rewrite list_lookup_insert_ne. }
    assert (forall win win', window_of win (set_window_at k sdl_window_empty
                                              (SDL_DestroyWindow win' wk))
                             = window_of win (SDL_DestroyWindow win' wk)) as Hset
      by (intros [i|] [j|]; done).
    assert (forall win', sdl (SDL_DestroyWindow win' wk) = sdl wk) as Hsdl
      by (by intros [j|]).
    split; [|split; [|split; [|split; [|split]]]].
    + intros x Hx. destruct (decide (x = k)) as [->|Hne].
      * split.
        -- unfold window_at at 1. simpl. rewrite Hsdl.
           rewrite list_lookup_insert_eq; [done|lia].
        -- rewrite Hset, (Hge k) by lia.
           destruct (window (window_at k w)) as [i|]; [|done]. simpl.
           destruct (sdl_windows wk !! i) eqn:Hi.
           ++ rewrite list_lookup_insert_eq by (by eapply lookup_lt_Some). done.
           ++ rewrite list_insert_ge by (by apply lookup_ge_None). by rewrite Hi.
      * destruct (Hlt x) as [Hempty Hgone]; [lia|]. split.
        -- unfold window_at at 1. simpl. rewrite Hsdl.
           rewrite list_lookup_insert_ne by done. exact Hempty.
        -- rewrite Hset.
           destruct (Hdestroy (window (window_at x w)) (window (window_at k wk)))
             as [->| ->]; done.
    + intros x Hx. unfold window_at at 1. simpl. rewrite Hsdl.
      rewrite list_lookup_insert_ne by lia. apply Hge; lia.
    + intros win. rewrite Hset.
      destruct (Hdestroy win (window (window_at k wk))) as [->| ->]; auto.
    + destruct (window (window_at k wk)); simpl; [rewrite length_insert|]; done.
    + simpl. rewrite Hsdl, length_insert. exact Hlenw.
    + rewrite <- Hrest. by destruct (window (window_at k wk)).
Qed.

(** X16: sdl_cleanup_sdl leaves no window behind: windowCount is 0, every
    entry of sdl->windows below the old count is zeroed, the toolkit window it
    pointed to is destroyed, no other toolkit window is touched except to be
    destroyed, the toolkit is shut down, and the events and the queue are as
    before.  Running it again changes nothing. *)
Theorem sdl_cleanup_sdl_leaves_no_window (w : world) :
  (windowCount (sdl w) <= length (windows (sdl w)))%nat ->
  let w' := sdl_cleanup_sdl w in
  windowCount (sdl w') = 0%nat /\ video_init w' = false /\
  (forall x, (x < windowCount (sdl w))%nat ->
     window_at x w' = sdl_window_empty /\
     window_of (window (window_at x w)) w' = None) /\
  (forall win, window_of win w' = None \/ window_of win w' = window_of win w) /\
  events w' = events w /\ event_queue w' = event_queue w /\
  sdl_cleanup_sdl w' = w'.
Proof.
  intros Hcount w'. subst w'. unfold sdl_cleanup_sdl at 1 2 3 4 5 6 7.
  destruct (sdl_cleanup_loop w (windowCount (sdl w)) Hcount)
    as (Hlt & _ & Hdead & _ & _ & Hrest).
  set (wk := foldl _ w _) in *.
  pose proof (f_equal events Hrest) as Hev.
  pose proof (f_equal event_queue Hrest) as Hq. simpl in Hev, Hq.
  split; [done|]. split; [done|]. split; [exact Hlt|]. split; [exact Hdead|].
  split; [done|]. split; [done|].
  unfold sdl_cleanup_sdl. fold wk. reflexivity.
Qed.

Lemma sdl_cleanup_sdl_leaves_no_window_witness :
  window (window_at 0 windowed0) = Some 0%nat /\
  window_of (Some 0%nat) windowed0 <> None /\
  windowCount (sdl (sdl_cleanup_sdl windowed0)) = 0%nat /\
  window_at 0 (sdl_cleanup_sdl windowed0) = sdl_window_empty /\
  window_of (Some 0%nat) (sdl_cleanup_sdl windowed0) = None.
Proof.
  destruct (sdl_cleanup_sdl_leaves_no_window windowed0) as (Hcount & _ & Hgone & _).
  { simpl. lia. }
  split; [reflexivity|]. split; [discriminate|]. split; [exact Hcount|].
  apply (Hgone 0%nat). simpl. lia.
Defined.

(** *** Commands on the UI thread *)

(** Bitwise identities of the fullscreen toggle, for any mask. *)
Lemma toggle_bits (f m x : Z) :
  Z.ldiff (Z.lor (Z.ldiff f m) (Z.land x m)) m = Z.ldiff f m /\
  Z.land (Z.lor (Z.ldiff f m) (Z.land (Z.lor f m) m)) m = m /\
  Z.land (Z.lor (Z.ldiff f m) (Z.land (Z.ldiff f m) m)) m = 0.
Proof.
  split; [|split]; apply Z.bits_inj'; intros n Hn;
    repeat (rewrite Z.land_spec || rewrite Z.lor_spec || rewrite Z.ldiff_spec
            || rewrite Z.bits_0);
    destruct (Z.testbit f n), (Z.testbit m n), (Z.testbit x n); reflexivity.
Qed.

(** X17: the UI thread's handling of a fullscreen command for an existing
    window.  If the window's fullscreen bit already is what the command asks
    for, nothing is changed (the toolkit is not called); in every case the
    window afterwards has its fullscreen bit equal to [enter], all its other
    flag bits and its size as before, and no other window is touched. *)
Theorem sdl_run_dispatch_fullscreen (w : world) (i : nat) (enter : bool) (sw : SDL_Window) :
  window_of (Some i) w = Some sw ->
  let w' := sdl_run_dispatch (SDL_USEREVENT_WINDOW_FULLSCREEN (Some i) enter) w in
  (negb (Z.land (win_flags sw) SDL_WINDOW_FULLSCREEN =? 0) = enter -> w' = w) /\
  (exists sw', window_of (Some i) w' = Some sw' /\
     win_w sw' = win_w sw /\ win_h sw' = win_h sw /\
     Z.land (win_flags sw') SDL_WINDOW_FULLSCREEN
       = (if enter then SDL_WINDOW_FULLSCREEN else 0) /\
     Z.ldiff (win_flags sw') SDL_WINDOW_FULLSCREEN
       = Z.ldiff (win_flags sw) SDL_WINDOW_FULLSCREEN) /\
  (forall j, j <> i -> sdl_windows w' !! j = sdl_windows w !! j) /\
  unpainted (with_sdl_windows [] w') = unpainted (with_sdl_windows [] w).
Proof.
  intros Hwin w'. subst w'. unfold sdl_run_dispatch, SDL_GetWindowFlags.
  rewrite Hwin. set (f := win_flags sw).
  assert (sdl_windows w !! i = Some (Some sw)) as Hi.
  { simpl in Hwin. destruct (sdl_windows w !! i) as [[?|]|]; simpl in Hwin; congruence. }
  assert (Z.land f SDL_WINDOW_FULLSCREEN = 0 \/
          Z.land f SDL_WINDOW_FULLSCREEN = SDL_WINDOW_FULLSCREEN) as Hbit.
  { change SDL_WINDOW_FULLSCREEN with (Z.ones 1). rewrite Z.land_ones by lia.
    change (Z.ones 1) with 1. pose proof (Z.mod_pos_bound f (2 ^ 1)). lia. }
  destruct (toggle_bits f SDL_WINDOW_FULLSCREEN (Z.lor f SDL_WINDOW_FULLSCREEN))
    as (Hrest1 & Hon & _).
  destruct (toggle_bits f SDL_WINDOW_FULLSCREEN (Z.ldiff f SDL_WINDOW_FULLSCREEN))
    as (Hrest2 & _ & Hoff).
  unfold SDL_SetWindowFullscreen, update_window. rewrite Hwin. fold f.
  destruct enter, (Z.eqb_spec (Z.land f SDL_WINDOW_FULLSCREEN) 0) as [Hz|Hnz];
    cbn [negb andb orb].
  - split; [done|]. split; [|split; [|done]].
    + eexists. split.
      * simpl. rewrite list_lookup_insert_eq by (by eapply lookup_lt_Some). done.
      * simpl. by rewrite Hon, Hrest1.
    + intros j Hj. simpl. by rewrite list_lookup_insert_ne.
  - split; [done|]. split; [|done].
    exists sw. split; [done|]. split; [done|]. split; [done|].
    split; [|done]. fold f. destruct Hbit; [done|congruence].
  - split; [done|]. split; [|done].
    exists sw. split; [done|]. split; [done|]. split; [done|].
    split; [|done]. exact Hz.
  - split; [done|]. split; [|split; [|done]].
    + eexists. split.
      * simpl. rewrite list_lookup_insert_eq by (by eapply lookup_lt_Some). done.
      * simpl. by rewrite Hoff, Hrest2.
    + intros j Hj. simpl. by rewrite list_lookup_insert_ne.
Qed.

Lemma sdl_run_dispatch_fullscreen_witness :
  SDL_GetWindowFlags (Some 0%nat)
    (sdl_run_dispatch (SDL_USEREVENT_WINDOW_FULLSCREEN (Some 0%nat) true) windowed0)
  <> SDL_GetWindowFlags (Some 0%nat) windowed0.
Proof.
  destruct (sdl_run_dispatch_fullscreen windowed0 0 true
              {| win_w := 1024; win_h := 768; win_flags := SDL_WINDOW_SHOWN |})
    as (_ & (sw' & Hwin & _ & _ & Hbit & _) & _).
  { reflexivity. }
  unfold SDL_GetWindowFlags. rewrite Hwin. intros Heq.
  rewrite Heq in Hbit. discriminate Hbit.
Defined.

(** The compositing pass ends with the frame gate set and leaves the command
    queue alone. *)
Lemma sdl_end_paint_process_gate_queue (w : world) :
  is_Some (event_of (update_complete (sdl w)) (events w)) ->
  exists w', sdl_end_paint_process w = (true, w') /\
    signaled_at (update_complete (sdl w')) w' = Some true /\
    event_queue w' = event_queue w.
Proof.
  intros Hgate. unfold sdl_end_paint_process.
  set (w1 := if suppressOutput (gdi w) || invalid_null (gdi w) then w else _).
  assert (unpainted w1 = unpainted w) as Hu.
  { subst w1. destruct (_ || _); [done|]. destruct (_ <? 1); [done|].
    apply compositing_loop_unpainted. }
  clearbody w1.
  destruct (SetEvent_valid (update_complete (sdl w1)) w1)
    as (w' & Hset & Hsig & i & e & Hh & He & ->).
  { by rewrite (unpainted_gate w w1). }
  eexists. split; [exact Hset|]. split; [exact Hsig|].
  exact (f_equal event_queue Hu).
Qed.

(** X18: one frame through the command channel.  With an empty command queue
    that has room, and the session not aborted, sdl_end_paint returns TRUE and
    the next turn of the UI thread's poll loop takes the command off the queue
    and runs the compositing pass on the state the protocol thread left: the
    queue is empty again and the frame gate is set. *)
Theorem sdl_end_paint_then_poll (w : world) :
  event_queue w = [] -> (0 < queue_limit w)%nat ->
  is_Some (event_of (update_complete (sdl w)) (events w)) ->
  freerdp_shall_disconnect_context w = false ->
  exists w1 w2,
    sdl_end_paint w = (true, w1) /\
    sdl_run_poll w1 = Some w2 /\
    w2 = snd (sdl_end_paint_process w) /\
    event_queue w2 = [] /\
    signaled_at (update_complete (sdl w2)) w2 = Some true.
Proof.
  intros Hq Hroom Hgate Hrun.
  destruct (sdl_end_paint_process_gate_queue w Hgate) as (w2 & Hpass & Hsig & Hq2).
  unfold sdl_end_paint, sdl_push_user_event. rewrite Hq.
  destruct (Nat.ltb_spec (length (@nil SDL_Event)) (queue_limit w)) as [_|Hfull];
    [|simpl in Hfull; lia].
  cbn [negb app]. eexists. exists w2. split; [reflexivity|].
  unfold sdl_run_poll.
  change (freerdp_shall_disconnect_context (with_event_queue _ w))
    with (freerdp_shall_disconnect_context w).
  rewrite Hrun. unfold SDL_PollEvent. cbn [event_queue with_event_queue].
  assert (with_event_queue [] (with_event_queue [SDL_USEREVENT_UPDATE] w) = w) as ->.
  { destruct w. simpl in Hq. by subst. }
  cbn [sdl_run_dispatch]. rewrite Hpass. split; [done|]. split; [done|].
  split; [by rewrite Hq2|exact Hsig].
Qed.

Lemma sdl_end_paint_then_poll_witness :
  exists w1 w2,
    sdl_end_paint frame_world = (true, w1) /\
    sdl_run_poll w1 = Some w2 /\
    w2 = snd (sdl_end_paint_process frame_world) /\
    event_queue w2 = [] /\
    signaled_at (update_complete (sdl w2)) w2 = Some true.
Proof.
  apply (sdl_end_paint_then_poll frame_world).
  - reflexivity.
  - simpl. lia.
  - vm_compute. eauto.
  - reflexivity.
Defined.

(** *** The compositing pass with smart sizing *)

(** The scaled copy loop: three surface calls per rectangle, none of them an
    unscaled copy, and the window array untouched. *)
Lemma blit_scaled_loop (x id : nat) (c : list GDI_RGN) (idx : list nat) (w : world) :
  windows (sdl (foldl (blit_region_scaled x id c) w idx)) = windows (sdl w) /\
  exists ops, drawn (foldl (blit_region_scaled x id c) w idx) = drawn w ++ ops /\
    length ops = (3 * length idx)%nat /\
    Forall (fun op => is_unscaled_copy op = false) ops.
Proof.
  revert w. induction idx as [|i idx IH]; intros w.
  - simpl. split; [done|]. exists []. by rewrite app_nil_r.
  - cbn [foldl]. destruct (IH (blit_region_scaled x id c w i)) as (Hw & ops & Hd & Hl & Hf).
    rewrite Hw, Hd. clear IH Hw Hd. unfold blit_region_scaled.
    destruct (sdl_scale_coordinates w id _ _ false true) as [? [dx dy]].
    destruct (sdl_scale_coordinates w id _ _ false true) as [? [dw dh]].
    split; [done|]. cbn [drawn with_drawn].
    eexists. rewrite <- app_assoc. split; [reflexivity|]. split.
    + rewrite length_app, Hl. simpl. lia.
    + apply Forall_app. split; [|exact Hf]. repeat constructor.
Qed.

(** One window's turn of the pass with smart sizing. *)
Lemma paint_window_smart (n : Z) (c : list GDI_RGN) (w : world) (x : nat) :
  SmartSizing (settings w) = true ->
  (x < length (windows (sdl w)))%nat ->
  window_at x (paint_window n c w x)
    = {| window := window (window_at x w); offset_x := 0; offset_y := 0 |} /\
  (forall y, y <> x -> window_at y (paint_window n c w x) = window_at y w) /\
  exists ops, drawn (paint_window n c w x) = drawn w ++ ops /\
    length ops = (3 * Z.to_nat n + 1)%nat /\
    Forall (fun op => is_unscaled_copy op = false) ops.
Proof.
  intros Hsmart Hx. unfold paint_window.
  destruct (SDL_GetWindowSize (window (window_at x w)) w) as [w_ h_].
  cbn [settings set_window_at with_sdl]. rewrite Hsmart. cbn [negb].
  match goal with |- context [foldl ?f ?w1 ?idx] =>
    destruct (blit_scaled_loop x (SDL_GetWindowID (window (window_at x w)) w1) c idx w1)
      as (Hw & ops & Hd & Hl & Hf); set (w2 := foldl f w1 idx) in * end.
  simpl in Hw, Hd. unfold window_at at 1 3. cbn [sdl with_drawn]. rewrite Hw.
  split; [by rewrite list_lookup_insert_eq|]. split.
  - intros y Hy. unfold window_at. cbn [sdl with_drawn]. rewrite Hw.
    by rewrite list_lookup_insert_ne.
  - cbn [drawn with_drawn]. rewrite Hd, <- app_assoc. eexists. split; [reflexivity|].
    split.
    + rewrite length_app, Hl, length_seq. simpl. lia.
    + apply Forall_app. split; [exact Hf|]. repeat constructor.
Qed.

(** The pass over the first [k] windows. *)
Lemma compositing_loop_smart (n : Z) (c : list GDI_RGN) (k : nat) (w : world) :
  SmartSizing (settings w) = true ->
  (k <= length (windows (sdl w)))%nat ->
  let w' := foldl (paint_window n c) w (seq 0 k) in
  length (windows (sdl w')) = length (windows (sdl w)) /\
  (forall x, (x < k)%nat ->
     window_at x w' = {| window := window (window_at x w); offset_x := 0; offset_y := 0 |}) /\
  (forall x, (k <= x)%nat -> window_at x w' = window_at x w) /\
  exists ops, drawn w' = drawn w ++ ops /\
    length ops = (k * (3 * Z.to_nat n + 1))%nat /\
    Forall (fun op => is_unscaled_copy op = false) ops.
Proof.
  intros Hsmart. induction k as [|k IH]; intros Hk w'; subst w'.
  - simpl. split; [done|]. split; [intros; lia|]. split; [done|].
    exists []. by rewrite app_nil_r.
  - rewrite seq_S, foldl_app. simpl.
    destruct IH as (Hlen & Hlt & Hge & ops & Hd & Hl & Hf); [lia|].
    pose proof (compositing_loop_unpainted n c (seq 0 k) w) as Hu.
    set (wk := foldl (paint_window n c) w (seq 0 k)) in *.
    pose proof (f_equal settings Hu) as Hs. simpl in Hs.
    destruct (paint_window_smart n c wk k) as (Hk1 & Hother & ops' & Hd' & Hl' & Hf').
    { by rewrite Hs. }
    { lia. }
    destruct (paint_window_unpainted n c wk k) as (_ & Hlen' & _).
    split; [by rewrite Hlen'|]. split; [|split].
    + intros x Hx. destruct (decide (x = k)) as [->|Hne].
      * rewrite Hk1, Hge by lia. done.
      * rewrite Hother by done. apply Hlt. lia.
    + intros x Hx. rewrite Hother by lia. apply Hge. lia.
    + exists (ops ++ ops'). rewrite Hd', Hd, app_assoc. split; [done|]. split.
      * rewrite length_app, Hl, Hl'. lia.
      * apply Forall_app. done.
Qed.

(** X19: the compositing pass with smart sizing, on a frame with invalid
    rectangles.  Every window's offsets are reset to 0 (no centering), and the
    surface calls it adds are, per window, three for each invalid rectangle
    and one window update -- none of them an unscaled copy. *)
Theorem sdl_end_paint_process_smart_sizing (w : world) :
  SmartSizing (settings w) = true ->
  suppressOutput (gdi w) = false -> invalid_null (gdi w) = false ->
  1 <= ninvalid (gdi w) ->
  (windowCount (sdl w) <= length (windows (sdl w)))%nat ->
  let w' := snd (sdl_end_paint_process w) in
  (forall x, (x < windowCount (sdl w))%nat ->
     window_at x w'
       = {| window := window (window_at x w); offset_x := 0; offset_y := 0 |}) /\
  exists ops, drawn w' = drawn w ++ ops /\
    length ops = (windowCount (sdl w) * (3 * Z.to_nat (ninvalid (gdi w)) + 1))%nat /\
    Forall (fun op => is_unscaled_copy op = false) ops.
Proof.
  intros Hsmart Hout Hinv Hn Hcount w'. subst w'. unfold sdl_end_paint_process.
  rewrite Hout, Hinv. cbn [orb].
  destruct (Z.ltb_spec (ninvalid (gdi w)) 1) as [?|_]; [lia|].
  destruct (compositing_loop_smart (ninvalid (gdi w)) (cinvalid (gdi w))
              (windowCount (sdl w)) w Hsmart Hcount) as (_ & Hlt & _ & Hops).
  set (w1 := foldl _ w _) in *.
  assert (forall h, windows (sdl (snd (SetEvent h w1))) = windows (sdl w1) /\
                    drawn (snd (SetEvent h w1)) = drawn w1) as Hset.
  { intros [i|]; simpl; [|done]. by destruct (events w1 !! i). }
  destruct (Hset (update_complete (sdl w1))) as [Hw Hd].
  split.
  - intros x Hx. unfold window_at at 1. rewrite Hw. by apply Hlt.
  - by rewrite Hd.
Qed.

Lemma sdl_end_paint_process_smart_sizing_witness :
  window_at 0 (snd (sdl_end_paint_process smart_world))
    = {| window := Some 0%nat; offset_x := 0; offset_y := 0 |} /\
  exists ops, drawn (snd (sdl_end_paint_process smart_world)) = drawn smart_world ++ ops /\
    length ops = 7%nat /\
    Forall (fun op => is_unscaled_copy op = false) ops.
Proof.
  destruct (sdl_end_paint_process_smart_sizing smart_world) as [Hwin Hops].
  - reflexivity.
  - reflexivity.
  - reflexivity.
  - simpl. lia.
  - simpl. lia.
  - split; [apply (Hwin 0%nat); simpl; lia | exact Hops].
Defined.

(** *** Abort *)

(** X20: abort releases a protocol thread that waits at the frame gate.  With
    the gate unset and the (manual-reset) abort event set, sdl_begin_paint
    returns FALSE and changes nothing: the gate stays unset and the invalid
    region is not reset. *)
Theorem sdl_begin_paint_aborted (w : world) :
  signaled_at (update_complete (sdl w)) w = Some false ->
  manual_event (abort_event w) w ->
  signaled_at (abort_event w) w = Some true ->
  sdl_begin_paint w = Returned false w.
Proof.
  intros Hgate (a & Ha & Hmanual) Habort.
  unfold sdl_begin_paint. rewrite wait_second_signaled; [done | exact Hgate |].
  unfold signaled_at in Habort. rewrite Ha in Habort. rewrite Ha.
  destruct a as [m s]. simpl in *. by simplify_eq.
Qed.

Lemma sdl_begin_paint_aborted_witness :
  exists w1, sdl_begin_paint session0 = Returned true w1 /\
    sdl_begin_paint (snd (SetEvent (abort_event w1) w1))
    = Returned false (snd (SetEvent (abort_event w1) w1)).
Proof.
  eexists. split; [reflexivity|].
  apply sdl_begin_paint_aborted.
  - reflexivity.
  - eexists. split; reflexivity.
  - reflexivity.
Defined.

Section authentication_only.
Context `{freerdp_error}.
Variable ERRINFO_SUCCESS : DWORD.

(** X21: a session in authentication-only mode.  sdl_client_thread_proc does
    not enter its loop, whatever the engine would report there: it records
    the exit code of the connect and sets the abort event.  sdl_run, whose
    wait for initialize nobody answers in this mode, then returns -1 without
    initialising the toolkit. *)
Theorem authentication_only_session_ends (engine : rdp_engine)
    (turns : list loop_turn) (w : world) :
  AuthenticationOnly (settings w) = true ->
  session_ok w ->
  signaled_at (initialize (sdl w)) w = Some false ->
  exists c w',
    sdl_client_thread_proc ERRINFO_SUCCESS engine turns w = Some (c, w') /\
    c = (if connect_result engine then exit_code_value SDL_EXIT_SUCCESS
         else sdl_map_error_to_exit_code (last_error engine)) /\
    signaled_at (abort_event w') w' = Some true /\
    sdl_run_enter w' = Returned (Some (-1)) w' /\
    video_init w' = video_init w /\ event_queue w' = event_queue w.
Proof.
  intros Hauth Hok Hi.
  destruct (session_ok_inv w Hok)
    as (hi & hd & hu & hc & ha & Ei & _ & _ & _ & Ea & Hdup & Hall).
  apply Forall_cons in Hall as [[si Hhi] Hall].
  do 3 apply Forall_cons in Hall as [_ Hall].
  apply Forall_cons in Hall as [[sa Hha] _].
  apply NoDup_cons in Hdup as [Hni _].
  repeat rewrite not_elem_of_cons in Hni. destruct Hni as (_ & _ & _ & Hia & _).
  unfold signaled_at in Hi. rewrite Ei in Hi. simpl in Hi. rewrite Hhi in Hi.
  simpl in Hi. injection Hi as ->.
  pose proof (lookup_lt_Some _ _ _ Hha) as Hlt.
  unfold sdl_client_thread_proc. rewrite Hauth. unfold SetEvent. rewrite Ea, Hha.
  cbn [snd]. eexists. eexists. split; [reflexivity|].
  split; [by destruct (connect_result engine)|].
  assert (event_of (abort_event w)
            (<[ha := set_signaled true {| manual_reset := true; signaled := sa |}]>
               (events w))
          = Some {| manual_reset := true; signaled := true |}) as Habort.
  { rewrite Ea. simpl. by rewrite list_lookup_insert_eq. }
  split; [|split; [|done]].
  - unfold signaled_at. cbn [abort_event with_events events]. by rewrite Habort.
  - unfold sdl_run_enter. cbn [sdl abort_event with_events].
    rewrite wait_second_signaled; [done | | exact Habort].
    unfold signaled_at. cbn [events with_events]. rewrite Ei. simpl.
    rewrite list_lookup_insert_ne by done. by rewrite Hhi.
Qed.

End authentication_only.

Lemma authentication_only_session_ends_witness :
  exists c w',
    @sdl_client_thread_proc freerdp_error_h 0 engine_failed [] auth_only_world
    = Some (c, w') /\
    c = @sdl_map_error_to_exit_code freerdp_error_h 0 /\
    signaled_at (abort_event w') w' = Some true /\
    sdl_run_enter w' = Returned (Some (-1)) w' /\
    video_init w' = false /\ event_queue w' = [].
Proof.
  apply (@authentication_only_session_ends freerdp_error_h 0 engine_failed []
           auth_only_world); try reflexivity.
  split.
  - repeat constructor; eexists; split; reflexivity.
  - change (NoDup (Some <$> [1; 2; 3; 4; 0]%nat)). apply (NoDup_fmap_2 Some).
    repeat (apply NoDup_cons; split; [rewrite ?not_elem_of_cons; repeat split;
                                      first [lia | apply not_elem_of_nil]|]).
    constructor.
Defined.

(** *** Window commands, from the protocol thread to the toolkit *)

(** The loops of [update_resizeable] and [update_fullscreen] change nothing
    but the queue. *)
Lemma update_resizeable_loop_frame (use : bool) (xs : list nat) (w : world) :
  with_event_queue [] (snd (update_resizeable_loop use xs w)) = with_event_queue [] w.
Proof.
  revert w. induction xs as [|x xs IH]; intros w; [done|].
  cbn [update_resizeable_loop]. unfold sdl_push_user_event.
  destruct (_ <? _)%nat; cbn [negb]; [|done]. by rewrite IH.
Qed.

Lemma update_fullscreen_loop_frame (enter : bool) (xs : list nat) (w : world) :
  with_event_queue [] (snd (update_fullscreen_loop enter xs w)) = with_event_queue [] w.
Proof.
  revert w. induction xs as [|x xs IH]; intros w; [done|].
  cbn [update_fullscreen_loop]. unfold sdl_push_user_event.
  destruct (_ <? _)%nat; cbn [negb]; [|done]. by rewrite IH.
Qed.

(** Setting or clearing the bits of a mask. *)
Lemma set_clear_bits (f m : Z) :
  Z.land (Z.lor f m) m = m /\ Z.land (Z.ldiff f m) m = 0 /\
  Z.ldiff (Z.lor f m) m = Z.ldiff f m /\ Z.ldiff (Z.ldiff f m) m = Z.ldiff f m.
Proof.
  repeat split; apply Z.bits_inj'; intros n Hn;
    repeat (rewrite Z.land_spec || rewrite Z.lor_spec || rewrite Z.ldiff_spec
            || rewrite Z.bits_0);
    destruct (Z.testbit f n), (Z.testbit m n); reflexivity.
Qed.

(** Neither setting nor clearing the resizable bit touches the fullscreen
    bit. *)
Lemma resizable_keeps_fullscreen (f : Z) :
  Z.land (Z.lor f SDL_WINDOW_RESIZABLE) SDL_WINDOW_FULLSCREEN
  = Z.land f SDL_WINDOW_FULLSCREEN /\
  Z.land (Z.ldiff f SDL_WINDOW_RESIZABLE) SDL_WINDOW_FULLSCREEN
  = Z.land f SDL_WINDOW_FULLSCREEN.
Proof.
  split; apply Z.bits_inj'; intros n Hn;
    pose proof (Z.land_spec SDL_WINDOW_RESIZABLE SDL_WINDOW_FULLSCREEN n) as Hdisjoint;
    change (Z.land SDL_WINDOW_RESIZABLE SDL_WINDOW_FULLSCREEN) with 0 in Hdisjoint;
    rewrite Z.bits_0 in Hdisjoint;
    repeat (rewrite Z.land_spec || rewrite Z.lor_spec || rewrite Z.ldiff_spec);
    destruct (Z.testbit f n), (Z.testbit SDL_WINDOW_RESIZABLE n),
      (Z.testbit SDL_WINDOW_FULLSCREEN n); simpl in *; congruence.
Qed.

Lemma same_but_flag_refl (mask : Z) (sw : SDL_Window) : same_but_flag mask sw sw.
Proof. done. Qed.

Lemma same_but_flag_trans (mask : Z) (sw1 sw2 sw3 : SDL_Window) :
  same_but_flag mask sw1 sw2 -> same_but_flag mask sw2 sw3 -> same_but_flag mask sw1 sw3.
Proof. intros (? & ? & ?) (? & ? & ?). repeat split; congruence. Qed.

Lemma same_but_resizable_refl (sw : SDL_Window) : same_but_resizable sw sw.
Proof. done. Qed.

Lemma same_but_resizable_trans (sw1 sw2 sw3 : SDL_Window) :
  same_but_resizable sw1 sw2 -> same_but_resizable sw2 sw3 -> same_but_resizable sw1 sw3.
Proof.
  intros (H12 & Hfs12 & Hkeep12) (H23 & Hfs23 & Hkeep23).
  split; [by eapply same_but_flag_trans|]. split; [congruence|].
  intros Hfs. pose proof (Hkeep12 Hfs) as ->. by apply Hkeep23.
Qed.

Section command_run.

(** A family of commands, one per window pointer, whose handling on the UI
    thread touches the toolkit window it names and nothing else. *)
Variable command : SDL_WindowP -> SDL_Event.
Variable kept : SDL_Window -> SDL_Window -> Prop.
Variable achieved : SDL_Window -> Prop.
Hypothesis kept_refl : forall sw, kept sw sw.
Hypothesis kept_trans : forall sw1 sw2 sw3, kept sw1 sw2 -> kept sw2 sw3 -> kept sw1 sw3.
Hypothesis command_handled : forall (p : SDL_WindowP) (w : world),
  with_sdl_windows [] (sdl_run_dispatch (command p) w) = with_sdl_windows [] w /\
  forall i sw, sdl_windows w !! i = Some (Some sw) ->
    exists sw', sdl_windows (sdl_run_dispatch (command p) w) !! i = Some (Some sw') /\
      kept sw sw' /\
      (p = Some i -> achieved sw') /\
      (p <> Some i -> sw' = sw).

(** The UI thread, not aborted, with exactly these commands queued: after as
    many turns of its loop the queue is empty and the named windows are as
    the commands make them. *)
Lemma commands_run (ps : list SDL_WindowP) (w : world) :
  event_queue w = command <$> ps ->
  freerdp_shall_disconnect_context w = false ->
  exists w', sdl_run_turns (length ps) w = Some w' /\
    with_sdl_windows [] w' = with_sdl_windows [] (with_event_queue [] w) /\
    forall i sw, sdl_windows w !! i = Some (Some sw) ->
      exists sw', sdl_windows w' !! i = Some (Some sw') /\
        kept sw sw' /\
        (Some i ∈ ps -> achieved sw') /\
        (Some i ∉ ps -> sw' = sw).
Proof.
  revert w. induction ps as [|p ps IH]; intros w Hq Hrun.
  - exists w. split; [done|]. split.
    + destruct w. simpl in Hq. by subst.
    + intros i sw Hi. exists sw. split; [done|]. split; [apply kept_refl|].
      split; [by intros ?%elem_of_nil | done].
  - cbn [length sdl_run_turns]. unfold sdl_run_poll. rewrite Hrun.
    unfold SDL_PollEvent. rewrite Hq. cbn [fmap list_fmap].
    set (wa := with_event_queue (_ <$> ps) w).
    destruct (command_handled p wa) as [Hframe Hwin].
    set (wb := sdl_run_dispatch (command p) wa) in *.
    destruct (IH wb) as (w' & Hturns & Hframe' & Hwin').
    { exact (f_equal event_queue Hframe). }
    { unfold freerdp_shall_disconnect_context, signaled_at in *.
      pose proof (f_equal events Hframe) as He.
      pose proof (f_equal abort_event Hframe) as Ha. simpl in He, Ha.
      by rewrite Ha, He. }
    exists w'. split; [exact Hturns|]. split.
    + rewrite Hframe'.
      exact (f_equal (with_event_queue []) Hframe).
    + intros i sw Hi.
      destruct (Hwin i sw Hi) as (swb & Hib & Hkept & Hset & Hother).
      destruct (Hwin' i swb Hib) as (sw' & Hi' & Hkept' & Hset' & Hother').
      exists sw'. split; [exact Hi'|]. split.
      * by eapply kept_trans.
      * split.
        -- intros Hin. destruct (decide (Some i ∈ ps)) as [Hps|Hps]; [by apply Hset'|].
           apply elem_of_cons in Hin as [Hp|Hin]; [|done].
           rewrite (Hother' Hps). by apply Hset.
        -- intros Hnin. apply not_elem_of_cons in Hnin as [Hp Hps].
           rewrite (Hother' Hps). apply Hother. congruence.
Qed.

End command_run.

(** How the UI thread handles a fullscreen command and a resizeable
    command. *)
Lemma fullscreen_command_handled (enter : bool) (p : SDL_WindowP) (w : world) :
  with_sdl_windows [] (sdl_run_dispatch (SDL_USEREVENT_WINDOW_FULLSCREEN p enter) w)
  = with_sdl_windows [] w /\
  forall i sw, sdl_windows w !! i = Some (Some sw) ->
    exists sw',
      sdl_windows (sdl_run_dispatch (SDL_USEREVENT_WINDOW_FULLSCREEN p enter) w) !! i
      = Some (Some sw') /\
      same_but_flag SDL_WINDOW_FULLSCREEN sw sw' /\
      (p = Some i -> flag_is SDL_WINDOW_FULLSCREEN enter sw') /\
      (p <> Some i -> sw' = sw).
Proof.
  unfold sdl_run_dispatch, SDL_GetWindowFlags, SDL_SetWindowFullscreen, update_window.
  destruct p as [j|]; [|split; [by destruct enter|]].
  2:{ intros i sw Hi. exists sw. destruct enter; simpl; rewrite Hi; done. }
  destruct (window_of (Some j) w) as [swj|] eqn:Hwj.
  2:{ split; [by destruct enter|]. intros i sw Hi. exists sw.
      assert ((if enter && negb (negb (Z.land 0 SDL_WINDOW_FULLSCREEN =? 0))
                  || negb enter && negb (Z.land 0 SDL_WINDOW_FULLSCREEN =? 0)
               then w else w) = w) as -> by (by destruct enter).
      split; [done|]. split; [done|]. split; [|done].
      intros [= ->]. simpl in Hwj. rewrite Hi in Hwj. done. }
  assert (sdl_windows w !! j = Some (Some swj)) as Hj.
  { simpl in Hwj. destruct (sdl_windows w !! j) as [[?|]|]; simpl in Hwj; congruence. }
  set (f := win_flags swj).
  assert (Z.land f SDL_WINDOW_FULLSCREEN = 0 \/
          Z.land f SDL_WINDOW_FULLSCREEN = SDL_WINDOW_FULLSCREEN) as Hbit.
  { change SDL_WINDOW_FULLSCREEN with (Z.ones 1). rewrite Z.land_ones by lia.
    change (Z.ones 1) with 1. pose proof (Z.mod_pos_bound f (2 ^ 1)). lia. }
  destruct (toggle_bits f SDL_WINDOW_FULLSCREEN (Z.lor f SDL_WINDOW_FULLSCREEN))
    as (Hrest1 & Hon & _).
  destruct (toggle_bits f SDL_WINDOW_FULLSCREEN (Z.ldiff f SDL_WINDOW_FULLSCREEN))
    as (Hrest2 & _ & Hoff).
  pose proof (lookup_lt_Some _ _ _ Hj) as Hlt.
  destruct enter, (Z.eqb_spec (Z.land f SDL_WINDOW_FULLSCREEN) 0) as [Hz|Hnz];
    cbn [negb andb orb]; (split; [done|]); intros i sw Hi.
  - destruct (decide (i = j)) as [->|Hne].
    + eexists. cbn [sdl_windows with_sdl_windows].
      rewrite list_lookup_insert_eq by done. split; [done|].
      assert (sw = swj) as -> by congruence.
      split; [by repeat split|]. split; [intros _; exact Hon | congruence].
    + exists sw. cbn [sdl_windows with_sdl_windows].
      rewrite list_lookup_insert_ne by done. split; [done|]. split; [done|].
      split; [congruence | done].
  - exists sw. split; [done|]. split; [done|]. split; [|done].
    intros [= ->]. assert (sw = swj) as -> by congruence.
    unfold flag_is. fold f. destruct Hbit; [done|congruence].
  - exists sw. split; [done|]. split; [done|]. split; [|done].
    intros [= ->]. assert (sw = swj) as -> by congruence. exact Hz.
  - destruct (decide (i = j)) as [->|Hne].
    + eexists. cbn [sdl_windows with_sdl_windows].
      rewrite list_lookup_insert_eq by done. split; [done|].
      assert (sw = swj) as -> by congruence.
      split; [by repeat split|]. split; [intros _; exact Hoff | congruence].
    + exists sw. cbn [sdl_windows with_sdl_windows].
      rewrite list_lookup_insert_ne by done. split; [done|]. split; [done|].
      split; [congruence | done].
Qed.

Lemma resizeable_command_handled (use : bool) (p : SDL_WindowP) (w : world) :
  with_sdl_windows [] (sdl_run_dispatch (SDL_USEREVENT_WINDOW_RESIZEABLE p use) w)
  = with_sdl_windows [] w /\
  forall i sw, sdl_windows w !! i = Some (Some sw) ->
    exists sw',
      sdl_windows (sdl_run_dispatch (SDL_USEREVENT_WINDOW_RESIZEABLE p use) w) !! i
      = Some (Some sw') /\
      same_but_resizable sw sw' /\
      (p = Some i -> resizable_unless_fullscreen use sw') /\
      (p <> Some i -> sw' = sw).
Proof.
  unfold sdl_run_dispatch, SDL_SetWindowResizable, update_window.
  destruct p as [j|]; [|split; [done|]].
  2:{ intros i sw Hi. by exists sw. }
  destruct (window_of (Some j) w) as [swj|] eqn:Hwj.
  2:{ split; [done|]. intros i sw Hi. exists sw.
      split; [done|]. split; [done|]. split; [|done].
      intros [= ->]. simpl in Hwj. rewrite Hi in Hwj. done. }
  assert (sdl_windows w !! j = Some (Some swj)) as Hj.
  { simpl in Hwj. destruct (sdl_windows w !! j) as [[?|]|]; simpl in Hwj; congruence. }
  pose proof (lookup_lt_Some _ _ _ Hj) as Hlt.
  destruct (set_clear_bits (win_flags swj) SDL_WINDOW_RESIZABLE)
    as (Hon & Hoff & Hrest1 & Hrest2).
  destruct (resizable_keeps_fullscreen (win_flags swj)) as [Hfs1 Hfs2].
  split; [done|]. intros i sw Hi. destruct (decide (i = j)) as [->|Hne].
  - eexists. cbn [sdl_windows with_sdl_windows].
    rewrite list_lookup_insert_eq by done. split; [done|].
    assert (sw = swj) as -> by congruence.
    destruct (Z.eqb_spec (Z.land (win_flags swj) SDL_WINDOW_FULLSCREEN) 0) as [Hz|Hnz];
      cbn [negb].
    + split; [|split; [|congruence]].
      * split; [|split].
        -- repeat split. simpl. by destruct use.
        -- simpl. by destruct use.
        -- intros Hfs. done.
      * intros _ _. unfold flag_is. simpl. by destruct use.
    + split; [done|]. split; [|congruence]. intros _ Hfs. done.
  - exists sw. cbn [sdl_windows with_sdl_windows].
    rewrite list_lookup_insert_ne by done. split; [done|]. split; [done|].
    split; [congruence | done].
Qed.

(** X22: update_fullscreen takes effect.  With an empty command queue that
    has room for one command per window, and the session not aborted,
    update_fullscreen returns TRUE, and after windowCount turns of the UI
    thread's loop the queue is empty again and every existing window of
    sdl->windows has its fullscreen bit equal to [enter], its other flag bits
    and its size unchanged. *)
Theorem update_fullscreen_takes_effect (w : world) (enter : bool) :
  event_queue w = [] ->
  (windowCount (sdl w) <= queue_limit w)%nat ->
  freerdp_shall_disconnect_context w = false ->
  exists w1 w2,
    update_fullscreen w enter = (true, w1) /\
    sdl_run_turns (windowCount (sdl w)) w1 = Some w2 /\
    event_queue w2 = [] /\ fullscreen (sdl w2) = enter /\
    forall x sw, (x < windowCount (sdl w))%nat ->
      window_of (window (window_at x w)) w = Some sw ->
      exists sw', window_of (window (window_at x w)) w2 = Some sw' /\
        same_but_flag SDL_WINDOW_FULLSCREEN sw sw' /\
        flag_is SDL_WINDOW_FULLSCREEN enter sw'.
Proof.
  intros Hq Hroom Hrun. unfold update_fullscreen.
  pose proof (update_fullscreen_loop_frame enter (seq 0 (windowCount (sdl w))) w) as Hframe.
  destruct (update_fullscreen_loop _ _ w) as [ok wl] eqn:Hloop.
  apply update_fullscreen_loop_spec in Hloop.
  destruct Hloop as (Hsdl & _ & Hlimit & Hqueue). cbn [snd] in Hframe.
  destruct ok.
  2:{ destruct Hqueue as (k & Hk & Hqk & Hfull). exfalso.
      rewrite Hqk, Hq, Hlimit in Hfull. rewrite length_seq in Hk.
      simpl in Hfull. rewrite length_fmap, length_take, length_seq in Hfull. lia. }
  cbn [negb]. rewrite Hq in Hqueue. simpl in Hqueue.
  set (w1 := with_sdl _ wl).
  destruct (commands_run (fun p => SDL_USEREVENT_WINDOW_FULLSCREEN p enter)
              (same_but_flag SDL_WINDOW_FULLSCREEN) (flag_is SDL_WINDOW_FULLSCREEN enter)
              (same_but_flag_refl _) (same_but_flag_trans _)
              (fullscreen_command_handled enter)
              ((fun x => window (window_at x w)) <$> seq 0 (windowCount (sdl w))) w1)
    as (w2 & Hturns & Hframe2 & Hwin).
  { subst w1. cbn [event_queue with_sdl]. rewrite Hqueue.
    by rewrite <- list_fmap_compose. }
  { unfold freerdp_shall_disconnect_context, signaled_at in *.
    pose proof (f_equal events Hframe) as He.
    pose proof (f_equal abort_event Hframe) as Ha. simpl in He, Ha.
    subst w1. cbn [abort_event events with_sdl]. by rewrite Ha, He. }
  rewrite length_fmap, length_seq in Hturns.
  exists w1, w2. split; [done|]. split; [exact Hturns|].
  split; [exact (f_equal event_queue Hframe2)|].
  split; [exact (f_equal (fun w => fullscreen (sdl w)) Hframe2)|].
  intros x sw Hx Hsw.
  destruct (window (window_at x w)) as [i|] eqn:Hp; [|done].
  simpl in Hsw.
  pose proof (f_equal sdl_windows Hframe) as Hws. simpl in Hws.
  destruct (Hwin i sw) as (sw' & Hi' & Hkept & Hset & _).
  { subst w1. cbn [sdl_windows with_sdl]. rewrite Hws.
    destruct (sdl_windows w !! i) as [[?|]|]; simpl in Hsw; congruence. }
  exists sw'. simpl. rewrite Hi'. split; [done|]. split; [done|].
  apply Hset. apply list_elem_of_fmap. exists x. split; [done|].
  apply elem_of_seq. lia.
Qed.

Lemma update_fullscreen_takes_effect_witness :
  exists w1 w2,
    update_fullscreen windowed0 true = (true, w1) /\
    sdl_run_turns 1 w1 = Some w2 /\
    event_queue w2 = [] /\ fullscreen (sdl w2) = true /\
    forall x sw, (x < 1)%nat ->
      window_of (window (window_at x windowed0)) windowed0 = Some sw ->
      exists sw', window_of (window (window_at x windowed0)) w2 = Some sw' /\
        same_but_flag SDL_WINDOW_FULLSCREEN sw sw' /\
        flag_is SDL_WINDOW_FULLSCREEN true sw'.
Proof.
  apply (update_fullscreen_takes_effect windowed0 true).
  - reflexivity.
  - simpl. lia.
  - reflexivity.
Defined.

(** X23: update_resizeable takes effect, except on fullscreen windows.
    Under the same conditions update_resizeable returns TRUE and sets
    sdl->resizeable to [use]: dynamic resolution update is on and [enable] is
    set, or smart sizing is on.  After windowCount turns of the UI thread's
    loop every existing window of sdl->windows that is not in fullscreen is
    resizable exactly when [use] holds, its other flag bits and its size
    unchanged; a window in fullscreen is left as it is, whatever
    sdl->resizeable then says. *)
Theorem update_resizeable_takes_effect (w : world) (enable : bool) :
  event_queue w = [] ->
  (windowCount (sdl w) <= queue_limit w)%nat ->
  freerdp_shall_disconnect_context w = false ->
  let use := DynamicResolutionUpdate (settings w) && enable || SmartSizing (settings w) in
  exists w1 w2,
    update_resizeable w enable = (true, w1) /\
    sdl_run_turns (windowCount (sdl w)) w1 = Some w2 /\
    event_queue w2 = [] /\ resizeable (sdl w2) = use /\
    forall x sw, (x < windowCount (sdl w))%nat ->
      window_of (window (window_at x w)) w = Some sw ->
      exists sw', window_of (window (window_at x w)) w2 = Some sw' /\
        same_but_flag SDL_WINDOW_RESIZABLE sw sw' /\
        (Z.land (win_flags sw) SDL_WINDOW_FULLSCREEN = 0 ->
         flag_is SDL_WINDOW_RESIZABLE use sw') /\
        (Z.land (win_flags sw) SDL_WINDOW_FULLSCREEN <> 0 -> sw' = sw).
Proof.
  intros Hq Hroom Hrun use. unfold update_resizeable. fold use.
  pose proof (update_resizeable_loop_frame use (seq 0 (windowCount (sdl w))) w) as Hframe.
  destruct (update_resizeable_loop _ _ w) as [ok wl] eqn:Hloop.
  apply update_resizeable_loop_spec in Hloop.
  destruct Hloop as (Hsdl & _ & Hlimit & Hqueue). cbn [snd] in Hframe.
  destruct ok.
  2:{ destruct Hqueue as (k & Hk & Hqk & Hfull). exfalso.
      rewrite Hqk, Hq, Hlimit in Hfull. rewrite length_seq in Hk.
      simpl in Hfull. rewrite length_fmap, length_take, length_seq in Hfull. lia. }
  cbn [negb]. rewrite Hq in Hqueue. simpl in Hqueue.
  set (w1 := with_sdl _ wl).
  destruct (commands_run (fun p => SDL_USEREVENT_WINDOW_RESIZEABLE p use)
              same_but_resizable (resizable_unless_fullscreen use)
              same_but_resizable_refl same_but_resizable_trans
              (resizeable_command_handled use)
              ((fun x => window (window_at x w)) <$> seq 0 (windowCount (sdl w))) w1)
    as (w2 & Hturns & Hframe2 & Hwin).
  { subst w1. cbn [event_queue with_sdl]. rewrite Hqueue.
    by rewrite <- list_fmap_compose. }
  { unfold freerdp_shall_disconnect_context, signaled_at in *.
    pose proof (f_equal events Hframe) as He.
    pose proof (f_equal abort_event Hframe) as Ha. simpl in He, Ha.
    subst w1. cbn [abort_event events with_sdl]. by rewrite Ha, He. }
  rewrite length_fmap, length_seq in Hturns.
  exists w1, w2. split; [done|]. split; [exact Hturns|].
  split; [exact (f_equal event_queue Hframe2)|].
  split; [exact (f_equal (fun w => resizeable (sdl w)) Hframe2)|].
  intros x sw Hx Hsw.
  destruct (window (window_at x w)) as [i|] eqn:Hp; [|done].
  simpl in Hsw.
  pose proof (f_equal sdl_windows Hframe) as Hws. simpl in Hws.
  destruct (Hwin i sw) as (sw' & Hi' & (Hkept & Hfs & Hleft) & Hset & _).
  { subst w1. cbn [sdl_windows with_sdl]. rewrite Hws.
    destruct (sdl_windows w !! i) as [[?|]|]; simpl in Hsw; congruence. }
  exists sw'. simpl. rewrite Hi'. split; [done|]. split; [done|].
  split; [|exact Hleft].
  intros Hwindowed. apply Hset; [|congruence].
  apply list_elem_of_fmap. exists x. split; [done|].
  apply elem_of_seq. lia.
Qed.

(** With smart sizing the window becomes resizable even for [enable] unset. *)
Lemma update_resizeable_takes_effect_witness :
  exists w1 w2 sw',
    update_resizeable smart_world false = (true, w1) /\
    sdl_run_turns 1 w1 = Some w2 /\
    resizeable (sdl w2) = true /\
    SDL_GetWindowFlags (Some 0%nat) smart_world = SDL_WINDOW_SHOWN /\
    window_of (Some 0%nat) w2 = Some sw' /\
    flag_is SDL_WINDOW_RESIZABLE true sw'.
Proof.
  destruct (update_resizeable_takes_effect smart_world false)
    as (w1 & w2 & Hupdate & Hturns & _ & Hflag & Hwin).
  - reflexivity.
  - simpl. lia.
  - reflexivity.
  - destruct (Hwin 0%nat {| win_w := 1280; win_h := 768; win_flags := SDL_WINDOW_SHOWN |})
      as (sw' & Hsw' & _ & Hset & _).
    + simpl. lia.
    + reflexivity.
    + exists w1, w2, sw'. split; [exact Hupdate|]. split; [exact Hturns|].
      split; [exact Hflag|]. split; [reflexivity|]. split; [exact Hsw'|].
      apply Hset. reflexivity.
Defined.
